(** * bwpy.signal: a shallow embedding of the signal transformers

    The Python module [bwpy/signal.py] defines six transformers over numpy
    arrays: the windowed statistics [Variation], [Amplitude] and [Energy],
    the axis re-layout [Raw], the threshold mask [DetectArtifacts] and the
    mask-driven row selection [Shutter].

    The embedding has three layers:
    - Python exceptions as an error monad ([result]);
    - the numpy calls the module makes, over arrays kept the way numpy keeps
      them: a shape and a row-major buffer (module [np]);
    - the transformers themselves, written call by call after the source.

    Numbers are kept abstract behind the interface [Scalar]; two instances
    are given: IEEE binary64 floats, which is what numpy's [float64] and
    Python's [float] are, and exact rationals, which is what the same code
    computes on Python's [int] and [fractions.Fraction]. *)

From Stdlib Require Import Ascii String.
From Stdlib Require Import List Arith ZArith QArith Qabs Qround Lia Lqa Bool.
From Stdlib Require Import PrimFloat SpecFloat FloatOps FloatAxioms.
Import ListNotations.

Close Scope Q_scope.
Local Open Scope string_scope.
Local Open Scope nat_scope.
Local Open Scope list_scope.

(** ** Exceptions *)

(** The exception classes the module and the numpy calls it makes can raise. *)
Inductive exn : Type :=
| ValueError (msg : string)
| TypeError (msg : string)
| IndexError (msg : string)
| AxisError (msg : string)
| OverflowError (msg : string).

Inductive result (A : Type) : Type :=
| Ok (a : A)
| Raise (e : exn).

Arguments Ok {A} a.
Arguments Raise {A} e.

Definition bind {A B : Type} (r : result A) (k : A -> result B) : result B :=
  match r with
  | Ok a => k a
  | Raise e => Raise e
  end.

Notation "x <- e ;; k" := (bind e (fun x => k))
  (at level 61, e at next level, right associativity).

(** Runs [f] over a list from left to right; the first exception wins. *)
Fixpoint traverse {A B : Type} (f : A -> result B) (l : list A) : result (list B) :=
  match l with
  | [] => Ok []
  | x :: l' => y <- f x ;; ys <- traverse f l' ;; Ok (y :: ys)
  end.

(** ** Arrays *)

(** A numpy array: its [shape] and its elements in row-major (C) order.
    Strides and views are not modelled; every array is kept as the
    contiguous copy of what the view shows. *)
Record ndarray (A : Type) : Type := mk_ndarray {
  shape : list nat;
  buf : list A
}.

Arguments mk_ndarray {A} shape buf.
Arguments shape {A} n.
Arguments buf {A} n.

(** Number of elements of an array of the given shape. *)
Definition size (sh : list nat) : nat := fold_right Nat.mul 1 sh.

Definition ndim {A : Type} (a : ndarray A) : nat := length (shape a).

(** The buffer holds exactly the elements the shape announces. *)
Definition wf {A : Type} (a : ndarray A) : Prop :=
  length (buf a) = size (shape a).

(** All multi-indices of a shape, in row-major order. *)
Fixpoint indices (sh : list nat) : list (list nat) :=
  match sh with
  | [] => [[]]
  | n :: sh' => flat_map (fun i => map (cons i) (indices sh')) (seq 0 n)
  end.

(** Position of a multi-index in the row-major buffer; [None] when the index
    has the wrong length or leaves the shape. *)
Fixpoint offset (sh idx : list nat) : option nat :=
  match sh, idx with
  | [], [] => Some 0
  | n :: sh', i :: idx' =>
      if i <? n
      then option_map (fun o => i * size sh' + o) (offset sh' idx')
      else None
  | _, _ => None
  end.

(** A multi-index lies inside a shape. *)
Definition in_bounds (sh idx : list nat) : Prop := Forall2 lt idx sh.

Module np.

(** [a[idx]] for a full multi-index. *)
Definition get {A : Type} (a : ndarray A) (idx : list nat) : result A :=
  match offset (shape a) idx with
  | Some o =>
      match nth_error (buf a) o with
      | Some x => Ok x
      | None => Raise (IndexError "index out of bounds")
      end
  | None => Raise (IndexError "index out of bounds")
  end.

(** The array of shape [sh] whose element at [idx] is [f idx]. *)
Definition build {A : Type} (sh : list nat) (f : list nat -> result A)
  : result (ndarray A) :=
  b <- traverse f (indices sh) ;; Ok (mk_ndarray sh b).

(** Element-wise ufunc of one argument ([np.abs], [np.square], [data > x]). *)
Definition map1 {A B : Type} (f : A -> B) (a : ndarray A) : ndarray B :=
  mk_ndarray (shape a) (map f (buf a)).

(** Element-wise ufunc of two arguments on arrays of one shape (no
    broadcasting is needed by the module). *)
Definition map2 {A B C : Type} (f : A -> B -> C) (a : ndarray A) (b : ndarray B)
  : result (ndarray C) :=
  if list_eq_dec Nat.eq_dec (shape a) (shape b)
  then Ok (mk_ndarray (shape a) (map (fun p => f (fst p) (snd p)) (combine (buf a) (buf b))))
  else Raise (ValueError "operands could not be broadcast together").

(** [a.shape[i]]: indexing the shape tuple. *)
Definition shape_at {A : Type} (a : ndarray A) (i : nat) : result nat :=
  match nth_error (shape a) i with
  | Some n => Ok n
  | None => Raise (IndexError "tuple index out of range")
  end.

(** [len(a)]: the extent of the first axis; a 0-dimensional array has none. *)
Definition len {A : Type} (a : ndarray A) : result nat :=
  match shape a with
  | [] => Raise (TypeError "len() of unsized object")
  | n :: _ => Ok n
  end.

(** [numpy.lib.stride_tricks.sliding_window_view(x, window_shape)] with
    [axis=None]: one window extent per axis of [x]; the result has shape
    [trimmed ++ window_shape] and its element at [p ++ q] is [x[p + q]]. *)
Definition sliding_window_view {A : Type} (x : ndarray A) (window_shape : list Z)
  : result (ndarray A) :=
  if existsb (fun w => (w <? 0)%Z) window_shape
  then Raise (ValueError "`window_shape` cannot contain negative values")
  else if negb (length window_shape =? ndim x)
  then Raise (ValueError "Since axis is `None`, must provide window_shape for all dimensions of `x`")
  else
    let ws := map Z.to_nat window_shape in
    if existsb (fun p => fst p <? snd p) (combine (shape x) ws)
    then Raise (ValueError "window shape cannot be larger than input array shape")
    else
      let trimmed := map (fun p => fst p + 1 - snd p) (combine (shape x) ws) in
      build (trimmed ++ ws)
        (fun idx =>
           get x (map (fun p => fst p + snd p)
                    (combine (firstn (ndim x) idx) (skipn (ndim x) idx)))).

(** [a.reshape(newshape)], where at most one entry of [newshape] is
    negative and stands for the extent to infer. The elements keep their
    row-major order. *)
Definition reshape {A : Type} (a : ndarray A) (newshape : list Z) : result (ndarray A) :=
  let unknowns := filter (fun d => (d <? 0)%Z) newshape in
  let s_known :=
    fold_right (fun d acc => if (d <? 0)%Z then acc else Z.to_nat d * acc) 1 newshape in
  let s_original := size (shape a) in
  match unknowns with
  | [] =>
      if s_original =? s_known
      then Ok (mk_ndarray (map Z.to_nat newshape) (buf a))
      else Raise (ValueError "cannot reshape array")
  | [_] =>
      if (s_known =? 0) || negb (s_original mod s_known =? 0)
      then Raise (ValueError "cannot reshape array")
      else Ok (mk_ndarray
                 (map (fun d => if (d <? 0)%Z then s_original / s_known else Z.to_nat d)
                    newshape)
                 (buf a))
  | _ => Raise (ValueError "can only specify one unknown dimension")
  end.

(** [ufunc.reduce] of a binary ufunc without identity over a list. *)
Definition reduce1 {A : Type} (f : A -> A -> A) (l : list A) : result A :=
  match l with
  | [] => Raise (ValueError "zero-size array to reduction operation which has no identity")
  | x :: l' => Ok (fold_left f l' x)
  end.

(** The elements [a[idx[:axis] + (t,) + idx[axis:]]] for [t] in [range(n)]. *)
Definition lane {A : Type} (a : ndarray A) (axis n : nat) (idx : list nat)
  : result (list A) :=
  traverse (fun t => get a (firstn axis idx ++ t :: skipn axis idx)) (seq 0 n).

(** Shape with one axis removed. *)
Definition drop_axis (axis : nat) (sh : list nat) : list nat :=
  firstn axis sh ++ skipn (S axis) sh.

(** [np.max(a, axis)] and [np.min(a, axis)]: reduction by a ufunc that has
    no identity. *)
Definition reduce_axis {A : Type} (f : A -> A -> A) (a : ndarray A) (axis : nat)
  : result (ndarray A) :=
  match nth_error (shape a) axis with
  | None => Raise (AxisError "axis is out of bounds for array")
  | Some n =>
      if n =? 0
      then Raise (ValueError "zero-size array to reduction operation which has no identity")
      else build (drop_axis axis (shape a))
             (fun idx => l <- lane a axis n idx ;; reduce1 f l)
  end.

(** numpy adds a contiguous run of floats pairwise. The unrolled loop of
    [pairwise_sum] (umath, loops_utils.h): eight running sums [r0 .. r7]
    take one element each per block of eight; when fewer than eight elements
    are left the running sums are added up as
    [((r0 + r1) + (r2 + r3)) + ((r4 + r5) + (r6 + r7))] and the elements left
    over are added to that, one by one. *)
Fixpoint sum_unrolled {A : Type} (add : A -> A -> A) (r0 r1 r2 r3 r4 r5 r6 r7 : A)
    (l : list A) : A :=
  match l with
  | a0 :: a1 :: a2 :: a3 :: a4 :: a5 :: a6 :: a7 :: l' =>
      sum_unrolled add (add r0 a0) (add r1 a1) (add r2 a2) (add r3 a3)
        (add r4 a4) (add r5 a5) (add r6 a6) (add r7 a7) l'
  | _ =>
      fold_left add l
        (add (add (add r0 r1) (add r2 r3)) (add (add r4 r5) (add r6 r7)))
  end.

(** A run of at most 128 elements ([PW_BLOCKSIZE]): fewer than eight are
    added in order, starting from zero; otherwise the first eight start the
    running sums of the unrolled loop. *)
Definition sum_block {A : Type} (add : A -> A -> A) (zero : A) (l : list A) : A :=
  match l with
  | a0 :: a1 :: a2 :: a3 :: a4 :: a5 :: a6 :: a7 :: l' =>
      sum_unrolled add a0 a1 a2 a3 a4 a5 a6 a7 l'
  | _ => fold_left add l zero
  end.

(** Where a run of [n > 128] elements is cut in two: at [n / 2] rounded down
    to a multiple of eight. *)
Definition pairwise_cut (n : nat) : nat := n / 2 - (n / 2) mod 8.

(** [pairwise_sum(a, n)]: a longer run is cut in two and the two sums are
    added. The recursion is on [depth], which bounds the number of cuts. *)
Fixpoint pairwise_sum_upto {A : Type} (depth : nat) (add : A -> A -> A) (zero : A)
    (l : list A) : A :=
  match depth with
  | 0 => sum_block add zero l
  | S depth' =>
      if length l <=? 128
      then sum_block add zero l
      else
        let n2 := pairwise_cut (length l) in
        add (pairwise_sum_upto depth' add zero (firstn n2 l))
            (pairwise_sum_upto depth' add zero (skipn n2 l))
  end.

(** Every cut leaves both parts shorter, so [length l] cuts are enough
    (lemma [pairwise_sum_cut] below). *)
Definition pairwise_sum {A : Type} (add : A -> A -> A) (zero : A) (l : list A) : A :=
  pairwise_sum_upto (length l) add zero l.

(** [np.add.reduce] over one contiguous run: the output entry starts at the
    identity and the run's pairwise sum is added to it. (numpy versions
    differ in the sign of the zero they start from; the sum of a run of
    squares does not depend on it.) *)
Definition add_reduce {A : Type} (add : A -> A -> A) (zero : A) (l : list A) : A :=
  add zero (pairwise_sum add zero l).

(** [np.sum(a, axis)] for the last axis of a C-contiguous array: every run
    along the axis is contiguous and is added up by [add_reduce]. *)
Definition sum_axis {A : Type} (add : A -> A -> A) (zero : A) (a : ndarray A) (axis : nat)
  : result (ndarray A) :=
  match nth_error (shape a) axis with
  | None => Raise (AxisError "axis is out of bounds for array")
  | Some n =>
      build (drop_axis axis (shape a))
        (fun idx => l <- lane a axis n idx ;; Ok (add_reduce add zero l))
  end.

(** [np.sum(a, axis=(1, 2))] of a boolean array: for every index of the
    remaining axes, the number of [True] entries over axes 1 and 2. *)
Definition sum_axis_1_2 (a : ndarray bool) : result (ndarray nat) :=
  match shape a with
  | s0 :: s1 :: s2 :: rest =>
      build (s0 :: rest)
        (fun idx =>
           match idx with
           | i :: r =>
               l <- traverse (fun jk => get a (i :: fst jk :: snd jk :: r))
                      (list_prod (seq 0 s1) (seq 0 s2)) ;;
               Ok (length (filter (fun b : bool => b) l))
           | [] => Raise (IndexError "index out of bounds")
           end)
  | _ => Raise (AxisError "axis 2 is out of bounds for array")
  end.

(** Position of [x] in [l] ([length l] when absent). *)
Fixpoint index_of (x : nat) (l : list nat) : nat :=
  match l with
  | [] => 0
  | y :: l' => if x =? y then 0 else S (index_of x l')
  end.

(** [a.transpose(order)]: axis [m] of the result is axis [order[m]] of [a]. *)
Definition transpose {A : Type} (a : ndarray A) (order : list nat) : result (ndarray A) :=
  build (map (fun ax => nth ax (shape a) 0) order)
    (fun idx =>
       get a (map (fun ax => nth (index_of ax order) idx 0) (seq 0 (ndim a)))).

(** [np.moveaxis(a, source, destination)] for one non-negative axis each. *)
Definition moveaxis {A : Type} (a : ndarray A) (source destination : nat)
  : result (ndarray A) :=
  if ndim a <=? source
  then Raise (AxisError "source: axis is out of bounds for array")
  else if ndim a <=? destination
  then Raise (AxisError "destination: axis is out of bounds for array")
  else
    let order := filter (fun n => negb (n =? source)) (seq 0 (ndim a)) in
    transpose a (firstn destination order ++ source :: skipn destination order).

(** [a[start:stop] = v] on a 1-dimensional buffer, for a [start] inside the
    buffer: a negative [stop] counts from the end, and the bounds are clipped
    to the length. *)
Definition slice_stop (n : nat) (stop : Z) : nat :=
  if (stop <? 0)%Z
  then Z.to_nat (Z.max 0 (stop + Z.of_nat n))
  else Nat.min (Z.to_nat stop) n.

Definition set_slice {A : Type} (l : list A) (start : nat) (stop : Z) (v : A) : list A :=
  let e := slice_stop (length l) stop in
  if start <? e
  then firstn start l ++ repeat v (e - start) ++ skipn e l
  else l.

(** [data[mask]] for a 1-dimensional boolean [mask]: the rows of [data]
    (its entries along axis 0) at the [True] positions. *)
Definition bool_index {A : Type} (data : list A) (mask : list bool) : result (list A) :=
  if length data =? length mask
  then Ok (map fst (filter snd (combine data mask)))
  else Raise (IndexError "boolean index did not match indexed array along axis 0").

End np.

(** ** Samples and the recording *)

(** The arithmetic the module uses on numbers: the numpy ufuncs it applies
    to samples, [*] and [int()] on the delay, and the literals [0.98] and
    [1000] as the number type reads them. [int()] can raise. *)
Class Scalar (T : Type) : Type := {
  s_abs : T -> T;
  s_maximum : T -> T -> T;
  s_minimum : T -> T -> T;
  s_subtract : T -> T -> T;
  s_add : T -> T -> T;
  s_multiply : T -> T -> T;
  s_square : T -> T;
  s_greater : T -> T -> bool;
  s_zero : T;
  s_098 : T;
  s_1000 : T;
  s_int : T -> result Z
}.

(** The [file] collaborator: only the three attributes the module reads. *)
Record File (T : Type) : Type := mk_File {
  sampling_rate : T;
  max_volt : T;
  convert : T -> T
}.

Arguments mk_File {T} sampling_rate max_volt convert.
Arguments sampling_rate {T} f.
Arguments max_volt {T} f.
Arguments convert {T} f.

(** Python's [int(x)] on an exact number: truncation toward zero. *)
Definition py_int (x : Q) : Z := Z.quot (Qnum x) (Z.pos (Qden x)).

(** The number a finite binary64 float stands for: sign, mantissa [m] and
    exponent [e] give [+/- m * 2^e]. *)
Definition finite_value (s : bool) (m : positive) (e : Z) : Q :=
  let magnitude :=
    match e with
    | Z0 => Qmake (Z.pos m) 1
    | Z.pos p => Qmake (Z.pos (m * Pos.pow 2 p)) 1
    | Z.neg p => Qmake (Z.pos m) (Pos.pow 2 p)
    end in
  if s then Qopp magnitude else magnitude.

(** The exact value of a float; infinities and NaN have none. *)
Definition float_value (x : float) : option Q :=
  match Prim2SF x with
  | S754_zero _ => Some 0%Q
  | S754_finite s m e => Some (finite_value s m e)
  | S754_infinity _ => None
  | S754_nan => None
  end.

(** Python's [int(x)] on a float: the exact value truncated toward zero;
    infinities and NaN raise. *)
Definition float_int (x : float) : result Z :=
  match Prim2SF x with
  | S754_zero _ => Ok 0%Z
  | S754_finite s m e => Ok (py_int (finite_value s m e))
  | S754_infinity _ => Raise (OverflowError "cannot convert float infinity to integer")
  | S754_nan => Raise (ValueError "cannot convert float NaN to integer")
  end.

(** ** The order of the floats

    What follows describes how the floats are ordered and how a product is
    rounded, for the statements on the delay. *)

Section FloatKeys.

Local Open Scope Z_scope.

(** The bits that fall off a mantissa are kept as a round bit and a sticky
    bit; together they say where the number lies between two mantissas. *)
Definition loc_rank (a : shr_record) : Z :=
  (if shr_r a then 2 else 0) + (if shr_s a then 1 else 0).

(** A shifted mantissa with its two bits stands for a number not above
    another one. *)
Definition shr_le (a b : shr_record) : Prop :=
  0 <= shr_m a /\
  (shr_m a < shr_m b \/ (shr_m a = shr_m b /\ loc_rank a <= loc_rank b)).

(** [k] shifts by one place. *)
Definition shift_n (k : nat) (a : shr_record) : shr_record := Nat.iter k shr_1 a.

(** The exponent a positive number [M * 2^E] is rounded at, the mantissa it
    is given there, and the two put together the way the bits of a float
    order the floats. *)
Definition round_exponent (M E : Z) : Z := fexp prec emax (Zdigits2 M + E).

Definition round_mantissa (M E : Z) : Z :=
  let a := shift_n (Z.to_nat (round_exponent M E - E)) (Build_shr_record M false false) in
  round_nearest_even (shr_m a) (loc_of_shr_record a).

Definition round_key (M E : Z) : Z :=
  (round_exponent M E - emin) * 2 ^ 52 + round_mantissa M E.

(** A float in the form the format keeps it: the exponent in range, the
    mantissa on 53 bits, and normalised unless the exponent is the least. *)
Definition in_format (x : spec_float) : Prop :=
  match x with
  | S754_finite _ m e =>
      emin <= e <= emax - prec /\ Z.pos m < 2 ^ 53 /\ (emin < e -> 2 ^ 52 <= Z.pos m)
  | S754_nan => False
  | _ => True
  end.

(** The place of a float in the order of the floats: exponent and mantissa
    read as one integer, as the bits of a float do. *)
Definition key_infinity : Z := 2047 * 2 ^ 52.

Definition float_key (x : spec_float) : Z :=
  match x with
  | S754_zero _ => 0
  | S754_finite s m e => (if s then -1 else 1) * ((e - emin) * 2 ^ 52 + Z.pos m)
  | S754_infinity s => (if s then -1 else 1) * key_infinity
  | S754_nan => 0
  end.

(** The key of the rounded product of the magnitudes [m * 2^e] and
    [mc * 2^ec]. *)
Definition mul_key (mc : positive) (ec : Z) (m : positive) (e : Z) : Z :=
  Z.min (round_key (Z.pos (m * mc)) (e + ec)) key_infinity.

End FloatKeys.

(** Zero of either sign, a positive finite float, [+inf], or NaN: what a
    float that is not below zero, and a product of two such floats, can be. *)
Definition SF_nonneg (x : spec_float) : Prop :=
  match x with
  | S754_zero _ => True
  | S754_finite s _ _ => s = false
  | S754_infinity s => s = false
  | S754_nan => True
  end.

(** ** The transformers *)

(** [Transformer._apply_window(self, data, bin_size)] *)
Definition _apply_window {A : Type} (data : ndarray A) (bin_size : Z)
  : result (ndarray A) :=
  rows <- np.shape_at data 0 ;;
  cols <- np.shape_at data 1 ;;
  let window_shape := [Z.of_nat rows; Z.of_nat cols; bin_size] in
  v <- np.sliding_window_view data window_shape ;;
  np.reshape v [(-1)%Z; Z.of_nat rows; Z.of_nat cols; bin_size].

Record Variation : Type := mk_Variation { Variation_bin_size : Z }.
Record Amplitude : Type := mk_Amplitude { Amplitude_bin_size : Z }.
Record Energy : Type := mk_Energy { Energy_bin_size : Z }.

Record Shutter (T R : Type) : Type := mk_Shutter {
  Shutter_data : list R;
  Shutter_delay_ms : T
}.

Arguments mk_Shutter {T R} Shutter_data Shutter_delay_ms.
Arguments Shutter_data {T R} s.
Arguments Shutter_delay_ms {T R} s.

(** The loop of [Shutter.__call__]: [for i in range(i0, 0, -1)], run on the
    mask's buffer. The counter stops before index 0. *)
Fixpoint Shutter_loop (delay : Z) (i : nat) (mask : list bool) : list bool :=
  match i with
  | 0 => mask
  | S i' =>
      Shutter_loop delay i'
        (if nth i mask false
         then np.set_slice mask i (Z.of_nat i + delay) true
         else mask)
  end.

Section Transformers.

Context {T : Type} {ST : Scalar T}.

(** The [__call__] methods take [(data, slice, file)]; [slice] is never
    read and is left out, [file] is kept where it is read. The tracing
    [print] at the head of every method is left out too. *)

(** [Variation.__call__] *)
Definition Variation_call (self : Variation) (data : ndarray T) : result (ndarray T) :=
  if ndim data <? 3
  then Ok data
  else
    windows <- _apply_window data (Variation_bin_size self) ;;
    mx <- np.reduce_axis s_maximum (np.map1 s_abs windows) 3 ;;
    mn <- np.reduce_axis s_minimum (np.map1 s_abs windows) 3 ;;
    np.map2 s_subtract mx mn.

(** [Amplitude.__call__] *)
Definition Amplitude_call (self : Amplitude) (data : ndarray T) : result (ndarray T) :=
  if ndim data <? 3
  then Ok data
  else
    windows <- _apply_window data (Amplitude_bin_size self) ;;
    np.reduce_axis s_maximum (np.map1 s_abs windows) 3.

(** [Energy.__call__] *)
Definition Energy_call (self : Energy) (data : ndarray T) : result (ndarray T) :=
  if ndim data <? 3
  then Ok data
  else
    windows <- _apply_window data (Energy_bin_size self) ;;
    np.sum_axis s_add s_zero (np.map1 s_square windows) 3.

(** [Raw.__call__] *)
Definition Raw_call (data : ndarray T) : result (ndarray T) :=
  np.moveaxis data 2 0.

(** What [DetectArtifacts.__call__] returns: its input, or a mask. *)
Inductive detected : Type :=
| Data (a : ndarray T)
| Mask (m : ndarray bool).

(** [DetectArtifacts.__call__] *)
Definition DetectArtifacts_call (data : ndarray T) (file : File T) : result detected :=
  if ndim data <? 3
  then Ok (Data data)
  else
    let up_limit := s_multiply (convert file (max_volt file)) s_098 in
    let out_bounds := np.map1 (fun x => s_greater x up_limit) data in
    counts <- np.sum_axis_1_2 out_bounds ;;
    Ok (Mask (np.map1 (fun c => 80 <? c) counts)).

(** [Shutter.ms_to_idx]: [int(delay_ms * file.sampling_rate * 1000)], the
    product taken from the left. *)
Definition ms_to_idx (file : File T) (delay_ms : T) : result Z :=
  s_int (s_multiply (s_multiply delay_ms (sampling_rate file)) s_1000).

(** [Shutter.__call__]. The mask is mutated in place: the call returns the
    mask as the caller sees it afterwards, next to the outcome. The delay is
    computed after the guard and before the mask is read. *)
Definition Shutter_call {R : Type} (self : Shutter T R) (mask : ndarray bool) (file : File T)
  : ndarray bool * result (list R) :=
  if 1 <? ndim mask
  then (mask, Raise (ValueError "mask must be a 1dim array."))
  else
    match ms_to_idx file (Shutter_delay_ms self) with
    | Raise e => (mask, Raise e)
    | Ok delay =>
        match np.len mask with
        | Raise e => (mask, Raise e)
        | Ok n =>
            let mask' := mk_ndarray (shape mask) (Shutter_loop delay (n - 1) (buf mask)) in
            (mask', np.bool_index (Shutter_data self) (buf mask'))
        end
    end.

End Transformers.

Arguments detected T : clear implicits.

(** ** Two number types *)

(** Exact rationals: what the sums, products and comparisons of the module
    compute on Python's [int] and [fractions.Fraction]. Their [int()]
    truncates and never raises. The literal [0.98] is read as 98/100, the
    number it is written for; Python itself would turn a [Fraction] into a
    float at that product. *)
#[export] Instance Scalar_Q : Scalar Q := {
  s_abs := Qabs;
  s_maximum := fun x y => if Qle_bool x y then y else x;
  s_minimum := fun x y => if Qle_bool y x then y else x;
  s_subtract := Qminus;
  s_add := Qplus;
  s_multiply := Qmult;
  s_square := fun x => Qmult x x;
  s_greater := fun x y => negb (Qle_bool x y);
  s_zero := 0%Q;
  s_098 := (98 # 100)%Q;
  s_1000 := 1000%Q;
  s_int := fun x => Ok (py_int x)
}.

(** IEEE binary64, numpy's [float64] and Python's [float]; [np.maximum] and
    [np.minimum] propagate NaN. The literal [0.98] is written in
    hexadecimal; the integer [1000] meets a float as [1000.0]. *)
#[export] Instance Scalar_float : Scalar float := {
  s_abs := PrimFloat.abs;
  s_maximum := fun x y =>
    if PrimFloat.is_nan x then x else if PrimFloat.is_nan y then y
    else if PrimFloat.ltb x y then y else x;
  s_minimum := fun x y =>
    if PrimFloat.is_nan x then x else if PrimFloat.is_nan y then y
    else if PrimFloat.ltb y x then y else x;
  s_subtract := PrimFloat.sub;
  s_add := PrimFloat.add;
  s_multiply := PrimFloat.mul;
  s_square := fun x => PrimFloat.mul x x;
  s_greater := fun x y => PrimFloat.ltb y x;
  s_zero := 0%float;
  s_098 := 0x1.f5c28f5c28f5cp-1%float;
  s_1000 := 1000%float;
  s_int := float_int
}.

(** ** The quantities the specification speaks of

    These definitions follow the specification's wording, index by index;
    the statements below compare them with what the transformers compute. *)

(** Samples [k .. k + b - 1] of sweep [i], channel [j]. *)
Definition window_samples {A : Type} (data : ndarray A) (i j k b : nat) : result (list A) :=
  traverse (fun t => np.get data [i; j; k + t]) (seq 0 b).

(** All samples of sweep [i], channel by channel. *)
Definition sweep_samples {A : Type} (data : ndarray A) (i channels samples : nat)
  : result (list A) :=
  traverse (fun jk => np.get data [i; fst jk; snd jk])
    (list_prod (seq 0 channels) (seq 0 samples)).

Section Statistics.

Context {T : Type} {ST : Scalar T}.

(** [max(abs(window)) - min(abs(window))] *)
Definition peak_to_peak_abs (window : list T) : result T :=
  mx <- np.reduce1 s_maximum (map s_abs window) ;;
  mn <- np.reduce1 s_minimum (map s_abs window) ;;
  Ok (s_subtract mx mn).

(** [max(abs(window))] *)
Definition max_abs (window : list T) : result T :=
  np.reduce1 s_maximum (map s_abs window).

(** [sum(window ** 2)], the squares added up the way the number type's
    [sum] adds a run. *)
Definition sum_squares (window : list T) : T :=
  np.add_reduce s_add s_zero (map s_square window).

(** Number of samples strictly above a bound. *)
Definition count_above (bound : T) (samples : list T) : nat :=
  length (filter (fun x => s_greater x bound) samples).

End Statistics.

(** ** Sample inputs *)

(** Two sweeps of one channel and four samples. *)
Definition recording_2x1x4 : ndarray Q :=
  mk_ndarray [2; 1; 4] (map inject_Z [1; -2; 3; 4; 5; 6; -7; 8]%Z).

(** Its three windows of two samples. *)
Definition windows_2x1x4 : ndarray Q :=
  mk_ndarray [3; 2; 1; 2] (map inject_Z [1; -2; 5; 6; -2; 3; 6; -7; 3; 4; -7; 8]%Z).

(** A recording without sweeps, a table of two sweeps by two channels, and a
    4-dimensional array. *)
Definition recording_0x1x2 : ndarray Q := mk_ndarray [0; 1; 2] [].

Definition table_2x2 : ndarray Q := mk_ndarray [2; 2] (map inject_Z [1; 2; 3; 4]%Z).

Definition array_1x1x1x1 : ndarray Q := mk_ndarray [1; 1; 1; 1] [inject_Z 5].

(** A recording at 1 sample per second with [max_volt = 10] and the identity
    as conversion, over rationals and over floats. *)
Definition file_10V : File Q := mk_File 1%Q (inject_Z 10) (fun x => x).

Definition file_10V_float : File float := mk_File 1%float 10%float (fun x => x).

(** One sweep of one channel and two samples, as floats. *)
Definition sweep_1x1x2 : ndarray float := mk_ndarray [1; 1; 2] [1%float; 2%float].

(** Two sweeps of 3 channels by 30 samples: the first holds 81 samples of
    9.9 (in hexadecimal below), the second 80; the others are 0. *)
Definition sweeps_81_80 : ndarray float :=
  mk_ndarray [2; 3; 30]
    (repeat 0x1.3cccccccccccdp+3%float 81 ++ repeat 0%float 9 ++
     repeat 0x1.3cccccccccccdp+3%float 80 ++ repeat 0%float 10).

(** Masks over six and three rows, and datasets whose rows are their own
    indices. *)
Definition mask_at_2 : ndarray bool :=
  mk_ndarray [6] [false; false; true; false; false; false].

Definition mask_at_1 : ndarray bool :=
  mk_ndarray [6] [false; true; false; false; false; false].

Definition mask_at_0 : ndarray bool := mk_ndarray [3] [true; false; false].

Definition six_rows : list nat := [0; 1; 2; 3; 4; 5].

Definition three_rows : list nat := [0; 1; 2].

(** Delays in milliseconds as Python reads the literals [0.003], [0.002],
    [0.009], [0.0005], [-0.003] and [-0.0015]: the nearest floats, written in
    hexadecimal. *)
Definition ms_0_003 : float := 0x1.89374bc6a7efap-9%float.

Definition ms_0_002 : float := 0x1.0624dd2f1a9fcp-9%float.

Definition ms_0_009 : float := 0x1.26e978d4fdf3bp-7%float.

Definition ms_0_0005 : float := 0x1.0624dd2f1a9fcp-11%float.

(** The float next below [0.0001], which Python prints as
    [9.999999999999999e-05], and a recording at 10 samples per second. *)
Definition ms_0_0001 : float := 0x1.a36e2eb1c432cp-14%float.

Definition file_10Hz : File float := mk_File 10%float 10%float (fun x => x).

Definition ms_minus_0_003 : float := PrimFloat.opp 0x1.89374bc6a7efap-9%float.

Definition ms_minus_0_0015 : float := PrimFloat.opp 0x1.89374bc6a7efap-10%float.

(** A delay of [2 ** 1023] milliseconds and a recording at 1024 samples per
    second: the product leaves the range of the floats. *)
Definition ms_2_pow_1023 : float := 0x1p1023%float.

Definition file_1024Hz : File float := mk_File 1024%float 10%float (fun x => x).

(** A 4-dimensional array of shape (2, 1, 2, 2). *)
Definition array_2x1x2x2 : ndarray Q :=
  mk_ndarray [2; 1; 2; 2] (map inject_Z [1; 2; 3; 4; 5; 6; 7; 8]%Z).

(** ** The registry of operators *)

(** The character classes of the pattern [([a-z0-9])([A-Z])], and
    [str.lower] on one character. Names are taken to be ASCII, as the class
    names of the module are. *)
Definition is_lower_or_digit (c : ascii) : bool :=
  let n := nat_of_ascii c in
  ((97 <=? n) && (n <=? 122)) || ((48 <=? n) && (n <=? 57)).

Definition is_upper (c : ascii) : bool :=
  let n := nat_of_ascii c in (65 <=? n) && (n <=? 90).

Definition lower_char (c : ascii) : ascii :=
  if is_upper c then ascii_of_nat (nat_of_ascii c + 32) else c.

Definition is_ascii (s : string) : Prop :=
  Forall (fun c => nat_of_ascii c < 128) (list_ascii_of_string s).

(** [s.lower()] *)
Fixpoint lower (s : string) : string :=
  match s with
  | EmptyString => EmptyString
  | String c s' => String (lower_char c) (lower s')
  end.

(** [re.sub("([a-z0-9])([A-Z])", r"\1_\2", s)]: the string is scanned from
    the left; where the two characters at hand match they are written out
    with an underscore between them and the scan goes on after both,
    otherwise one character is copied. *)
Fixpoint re_sub_camel (s : string) : string :=
  match s with
  | EmptyString => EmptyString
  | String c1 t =>
      match t with
      | EmptyString => String c1 EmptyString
      | String c2 r =>
          if is_lower_or_digit c1 && is_upper c2
          then String c1 (String "_" (String c2 (re_sub_camel r)))
          else String c1 (re_sub_camel t)
      end
  end.

(** [operator or re.sub(...).lower()]: [None] and the empty string are
    falsy. *)
Definition operator_name (operator : option string) (cls_name : string) : string :=
  match operator with
  | Some (String c op) => String c op
  | _ => lower (re_sub_camel cls_name)
  end.

(** A Python dict kept in insertion order: assignment to a key that is
    present replaces its value in place. *)
Fixpoint dict_set {V : Type} (k : string) (v : V) (d : list (string * V))
  : list (string * V) :=
  match d with
  | [] => [(k, v)]
  | (k', v') :: d' =>
      if String.eqb k' k then (k', v) :: d' else (k', v') :: dict_set k v d'
  end.

Fixpoint dict_get {V : Type} (k : string) (d : list (string * V)) : option V :=
  match d with
  | [] => None
  | (k', v') :: d' => if String.eqb k' k then Some v' else dict_get k d'
  end.

(** What a module-level name of [bwpy.signal] can be bound to: an imported
    module, the function [_transformer_factory], a list of names, the class
    [Transformer], one of its subclasses, the function
    [_transformer_factory(cls)] made for a subclass, or anything else. *)
Inductive pyobj (Cls : Type) : Type :=
| Module (name : string)
| Function_transformer_factory
| List_of_names (items : list string)
| Class_Transformer
| Class (cls : Cls)
| Factory (cls : Cls)
| Other (repr : string).

Arguments Module {Cls} name.
Arguments Function_transformer_factory {Cls}.
Arguments List_of_names {Cls} items.
Arguments Class_Transformer {Cls}.
Arguments Class {Cls} cls.
Arguments Factory {Cls} cls.
Arguments Other {Cls} repr.

(** The module's namespace, [globals()]. *)
Definition namespace (Cls : Type) : Type := list (string * pyobj Cls).

(** A builtin ([super], [globals]) is what its name means only while the
    module's namespace does not bind the name. *)
Definition is_builtin {Cls : Type} (name : string) (g : namespace Cls) : bool :=
  match dict_get name g with
  | None => true
  | Some _ => false
  end.

(** The name is bound to the module [module]. *)
Definition holds_module {Cls : Type} (name module : string) (g : namespace Cls) : bool :=
  match dict_get name g with
  | Some (Module m) => String.eqb m module
  | _ => false
  end.

(** The name [_transformer_factory] is bound to the function of line 11. *)
Definition holds_transformer_factory {Cls : Type} (g : namespace Cls) : bool :=
  match dict_get "_transformer_factory" g with
  | Some Function_transformer_factory => true
  | _ => false
  end.



Section Registry.

(** The classes, their [__name__], their constructor call and
    the slice's method [_transform] are the module's surroundings. *)
Variables (Cls Slice Args Tr Out : Type).
Variable name_of : Cls -> string.
Variable instantiate : Cls -> Args -> Tr.
Variable _transform : Slice -> Tr -> Out.

(** [_transformer_factory(cls)], as a function of the slice and of the
    constructor's arguments. *)
Definition _transformer_factory (cls : Cls) : Slice -> Args -> Out :=
  fun slice args => _transform slice (instantiate cls args).

(** [Transformer.__init_subclass__(cls, operator=None)], for a class that
    derives from [Transformer] alone and passes no keyword but [operator].
    The method reads [super], [re] (when [operator] is falsy),
    [_transformer_factory] (whose body reads [functools]), [globals] and
    [__all__] from the namespace, in this order, and binds the operator's
    name before it reads [__all__]. The result is the namespace after the
    call. It is [None] when one of these names does not hold the object the
    module's first lines bind it to: what Python does then (an exception,
    as a rule) is decided by the object found, not by this module. *)
Definition __init_subclass__ (cls : Cls) (operator : option string) (g : namespace Cls)
  : option (namespace Cls) :=
  let name := operator_name operator (name_of cls) in
  let re_is_read :=
    match operator with
    | Some (String _ _) => false
    | _ => true
    end in
  if negb (is_builtin "super" g) then None
  else if re_is_read && negb (holds_module "re" "re" g) then None
  else if negb (holds_transformer_factory g) then None
  else if negb (holds_module "functools" "functools" g) then None
  else if negb (is_builtin "globals" g) then None
  else
    let g' := dict_set name (Factory cls) g in
    match dict_get "__all__" g' with
    | Some (List_of_names items) =>
        Some (dict_set "__all__" (List_of_names (items ++ [name])) g')
    | _ => None
    end.


(** A class statement of the module itself,
    [class C(Transformer, operator=...)]: the base is looked up, the class is
    made, which runs [__init_subclass__], and the class is bound to its
    name. *)
Definition class_statement (cls : Cls) (operator : option string) (g : namespace Cls)
  : option (namespace Cls) :=
  match dict_get "Transformer" g with
  | Some Class_Transformer =>
      match __init_subclass__ cls operator g with
      | Some g' => Some (dict_set (name_of cls) (Class cls) g')
      | None => None
      end
  | _ => None
  end.

Fixpoint class_statements (defs : list (Cls * option string)) (g : namespace Cls)
  : option (namespace Cls) :=
  match defs with
  | [] => Some g
  | d :: defs' =>
      match class_statement (fst d) (snd d) g with
      | Some g' => class_statements defs' g'
      | None => None
      end
  end.


End Registry.

(** The six transformers of the module, in the order of their class
    statements; none passes [operator]. *)
Inductive signal_class : Type :=
| cls_Variation | cls_Amplitude | cls_Energy | cls_Raw | cls_DetectArtifacts | cls_Shutter.

Definition signal_class_name (c : signal_class) : string :=
  match c with
  | cls_Variation => "Variation"
  | cls_Amplitude => "Amplitude"
  | cls_Energy => "Energy"
  | cls_Raw => "Raw"
  | cls_DetectArtifacts => "DetectArtifacts"
  | cls_Shutter => "Shutter"
  end.

Definition signal_classes : list (signal_class * option string) :=
  [(cls_Variation, None); (cls_Amplitude, None); (cls_Energy, None);
   (cls_Raw, None); (cls_DetectArtifacts, None); (cls_Shutter, None)].

(** What the module's own statements have bound when its first subclass is
    defined (lines 1 to 38). The names the interpreter puts in every module
    ([__name__] and the like) are left out: no statement below depends on
    them. *)
Definition signal_globals : namespace signal_class :=
  [("re", Module "re");
   ("abc", Module "abc");
   ("functools", Module "functools");
   ("np", Module "numpy");
   ("np_tricks", Module "numpy.lib.stride_tricks");
   ("__all__", List_of_names []);
   ("_transformer_factory", Function_transformer_factory);
   ("Transformer", Class_Transformer)].

(** Removes every underscore. *)
Fixpoint strip_underscores (s : string) : string :=
  match s with
  | EmptyString => EmptyString
  | String c s' =>
      if Ascii.eqb c "_" then strip_underscores s' else String c (strip_underscores s')
  end.

(** No character of the string is an upper-case letter. *)
Fixpoint has_no_upper (s : string) : bool :=
  match s with
  | EmptyString => true
  | String c s' => negb (is_upper c) && has_no_upper s'
  end.

(** * Properties *)

(** ** The error monad *)

Lemma traverse_ok {A B : Type} (f : A -> result B) (l : list A) :
  (forall x, In x l -> exists y, f x = Ok y) ->
  exists ys, traverse f l = Ok ys /\ Forall2 (fun x y => f x = Ok y) l ys.
Proof.
  induction l as [|x l IH]; intros H.
  - exists []. split; [reflexivity | constructor].
  - destruct (H x (or_introl eq_refl)) as [y Hy].
    destruct IH as [ys [Hys HF]]; [intros x' Hx'; apply H; now right |].
    exists (y :: ys). cbn. rewrite Hy. cbn. rewrite Hys. cbn.
    split; [reflexivity | now constructor].
Qed.

Lemma traverse_map {A B : Type} (f : A -> result B) (g : A -> B) (l : list A) :
  (forall x, In x l -> f x = Ok (g x)) -> traverse f l = Ok (map g l).
Proof.
  induction l as [|x l IH]; intros H; cbn.
  - reflexivity.
  - rewrite (H x) by now left. cbn. rewrite IH by (intros; apply H; now right).
    reflexivity.
Qed.

Lemma traverse_ext {A B : Type} (f g : A -> result B) (l : list A) :
  (forall x, In x l -> f x = g x) -> traverse f l = traverse g l.
Proof.
  induction l as [|x l IH]; intros H; cbn.
  - reflexivity.
  - rewrite (H x) by now left. rewrite IH by (intros; apply H; now right).
    reflexivity.
Qed.

Lemma Forall2_nth_error_l {A B : Type} (R : A -> B -> Prop) (l : list A) (ys : list B) :
  Forall2 R l ys ->
  forall o x, nth_error l o = Some x -> exists y, nth_error ys o = Some y /\ R x y.
Proof.
  induction 1 as [|x0 y0 l ys HR HF IH]; intros o x Hx.
  - destruct o; discriminate.
  - destruct o as [|o]; cbn in *.
    + injection Hx as <-. now exists y0.
    + now apply IH.
Qed.

Lemma Forall2_length_eq {A B : Type} (R : A -> B -> Prop) (l : list A) (ys : list B) :
  Forall2 R l ys -> length l = length ys.
Proof. induction 1; cbn; congruence. Qed.

(** ** Row-major indexing *)

Lemma length_flat_map_uniform {X : Type} (f : nat -> list X) (m : nat) :
  (forall i, length (f i) = m) ->
  forall n s, length (flat_map f (seq s n)) = n * m.
Proof.
  intros Hlen. induction n as [|n IH]; intros s; cbn.
  - reflexivity.
  - rewrite length_app, Hlen, IH. reflexivity.
Qed.

Lemma nth_error_flat_map_uniform {X : Type} (f : nat -> list X) (m : nat) :
  (forall i, length (f i) = m) ->
  forall n s i o, i < n -> o < m ->
  nth_error (flat_map f (seq s n)) (i * m + o) = nth_error (f (s + i)) o.
Proof.
  intros Hlen. induction n as [|n IH]; intros s i o Hi Ho; [lia |].
  cbn [seq flat_map]. destruct i as [|i].
  - cbn [Nat.mul Nat.add]. rewrite nth_error_app1 by (rewrite Hlen; lia).
    now rewrite Nat.add_0_r.
  - rewrite nth_error_app2 by (rewrite Hlen; lia). rewrite Hlen.
    replace (S i * m + o - m) with (i * m + o) by lia.
    rewrite IH by lia. do 2 f_equal. lia.
Qed.

Lemma length_indices (sh : list nat) : length (indices sh) = size sh.
Proof.
  induction sh as [|n sh IH]; cbn [indices size fold_right].
  - reflexivity.
  - apply length_flat_map_uniform. intros i. now rewrite length_map.
Qed.

Lemma offset_bounds (sh idx : list nat) :
  in_bounds sh idx -> exists o, offset sh idx = Some o /\ o < size sh.
Proof.
  unfold in_bounds. induction 1 as [|i n idx sh Hi HF IH].
  - exists 0. cbn. split; [reflexivity | lia].
  - destruct IH as [o [Ho Hlt]]. exists (i * size sh + o). cbn [offset].
    apply Nat.ltb_lt in Hi as Hb. rewrite Hb, Ho. cbn [option_map size fold_right].
    split; [reflexivity |]. fold (size sh). nia.
Qed.

Lemma nth_error_indices (sh idx : list nat) :
  in_bounds sh idx ->
  forall o, offset sh idx = Some o -> nth_error (indices sh) o = Some idx.
Proof.
  unfold in_bounds. induction 1 as [|i n idx sh Hi HF IH]; intros o Ho.
  - cbn in Ho. injection Ho as <-. reflexivity.
  - cbn [offset] in Ho. apply Nat.ltb_lt in Hi as Hb. rewrite Hb in Ho.
    destruct (offset_bounds sh idx HF) as [o' [Ho' Hlt]].
    rewrite Ho' in Ho. cbn in Ho. injection Ho as <-.
    cbn [indices].
    rewrite (nth_error_flat_map_uniform _ (size sh)); try assumption.
    + cbn [Nat.add]. rewrite nth_error_map, (IH o' Ho'). reflexivity.
    + intros i'. now rewrite length_map, length_indices.
Qed.

Lemma In_indices (sh idx : list nat) : In idx (indices sh) -> in_bounds sh idx.
Proof.
  unfold in_bounds. revert idx. induction sh as [|n sh IH]; intros idx Hin.
  - cbn in Hin. destruct Hin as [<- | []]. constructor.
  - cbn [indices] in Hin. apply in_flat_map in Hin as [i [Hi Hin]].
    apply in_map_iff in Hin as [idx' [<- Hin]]. apply in_seq in Hi.
    constructor; [lia | now apply IH].
Qed.

Lemma indices_In (sh idx : list nat) : in_bounds sh idx -> In idx (indices sh).
Proof.
  intros H. destruct (offset_bounds sh idx H) as [o [Ho _]].
  eapply nth_error_In, nth_error_indices; eassumption.
Qed.

(** Every buffer position is the offset of the multi-index listed there. *)
Lemma indices_offset (sh : list nat) :
  forall o, o < size sh ->
  exists idx, nth_error (indices sh) o = Some idx /\ offset sh idx = Some o.
Proof.
  induction sh as [|n sh IH]; intros o Ho.
  - cbn in Ho. assert (o = 0) as -> by lia. exists []. now split.
  - cbn [size fold_right] in Ho. fold (size sh) in Ho.
    assert (Hm : size sh <> 0) by nia.
    assert (Hi : o / size sh < n) by (apply Nat.Div0.div_lt_upper_bound; lia).
    assert (Hr : o mod size sh < size sh) by now apply Nat.mod_upper_bound.
    destruct (IH _ Hr) as [idx [Hnth Hoff]].
    exists (o / size sh :: idx).
    assert (Ho' : o = o / size sh * size sh + o mod size sh)
      by (rewrite Nat.mul_comm; apply Nat.div_mod_eq).
    split.
    + rewrite Ho' at 1. cbn [indices].
      rewrite (nth_error_flat_map_uniform _ (size sh)); try assumption.
      * cbn [Nat.add]. rewrite nth_error_map, Hnth. reflexivity.
      * intros i'. now rewrite length_map, length_indices.
    + cbn [offset]. apply Nat.ltb_lt in Hi. rewrite Hi, Hoff. cbn.
      now rewrite <- Ho'.
Qed.

(** ** Arrays *)

Lemma get_in_bounds {A : Type} (a : ndarray A) (idx : list nat) :
  wf a -> in_bounds (shape a) idx -> exists v, np.get a idx = Ok v.
Proof.
  intros Hwf Hb. destruct (offset_bounds _ _ Hb) as [o [Ho Hlt]].
  unfold np.get. rewrite Ho.
  destruct (nth_error (buf a) o) eqn:E; [now eexists |].
  apply nth_error_None in E. unfold wf in Hwf. lia.
Qed.

(** Two well-formed arrays of one shape that agree at every index are equal. *)
Lemma ndarray_ext {A : Type} (a b : ndarray A) :
  wf a -> wf b -> shape a = shape b ->
  (forall idx, in_bounds (shape a) idx -> np.get a idx = np.get b idx) ->
  a = b.
Proof.
  destruct a as [sh ba], b as [sh' bb]. unfold wf. cbn [shape buf].
  intros Ha Hb <- Hget.
  f_equal. apply nth_error_ext. intros o.
  destruct (Nat.lt_ge_cases o (size sh)) as [Hlt | Hge].
  - destruct (indices_offset sh o Hlt) as [idx [Hnth Hoff]].
    assert (Hin : in_bounds sh idx) by (eapply In_indices, nth_error_In; eassumption).
    specialize (Hget idx Hin). unfold np.get in Hget. cbn [shape buf] in Hget.
    rewrite Hoff in Hget.
    destruct (nth_error ba o) eqn:Ea; [| apply nth_error_None in Ea; lia].
    destruct (nth_error bb o) eqn:Eb; [| apply nth_error_None in Eb; lia].
    congruence.
  - transitivity (@None A); [| symmetry]; apply nth_error_None; lia.
Qed.

(** What [np.build] returns when [f] succeeds on the whole shape. *)
Lemma build_spec {A : Type} (sh : list nat) (f : list nat -> result A) :
  (forall idx, in_bounds sh idx -> exists v, f idx = Ok v) ->
  exists a, np.build sh f = Ok a /\ shape a = sh /\ wf a /\
            forall idx, in_bounds sh idx -> np.get a idx = f idx.
Proof.
  intros Hf.
  destruct (traverse_ok f (indices sh)) as [ys [Hys HF]].
  { intros idx Hin. apply Hf. now apply In_indices. }
  exists (mk_ndarray sh ys). unfold np.build. rewrite Hys. cbn.
  split; [reflexivity |]. split; [reflexivity |]. split.
  - unfold wf. cbn [shape buf]. rewrite <- (Forall2_length_eq _ _ _ HF). apply length_indices.
  - intros idx Hb. destruct (offset_bounds _ _ Hb) as [o [Ho Hlt]].
    unfold np.get. cbn [shape buf]. rewrite Ho.
    destruct (Forall2_nth_error_l _ _ _ HF o idx (nth_error_indices _ _ Hb _ Ho))
      as [y [Hy Hfy]].
    now rewrite Hy, Hfy.
Qed.

Ltac invert_bounds :=
  repeat match goal with
  | H : in_bounds _ _ |- _ => unfold in_bounds in H
  | H : Forall2 lt _ (_ :: _) |- _ => inversion H; subst; clear H
  | H : Forall2 lt _ [] |- _ => inversion H; subst; clear H
  end.

Ltac solve_bounds := unfold in_bounds; repeat constructor; lia.

Lemma get_map1 {A B : Type} (g : A -> B) (a : ndarray A) (idx : list nat) :
  np.get (np.map1 g a) idx = (x <- np.get a idx ;; Ok (g x)).
Proof.
  unfold np.get, np.map1. cbn [shape buf].
  destruct (offset (shape a) idx) as [o|]; [| reflexivity].
  rewrite nth_error_map. now destruct (nth_error (buf a) o).
Qed.

Lemma wf_map1 {A B : Type} (g : A -> B) (a : ndarray A) : wf a -> wf (np.map1 g a).
Proof. unfold wf, np.map1. cbn [shape buf]. now rewrite length_map. Qed.

(** Leading axes of extent 1 do not move the elements. *)
Lemma get_unit_axis {A : Type} (sh : list nat) (b : list A) (idx : list nat) :
  np.get (mk_ndarray (1 :: sh) b) (0 :: idx) = np.get (mk_ndarray sh b) idx.
Proof.
  unfold np.get. cbn [shape buf offset Nat.ltb Nat.leb].
  destruct (offset sh idx) as [o|]; reflexivity.
Qed.

(** ** Window extraction *)

Section ApplyWindow.

Context {A : Type}.
Variables (data : ndarray A) (Sw Ch Ns : nat) (b : Z).
Hypothesis Hshape : shape data = [Sw; Ch; Ns].

(** The view [sliding_window_view] builds, before the reshape. *)
Lemma sliding_window_view_3d :
  wf data \/ Sw * Ch * Z.to_nat b = 0 ->
  (0 <= b <= Z.of_nat Ns)%Z ->
  exists v,
    np.sliding_window_view data [Z.of_nat Sw; Z.of_nat Ch; b] = Ok v /\
    shape v = [1; 1; Ns - Z.to_nat b + 1; Sw; Ch; Z.to_nat b] /\
    wf v /\
    forall k i j t, k < Ns - Z.to_nat b + 1 -> i < Sw -> j < Ch -> t < Z.to_nat b ->
      np.get v [0; 0; k; i; j; t] = np.get data [i; j; k + t].
Proof.
  intros Hwf Hb. unfold np.sliding_window_view, ndim. rewrite Hshape.
  cbn [existsb length Nat.eqb negb map combine fst snd orb].
  rewrite !(proj2 (Z.ltb_ge _ _)) by lia. rewrite !Nat2Z.id.
  rewrite !Nat.ltb_irrefl. rewrite (proj2 (Nat.ltb_ge Ns (Z.to_nat b))) by lia.
  cbn [orb app].
  replace (Sw + 1 - Sw) with 1 by lia. replace (Ch + 1 - Ch) with 1 by lia.
  replace (Ns + 1 - Z.to_nat b) with (Ns - Z.to_nat b + 1) by lia.
  match goal with |- context [np.build ?sh ?f] => destruct (build_spec sh f) as [v [Hv [Hsh [Hwfv Hget]]]] end.
  - intros idx Hin. invert_bounds. cbn [firstn skipn combine map fst snd].
    destruct Hwf as [Hwf | Hz];
      [| apply Nat.eq_mul_0 in Hz as [Hz | Hz];
         [apply Nat.eq_mul_0 in Hz as [Hz | Hz] |]; lia].
    apply get_in_bounds; [assumption |]. rewrite Hshape. solve_bounds.
  - exists v. repeat split; try assumption.
    intros k i j t Hk Hi Hj Ht. rewrite Hget by solve_bounds.
    cbn [firstn skipn combine map fst snd Nat.add]. reflexivity.
Qed.

(** [_apply_window] on a non-empty stack of sweeps and channels, with a
    bin size that fits. *)
Lemma apply_window_ok :
  wf data -> 0 < Sw -> 0 < Ch -> (1 <= b <= Z.of_nat Ns)%Z ->
  exists w,
    _apply_window data b = Ok w /\
    shape w = [Ns - Z.to_nat b + 1; Sw; Ch; Z.to_nat b] /\
    wf w /\
    forall k i j t, k < Ns - Z.to_nat b + 1 -> i < Sw -> j < Ch -> t < Z.to_nat b ->
      np.get w [k; i; j; t] = np.get data [i; j; k + t].
Proof.
  intros Hwf HS HC Hb.
  destruct sliding_window_view_3d as [v [Hv [Hsh [Hwfv Hget]]]]; [now left | lia |].
  unfold _apply_window, np.shape_at. rewrite Hshape. cbn [nth_error bind].
  rewrite Hv. cbn [bind]. unfold np.reshape.
  cbn [filter fold_right map Z.ltb Z.compare].
  rewrite !(proj2 (Z.ltb_ge _ _)) by lia. rewrite !Nat2Z.id.
  rewrite Hsh. cbn [size fold_right].
  set (W := Ns - Z.to_nat b + 1). set (K := Sw * (Ch * (Z.to_nat b * 1))).
  assert (HK : K <> 0) by (subst K; nia).
  replace (1 * (1 * (W * K))) with (W * K) by lia.
  rewrite Nat.Div0.mod_mul, Nat.div_mul by assumption.
  apply Nat.eqb_neq in HK as HKb. rewrite HKb. cbn [orb negb Nat.eqb].
  eexists. split; [reflexivity |]. cbn [shape buf]. split; [reflexivity |]. split.
  - unfold wf in *. cbn [shape buf]. rewrite Hwfv, Hsh. cbn [size fold_right]. lia.
  - intros k i j t Hk Hi Hj Ht. rewrite <- Hget by assumption.
    destruct v as [shv bv]. cbn [shape buf] in *. subst shv.
    now rewrite !get_unit_axis.
Qed.

(** An empty extent among sweeps, channels and bin makes the reshape's
    inferred extent undetermined: numpy refuses it. *)
Lemma apply_window_empty :
  (0 <= b <= Z.of_nat Ns)%Z -> Sw * Ch * Z.to_nat b = 0 ->
  _apply_window data b = Raise (ValueError "cannot reshape array").
Proof.
  intros Hb Hz.
  destruct sliding_window_view_3d as [v [Hv [Hsh _]]]; [now right | lia |].
  unfold _apply_window, np.shape_at. rewrite Hshape. cbn [nth_error bind].
  rewrite Hv. cbn [bind]. unfold np.reshape.
  cbn [filter fold_right map Z.ltb Z.compare].
  rewrite !(proj2 (Z.ltb_ge _ _)) by lia. rewrite !Nat2Z.id.
  replace (Sw * (Ch * (Z.to_nat b * 1))) with 0 by lia.
  reflexivity.
Qed.

Lemma apply_window_negative :
  (b < 0)%Z ->
  _apply_window data b = Raise (ValueError "`window_shape` cannot contain negative values").
Proof.
  intros Hb. unfold _apply_window, np.shape_at. rewrite Hshape. cbn [nth_error bind].
  unfold np.sliding_window_view. cbn [existsb].
  rewrite (proj2 (Z.ltb_lt b 0)) by lia. now rewrite !orb_true_r.
Qed.

Lemma apply_window_too_large :
  (Z.of_nat Ns < b)%Z ->
  _apply_window data b =
  Raise (ValueError "window shape cannot be larger than input array shape").
Proof.
  intros Hb. unfold _apply_window, np.shape_at. rewrite Hshape. cbn [nth_error bind].
  unfold np.sliding_window_view, ndim. rewrite Hshape.
  cbn [existsb length Nat.eqb negb map combine fst snd orb].
  rewrite !(proj2 (Z.ltb_ge _ _)) by lia. rewrite !Nat2Z.id.
  rewrite (proj2 (Nat.ltb_lt Ns (Z.to_nat b))) by lia.
  cbn [orb]. now rewrite !orb_true_r.
Qed.

End ApplyWindow.

(** ** Reductions along the bin axis *)

Lemma traverse_bind_map {X A B : Type} (f : X -> result A) (g : A -> B) (l : list X) :
  traverse (fun x => y <- f x ;; Ok (g y)) l = (ys <- traverse f l ;; Ok (map g ys)).
Proof.
  induction l as [|x l IH]; cbn [traverse]; [reflexivity |].
  destruct (f x) as [y|e]; cbn [bind]; [| reflexivity].
  rewrite IH. now destruct (traverse f l).
Qed.

Lemma traverse_length {X A : Type} (f : X -> result A) (l : list X) (ys : list A) :
  traverse f l = Ok ys -> length ys = length l.
Proof.
  revert ys. induction l as [|x l IH]; cbn [traverse]; intros ys H.
  - now injection H as <-.
  - destruct (f x) as [y|e]; cbn [bind] in H; [| discriminate].
    destruct (traverse f l) as [ys'|e]; cbn [bind] in H; [| discriminate].
    injection H as <-. cbn. now rewrite (IH ys').
Qed.

Lemma lane_map1 {A B : Type} (g : A -> B) (a : ndarray A) (axis n : nat) (idx : list nat) :
  np.lane (np.map1 g a) axis n idx = (l <- np.lane a axis n idx ;; Ok (map g l)).
Proof.
  unfold np.lane. rewrite <- traverse_bind_map. apply traverse_ext.
  intros t _. apply get_map1.
Qed.

(** ** Pairwise summation *)

(** Lists eight elements at a time. *)
Lemma list_ind8 {A : Type} (P : list A -> Prop) :
  (forall l, length l < 8 -> P l) ->
  (forall a0 a1 a2 a3 a4 a5 a6 a7 l,
     P l -> P (a0 :: a1 :: a2 :: a3 :: a4 :: a5 :: a6 :: a7 :: l)) ->
  forall l, P l.
Proof.
  intros Hshort Hstep l.
  assert (H : forall n l, length l <= n -> P l).
  { clear l. induction n as [|n IH]; intros l Hl.
    - apply Hshort. lia.
    - destruct l as [|a0 [|a1 [|a2 [|a3 [|a4 [|a5 [|a6 [|a7 l]]]]]]]];
        try (apply Hshort; cbn; lia).
      apply Hstep, IH. cbn [length] in Hl. lia. }
  exact (H (length l) l (Nat.le_refl _)).
Qed.

Lemma sum_unrolled_short {A : Type} (add : A -> A -> A) (r0 r1 r2 r3 r4 r5 r6 r7 : A)
    (l : list A) :
  length l < 8 ->
  np.sum_unrolled add r0 r1 r2 r3 r4 r5 r6 r7 l =
  fold_left add l (add (add (add r0 r1) (add r2 r3)) (add (add r4 r5) (add r6 r7))).
Proof.
  intros Hl.
  destruct l as [|a0 [|a1 [|a2 [|a3 [|a4 [|a5 [|a6 [|a7 l]]]]]]]]; try reflexivity.
  cbn [length] in Hl. lia.
Qed.

(** Fewer than eight elements are added in order. *)
Lemma sum_block_short {A : Type} (add : A -> A -> A) (zero : A) (l : list A) :
  length l < 8 -> np.sum_block add zero l = fold_left add l zero.
Proof.
  intros Hl.
  destruct l as [|a0 [|a1 [|a2 [|a3 [|a4 [|a5 [|a6 [|a7 l]]]]]]]]; try reflexivity.
  cbn [length] in Hl. lia.
Qed.

Lemma pairwise_cut_bounds (n : nat) : 128 < n -> 0 < np.pairwise_cut n < n.
Proof.
  intros Hn. unfold np.pairwise_cut.
  pose proof (Nat.mod_upper_bound (n / 2) 8).
  assert (64 <= n / 2) by (apply Nat.div_le_lower_bound; lia).
  assert (n / 2 < n) by (apply Nat.div_lt; lia).
  lia.
Qed.

(** The depth of the recursion does not matter once it is at least the
    length of the run. *)
Lemma pairwise_sum_upto_depth {A : Type} (add : A -> A -> A) (zero : A)
    (d1 d2 : nat) (l : list A) :
  length l <= d1 -> length l <= d2 ->
  np.pairwise_sum_upto d1 add zero l = np.pairwise_sum_upto d2 add zero l.
Proof.
  revert d2 l. induction d1 as [|d1 IH]; intros d2 l H1 H2.
  - destruct l; [| cbn in H1; lia]. now destruct d2.
  - destruct d2 as [|d2].
    + destruct l; [reflexivity | cbn in H2; lia].
    + cbn [np.pairwise_sum_upto].
      destruct (Nat.leb_spec (length l) 128) as [Hs | Hb]; [reflexivity |].
      pose proof (pairwise_cut_bounds (length l) Hb) as Hc.
      f_equal; apply IH; rewrite ?length_firstn, ?length_skipn; lia.
Qed.

(** A run of at most 128 elements is one block; a longer run is cut in two
    and the sums of the parts are added. *)
Lemma pairwise_sum_block {A : Type} (add : A -> A -> A) (zero : A) (l : list A) :
  length l <= 128 -> np.pairwise_sum add zero l = np.sum_block add zero l.
Proof.
  intros Hl. unfold np.pairwise_sum. destruct (length l) eqn:E; [reflexivity |].
  cbn [np.pairwise_sum_upto]. rewrite E. now rewrite (proj2 (Nat.leb_le _ _) Hl).
Qed.

Lemma pairwise_sum_cut {A : Type} (add : A -> A -> A) (zero : A) (l : list A) :
  128 < length l ->
  np.pairwise_sum add zero l =
  add (np.pairwise_sum add zero (firstn (np.pairwise_cut (length l)) l))
      (np.pairwise_sum add zero (skipn (np.pairwise_cut (length l)) l)).
Proof.
  intros Hl. pose proof (pairwise_cut_bounds (length l) Hl) as Hc.
  unfold np.pairwise_sum at 1. destruct (length l) as [|d] eqn:E; [lia |].
  cbn [np.pairwise_sum_upto]. rewrite E.
  rewrite (proj2 (Nat.leb_gt _ _)) by lia.
  unfold np.pairwise_sum.
  f_equal; apply pairwise_sum_upto_depth; rewrite ?length_firstn, ?length_skipn; lia.
Qed.

Lemma pairwise_sum_short {A : Type} (add : A -> A -> A) (zero : A) (l : list A) :
  length l < 8 -> np.pairwise_sum add zero l = fold_left add l zero.
Proof.
  intros Hl. rewrite pairwise_sum_block by lia. now apply sum_block_short.
Qed.

(** What holds of zero and of every element, and is kept by addition, holds
    of the sum, however the run is grouped. *)
Section SumClosed.

Context {A : Type}.
Variables (add : A -> A -> A) (zero : A) (P : A -> Prop).
Hypothesis P_zero : P zero.
Hypothesis P_add : forall x y, P x -> P y -> P (add x y).

Lemma fold_left_closed (l : list A) (acc : A) :
  P acc -> Forall P l -> P (fold_left add l acc).
Proof.
  revert acc. induction l as [|x l IH]; intros acc Hacc Hl; cbn [fold_left].
  - assumption.
  - inversion Hl; subst. apply IH; auto.
Qed.

Lemma sum_unrolled_closed (l : list A) :
  forall r0 r1 r2 r3 r4 r5 r6 r7,
    P r0 -> P r1 -> P r2 -> P r3 -> P r4 -> P r5 -> P r6 -> P r7 -> Forall P l ->
    P (np.sum_unrolled add r0 r1 r2 r3 r4 r5 r6 r7 l).
Proof.
  induction l as [l Hl | a0 a1 a2 a3 a4 a5 a6 a7 l IH] using list_ind8; intros.
  - rewrite sum_unrolled_short by assumption. apply fold_left_closed; auto 10.
  - cbn [np.sum_unrolled].
    repeat match goal with H : Forall P (_ :: _) |- _ => inversion H; subst; clear H end.
    apply IH; auto.
Qed.

Lemma sum_block_closed (l : list A) : Forall P l -> P (np.sum_block add zero l).
Proof.
  intros Hl. destruct (Nat.lt_ge_cases (length l) 8) as [Hs | Hb].
  - rewrite sum_block_short by assumption. now apply fold_left_closed.
  - destruct l as [|a0 [|a1 [|a2 [|a3 [|a4 [|a5 [|a6 [|a7 l]]]]]]]];
      try (cbn [length] in Hb; lia).
    cbn [np.sum_block].
    repeat match goal with H : Forall P (_ :: _) |- _ => inversion H; subst; clear H end.
    now apply sum_unrolled_closed.
Qed.

Lemma Forall_firstn_skipn (n : nat) (l : list A) :
  Forall P l -> Forall P (firstn n l) /\ Forall P (skipn n l).
Proof.
  revert l. induction n as [|n IH]; intros l Hl.
  - split; [constructor | assumption].
  - destruct l as [|x l]; [split; constructor |].
    inversion Hl as [| y l0 Hx Hl0]; subst. destruct (IH l Hl0) as [Hf Hs].
    split; [now constructor | exact Hs].
Qed.

Lemma pairwise_sum_closed (l : list A) : Forall P l -> P (np.pairwise_sum add zero l).
Proof.
  unfold np.pairwise_sum. generalize (length l) at 1. intros d. revert l.
  induction d as [|d IH]; intros l Hl; cbn [np.pairwise_sum_upto].
  - now apply sum_block_closed.
  - destruct (length l <=? 128); [now apply sum_block_closed |].
    apply P_add; apply IH; now apply Forall_firstn_skipn.
Qed.

Lemma add_reduce_closed (l : list A) : Forall P l -> P (np.add_reduce add zero l).
Proof. intros Hl. apply P_add; [assumption | now apply pairwise_sum_closed]. Qed.

End SumClosed.

(** On exact rationals the grouping does not show: the sum is the sum. *)
Lemma fold_left_Qplus (l : list Q) (acc : Q) :
  (fold_left Qplus l acc == acc + fold_right Qplus 0 l)%Q.
Proof.
  revert acc. induction l as [|x l IH]; intros acc; cbn [fold_left fold_right].
  - ring.
  - rewrite IH. ring.
Qed.

Lemma sum_unrolled_Qplus (l : list Q) :
  forall r0 r1 r2 r3 r4 r5 r6 r7,
    (np.sum_unrolled Qplus r0 r1 r2 r3 r4 r5 r6 r7 l
     == r0 + r1 + r2 + r3 + r4 + r5 + r6 + r7 + fold_right Qplus 0 l)%Q.
Proof.
  induction l as [l Hl | a0 a1 a2 a3 a4 a5 a6 a7 l IH] using list_ind8; intros.
  - rewrite sum_unrolled_short by assumption. rewrite fold_left_Qplus. ring.
  - cbn [np.sum_unrolled fold_right]. rewrite IH. ring.
Qed.

Lemma sum_block_Qplus (l : list Q) :
  (np.sum_block Qplus 0 l == fold_right Qplus 0 l)%Q.
Proof.
  destruct (Nat.lt_ge_cases (length l) 8) as [Hs | Hb].
  - rewrite sum_block_short by assumption. rewrite fold_left_Qplus. ring.
  - destruct l as [|a0 [|a1 [|a2 [|a3 [|a4 [|a5 [|a6 [|a7 l]]]]]]]];
      try (cbn [length] in Hb; lia).
    cbn [np.sum_block fold_right]. rewrite sum_unrolled_Qplus. ring.
Qed.

Lemma fold_right_Qplus_app (l1 l2 : list Q) :
  (fold_right Qplus 0 (l1 ++ l2) == fold_right Qplus 0 l1 + fold_right Qplus 0 l2)%Q.
Proof.
  induction l1 as [|x l1 IH]; cbn [app fold_right]; [ring |]. rewrite IH. ring.
Qed.

Lemma pairwise_sum_Qplus (l : list Q) :
  (np.pairwise_sum Qplus 0 l == fold_right Qplus 0 l)%Q.
Proof.
  unfold np.pairwise_sum. generalize (length l) at 1. intros d. revert l.
  induction d as [|d IH]; intros l; cbn [np.pairwise_sum_upto].
  - apply sum_block_Qplus.
  - destruct (length l <=? 128); [apply sum_block_Qplus |].
    rewrite !IH, <- fold_right_Qplus_app, firstn_skipn. reflexivity.
Qed.

Lemma add_reduce_Qplus (l : list Q) :
  (np.add_reduce Qplus 0 l == fold_right Qplus 0 l)%Q.
Proof. unfold np.add_reduce. rewrite pairwise_sum_Qplus. ring. Qed.

Section LastAxis.

Context {A : Type}.
Variables (a : ndarray A) (W Sw Ch B : nat).
Hypothesis Hshape : shape a = [W; Sw; Ch; B].
Hypothesis Hwf : wf a.

Lemma lane_last (k i j : nat) :
  k < W -> i < Sw -> j < Ch ->
  exists l, np.lane a 3 B [k; i; j] = Ok l /\ length l = B.
Proof.
  intros Hk Hi Hj. unfold np.lane.
  destruct (traverse_ok (fun t => np.get a (firstn 3 [k; i; j] ++ t :: skipn 3 [k; i; j]))
              (seq 0 B)) as [l [Hl HF]].
  - intros t Ht. apply in_seq in Ht. cbn [firstn skipn app].
    apply get_in_bounds; [assumption |]. rewrite Hshape. solve_bounds.
  - exists l. split; [assumption |].
    rewrite (traverse_length _ _ _ Hl). apply length_seq.
Qed.

Lemma reduce_axis_last (f : A -> A -> A) :
  0 < B ->
  exists out,
    np.reduce_axis f a 3 = Ok out /\ shape out = [W; Sw; Ch] /\ wf out /\
    forall k i j, k < W -> i < Sw -> j < Ch ->
      np.get out [k; i; j] = (l <- np.lane a 3 B [k; i; j] ;; np.reduce1 f l).
Proof.
  intros HB. unfold np.reduce_axis, np.drop_axis. rewrite Hshape.
  cbn [nth_error firstn skipn app].
  rewrite (proj2 (Nat.eqb_neq B 0)) by lia.
  match goal with |- context [np.build ?sh ?g] =>
    destruct (build_spec sh g) as [out [Hout [Hsh [Hwfo Hget]]]] end.
  - intros idx Hin. invert_bounds.
    destruct (lane_last x x0 x1) as [l [Hl Hlen]]; try assumption.
    rewrite Hl. cbn [bind]. destruct l as [|y l]; [cbn in Hlen; lia |].
    now eexists.
  - exists out. repeat split; try assumption.
    intros k i j Hk Hi Hj. apply Hget. solve_bounds.
Qed.

Lemma sum_axis_last (add : A -> A -> A) (zero : A) :
  exists out,
    np.sum_axis add zero a 3 = Ok out /\ shape out = [W; Sw; Ch] /\ wf out /\
    forall k i j, k < W -> i < Sw -> j < Ch ->
      np.get out [k; i; j] = (l <- np.lane a 3 B [k; i; j] ;; Ok (np.add_reduce add zero l)).
Proof.
  unfold np.sum_axis, np.drop_axis. rewrite Hshape.
  cbn [nth_error firstn skipn app].
  match goal with |- context [np.build ?sh ?g] =>
    destruct (build_spec sh g) as [out [Hout [Hsh [Hwfo Hget]]]] end.
  - intros idx Hin. invert_bounds.
    destruct (lane_last x x0 x1) as [l [Hl Hlen]]; try assumption.
    rewrite Hl. cbn [bind]. now eexists.
  - exists out. repeat split; try assumption.
    intros k i j Hk Hi Hj. apply Hget. solve_bounds.
Qed.

End LastAxis.

Lemma nth_error_combine {A B : Type} (la : list A) (lb : list B) (o : nat) (x : A) (y : B) :
  nth_error la o = Some x -> nth_error lb o = Some y ->
  nth_error (combine la lb) o = Some (x, y).
Proof.
  revert lb o. induction la as [|a la IH]; intros lb o Ha Hb.
  - destruct o; discriminate.
  - destruct lb as [|b lb]; [destruct o; discriminate |].
    destruct o as [|o]; cbn in *.
    + congruence.
    + now apply IH.
Qed.

(** Element-wise combination of two well-formed arrays of one shape. *)
Lemma map2_spec {A B C : Type} (f : A -> B -> C) (a : ndarray A) (b : ndarray B) :
  shape a = shape b -> wf a -> wf b ->
  exists c,
    np.map2 f a b = Ok c /\ shape c = shape a /\ wf c /\
    forall idx x y, np.get a idx = Ok x -> np.get b idx = Ok y ->
      np.get c idx = Ok (f x y).
Proof.
  intros Hsh Ha Hb. unfold np.map2.
  destruct (list_eq_dec Nat.eq_dec (shape a) (shape b)) as [_ | n]; [| contradiction].
  eexists. split; [reflexivity |]. cbn [shape buf]. split; [reflexivity |]. split.
  - unfold wf in *. cbn [shape buf]. rewrite length_map, length_combine.
    rewrite Ha, Hb, Hsh. apply Nat.min_id.
  - intros idx x y Hx Hy. unfold np.get in *. cbn [shape buf]. rewrite <- Hsh in Hy.
    destruct (offset (shape a) idx) as [o|]; [| discriminate].
    destruct (nth_error (buf a) o) as [x'|] eqn:Ea; [| discriminate].
    destruct (nth_error (buf b) o) as [y'|] eqn:Eb; [| discriminate].
    injection Hx as ->. injection Hy as ->.
    rewrite nth_error_map, (nth_error_combine _ _ _ _ _ Ea Eb). reflexivity.
Qed.

(** ** Windows and their statistics *)

(** The bin-axis lane of window [k] at sweep [i], channel [j] is the run of
    [b] samples that starts at sample [k]. *)
Lemma lane_window_samples {A : Type} (data w : ndarray A) (Sw Ch Ns B : nat) :
  (forall k i j t, k < Ns - B + 1 -> i < Sw -> j < Ch -> t < B ->
     np.get w [k; i; j; t] = np.get data [i; j; k + t]) ->
  forall k i j, k < Ns - B + 1 -> i < Sw -> j < Ch ->
    np.lane w 3 B [k; i; j] = window_samples data i j k B.
Proof.
  intros Hget k i j Hk Hi Hj. unfold np.lane, window_samples.
  apply traverse_ext. intros t Ht. apply in_seq in Ht.
  cbn [firstn skipn app]. apply Hget; lia.
Qed.

(** C2 (amended). For every 3-dimensional array with S >= 1 sweeps, C >= 1
    channels and N samples, and every bin size b with 1 <= b <= N, window
    extraction returns exactly N - b + 1 windows, each of shape (S, C, b),
    and sample t of window k at sweep i, channel j is sample k + t of that
    sweep and channel: windows are ordered by increasing starting sample. *)
Theorem apply_window_windows {A : Type} (data : ndarray A) (Sw Ch Ns : nat) (b : Z) :
  shape data = [Sw; Ch; Ns] -> wf data ->
  1 <= Sw -> 1 <= Ch -> (1 <= b <= Z.of_nat Ns)%Z ->
  exists w,
    _apply_window data b = Ok w /\
    shape w = [Ns - Z.to_nat b + 1; Sw; Ch; Z.to_nat b] /\
    wf w /\
    forall k i j t, k < Ns - Z.to_nat b + 1 -> i < Sw -> j < Ch -> t < Z.to_nat b ->
      exists x, np.get w [k; i; j; t] = Ok x /\ np.get data [i; j; k + t] = Ok x.
Proof.
  intros Hshape Hwf HS HC Hb.
  destruct (apply_window_ok data Sw Ch Ns b Hshape Hwf) as [w [Hw [Hsh [Hwfw Hget]]]];
    try lia.
  exists w. repeat split; try assumption.
  intros k i j t Hk Hi Hj Ht.
  destruct (get_in_bounds data [i; j; k + t] Hwf) as [x Hx].
  - rewrite Hshape. solve_bounds.
  - exists x. split; [| assumption]. now rewrite Hget.
Qed.

Section StatisticTransformers.

Context {T : Type} {ST : Scalar T}.

(** C3 (amended). For every 3-dimensional array with S >= 1 sweeps and
    C >= 1 channels and every bin size b with 1 <= b <= N, with [w] the
    windows the extraction step returns: Variation, Amplitude and Energy
    each return an array of shape (windows, sweeps, channels) whose entry at
    (k, i, j) is the statistic of window k along its bin axis at sweep i,
    channel j: max(abs) - min(abs), max(abs), and the sum of squares. *)
Theorem statistics_reduce_windows
    (data : ndarray T) (Sw Ch Ns : nat) (b : Z) :
  shape data = [Sw; Ch; Ns] -> wf data ->
  1 <= Sw -> 1 <= Ch -> (1 <= b <= Z.of_nat Ns)%Z ->
  exists w var amp en,
    _apply_window data b = Ok w /\
    Variation_call (mk_Variation b) data = Ok var /\
    Amplitude_call (mk_Amplitude b) data = Ok amp /\
    Energy_call (mk_Energy b) data = Ok en /\
    (shape var = [Ns - Z.to_nat b + 1; Sw; Ch] /\ wf var) /\
    (shape amp = [Ns - Z.to_nat b + 1; Sw; Ch] /\ wf amp) /\
    (shape en = [Ns - Z.to_nat b + 1; Sw; Ch] /\ wf en) /\
    forall k i j, k < Ns - Z.to_nat b + 1 -> i < Sw -> j < Ch ->
      exists window,
        np.lane w 3 (Z.to_nat b) [k; i; j] = Ok window /\
        window_samples data i j k (Z.to_nat b) = Ok window /\
        length window = Z.to_nat b /\
        np.get var [k; i; j] = peak_to_peak_abs window /\
        np.get amp [k; i; j] = max_abs window /\
        np.get en [k; i; j] = Ok (sum_squares window).
Proof.
  intros Hshape Hwf HS HC Hb.
  destruct (apply_window_ok data Sw Ch Ns b Hshape Hwf) as [w [Hw [Hsh [Hwfw Hget]]]];
    try lia.
  set (B := Z.to_nat b) in *. set (W := Ns - B + 1) in *.
  assert (HB : 0 < B) by (subst B; lia).
  pose (aw := np.map1 s_abs w). pose (sw := np.map1 s_square w).
  assert (Haw : shape aw = [W; Sw; Ch; B]) by exact Hsh.
  assert (Hsw : shape sw = [W; Sw; Ch; B]) by exact Hsh.
  assert (Hwfa : wf aw) by now apply wf_map1.
  assert (Hwfs : wf sw) by now apply wf_map1.
  destruct (reduce_axis_last aw W Sw Ch B Haw Hwfa s_maximum HB)
    as [mx [Hmx [Hshx [Hwfx Hgx]]]].
  destruct (reduce_axis_last aw W Sw Ch B Haw Hwfa s_minimum HB)
    as [mn [Hmn [Hshn [Hwfn Hgn]]]].
  destruct (sum_axis_last sw W Sw Ch B Hsw Hwfs s_add s_zero)
    as [en [Hen [Hshe [Hwfe Hge]]]].
  destruct (map2_spec s_subtract mx mn) as [var [Hvar [Hshv [Hwfv Hgv]]]];
    try congruence.
  exists w, var, mx, en.
  unfold Variation_call, Amplitude_call, Energy_call, ndim. rewrite Hshape.
  cbn [length Nat.ltb Nat.leb Variation_bin_size Amplitude_bin_size Energy_bin_size].
  rewrite Hw. cbn [bind]. fold aw sw. rewrite Hmx, Hmn, Hen. cbn [bind].
  repeat split; try assumption; try congruence.
  intros k i j Hk Hi Hj.
  destruct (lane_last w W Sw Ch B Hsh Hwfw k i j Hk Hi Hj) as [window [Hl Hlen]].
  exists window. split; [assumption |]. split.
  { rewrite <- Hl. symmetry. now apply (lane_window_samples data w Sw Ch Ns B). }
  split; [assumption |].
  specialize (Hgx k i j Hk Hi Hj). specialize (Hgn k i j Hk Hi Hj).
  specialize (Hge k i j Hk Hi Hj).
  unfold aw in Hgx, Hgn. unfold sw in Hge. rewrite lane_map1, Hl in Hgx, Hgn, Hge.
  cbn [bind] in Hgx, Hgn, Hge.
  destruct window as [|x0 window]; [cbn in Hlen; lia |].
  unfold peak_to_peak_abs, max_abs, sum_squares.
  cbn [np.reduce1 bind] in *.
  repeat split; try assumption.
  now apply Hgv.
Qed.

End StatisticTransformers.

(** ** Moving the sample axis *)

Section MoveAxis.

Context {A : Type}.
Variables (Sw Ch Ns : nat).

Lemma moveaxis_2_0 (data : ndarray A) :
  shape data = [Sw; Ch; Ns] -> wf data ->
  exists out,
    np.moveaxis data 2 0 = Ok out /\ shape out = [Ns; Sw; Ch] /\ wf out /\
    forall i j k, i < Sw -> j < Ch -> k < Ns ->
      np.get out [k; i; j] = np.get data [i; j; k].
Proof.
  intros Hshape Hwf. unfold np.moveaxis, np.transpose, ndim. rewrite Hshape.
  cbn [length Nat.leb seq filter Nat.eqb negb firstn skipn app map nth np.index_of].
  match goal with |- context [np.build ?sh ?g] =>
    destruct (build_spec sh g) as [out [Hout [Hsh [Hwfo Hget]]]] end.
  - intros idx Hin. invert_bounds. cbn [nth].
    apply get_in_bounds; [assumption |]. rewrite Hshape. solve_bounds.
  - exists out. repeat split; try assumption.
    intros i j k Hi Hj Hk. rewrite Hget by solve_bounds. reflexivity.
Qed.

Lemma moveaxis_0_2 (a : ndarray A) :
  shape a = [Ns; Sw; Ch] -> wf a ->
  exists out,
    np.moveaxis a 0 2 = Ok out /\ shape out = [Sw; Ch; Ns] /\ wf out /\
    forall i j k, i < Sw -> j < Ch -> k < Ns ->
      np.get out [i; j; k] = np.get a [k; i; j].
Proof.
  intros Hshape Hwf. unfold np.moveaxis, np.transpose, ndim. rewrite Hshape.
  cbn [length Nat.leb seq filter Nat.eqb negb firstn skipn app map nth np.index_of].
  match goal with |- context [np.build ?sh ?g] =>
    destruct (build_spec sh g) as [out [Hout [Hsh [Hwfo Hget]]]] end.
  - intros idx Hin. invert_bounds. cbn [nth].
    apply get_in_bounds; [assumption |]. rewrite Hshape. solve_bounds.
  - exists out. repeat split; try assumption.
    intros i j k Hi Hj Hk. rewrite Hget by solve_bounds. reflexivity.
Qed.

End MoveAxis.

Section RawTransformer.

Context {T : Type} {ST : Scalar T}.

(** C9. For every 3-dimensional array, Raw returns an array of shape
    (samples, sweeps, channels) whose entry at (k, i, j) is the input's
    entry at (i, j, k), and moving axis 0 back to axis 2 gives the input
    array again. *)
Theorem Raw_relayout_roundtrip (data : ndarray T) (Sw Ch Ns : nat) :
  shape data = [Sw; Ch; Ns] -> wf data ->
  exists out,
    Raw_call data = Ok out /\
    shape out = [Ns; Sw; Ch] /\
    wf out /\
    (forall i j k, i < Sw -> j < Ch -> k < Ns ->
       exists x, np.get out [k; i; j] = Ok x /\ np.get data [i; j; k] = Ok x) /\
    np.moveaxis out 0 2 = Ok data.
Proof.
  intros Hshape Hwf. unfold Raw_call.
  destruct (moveaxis_2_0 Sw Ch Ns data Hshape Hwf) as [out [Hout [Hsh [Hwfo Hget]]]].
  destruct (moveaxis_0_2 Sw Ch Ns out Hsh Hwfo) as [back [Hback [Hshb [Hwfb Hgetb]]]].
  exists out. repeat split; try assumption.
  - intros i j k Hi Hj Hk.
    destruct (get_in_bounds data [i; j; k] Hwf) as [x Hx].
    + rewrite Hshape. solve_bounds.
    + exists x. split; [| assumption]. now rewrite Hget.
  - rewrite Hback. f_equal. apply ndarray_ext; try assumption; [congruence |].
    intros idx Hin. rewrite Hshb in Hin. invert_bounds.
    rewrite Hgetb, Hget by assumption. reflexivity.
Qed.

(** C10. Raw has no passthrough: on every array with fewer than 3
    dimensions the axis move fails with numpy's AxisError and the input is not
    returned, whereas Variation, Amplitude, Energy and DetectArtifacts return
    such an input unchanged. *)
Theorem Raw_fails_below_3d
    (data : ndarray T) (v : Variation) (a : Amplitude) (e : Energy) (file : File T) :
  ndim data < 3 ->
  Raw_call data = Raise (AxisError "source: axis is out of bounds for array") /\
  Raw_call data <> Ok data /\
  Variation_call v data = Ok data /\
  Amplitude_call a data = Ok data /\
  Energy_call e data = Ok data /\
  DetectArtifacts_call data file = Ok (Data data).
Proof.
  intros H.
  assert (E : Raw_call data = Raise (AxisError "source: axis is out of bounds for array")).
  { unfold Raw_call, np.moveaxis.
    now rewrite (proj2 (Nat.leb_le (ndim data) 2)) by lia. }
  split; [exact E |]. split; [rewrite E; discriminate |].
  unfold Variation_call, Amplitude_call, Energy_call, DetectArtifacts_call.
  destruct (Nat.ltb_spec (ndim data) 3) as [_ | Hge]; [| lia].
  repeat split.
Qed.

End RawTransformer.

(** ** Artifact detection *)

Lemma filter_id_map {A : Type} (g : A -> bool) (l : list A) :
  length (filter (fun b : bool => b) (map g l)) = length (filter g l).
Proof.
  induction l as [|x l IH]; cbn; [reflexivity |].
  destruct (g x); cbn; now rewrite IH.
Qed.

Lemma sweep_samples_ok {A : Type} (data : ndarray A) (Sw Ch Ns i : nat) :
  shape data = [Sw; Ch; Ns] -> wf data -> i < Sw ->
  exists samples, sweep_samples data i Ch Ns = Ok samples /\ length samples = Ch * Ns.
Proof.
  intros Hshape Hwf Hi. unfold sweep_samples.
  destruct (traverse_ok (fun jk => np.get data [i; fst jk; snd jk])
              (list_prod (seq 0 Ch) (seq 0 Ns))) as [l [Hl _]].
  - intros [j k] Hin. apply in_prod_iff in Hin as [Hj Hk].
    apply in_seq in Hj. apply in_seq in Hk. cbn [fst snd].
    apply get_in_bounds; [assumption |]. rewrite Hshape. solve_bounds.
  - exists l. split; [assumption |].
    now rewrite (traverse_length _ _ _ Hl), length_prod, !length_seq.
Qed.

Section ArtifactDetector.

Context {T : Type} {ST : Scalar T}.

(** C4. For every 3-dimensional array, DetectArtifacts returns a mask with
    one entry per sweep; the entry of sweep i is True exactly when more
    than 80 of the sweep's samples, counted over all its channels, are
    strictly greater than convert(max_volt) * 0.98. A sweep with exactly 81
    such samples is marked True, one with exactly 80 is marked False. *)
Theorem DetectArtifacts_threshold (data : ndarray T) (file : File T) (Sw Ch Ns : nat) :
  shape data = [Sw; Ch; Ns] -> wf data ->
  exists m,
    DetectArtifacts_call data file = Ok (Mask m) /\
    shape m = [Sw] /\
    wf m /\
    forall i, i < Sw ->
      exists samples,
        sweep_samples data i Ch Ns = Ok samples /\
        length samples = Ch * Ns /\
        let n := count_above (s_multiply (convert file (max_volt file)) s_098) samples in
        np.get m [i] = Ok (80 <? n) /\
        (n = 81 -> np.get m [i] = Ok true) /\
        (n = 80 -> np.get m [i] = Ok false).
Proof.
  intros Hshape Hwf. unfold DetectArtifacts_call, ndim. rewrite Hshape.
  cbn [length Nat.ltb Nat.leb].
  set (up := s_multiply (convert file (max_volt file)) s_098).
  unfold np.sum_axis_1_2. cbn [np.map1 shape]. rewrite Hshape.
  match goal with |- context [np.build ?sh ?g] =>
    assert (Hg : forall i, i < Sw ->
              exists samples, sweep_samples data i Ch Ns = Ok samples /\
                              length samples = Ch * Ns /\
                              g [i] = Ok (count_above up samples));
    [| destruct (build_spec sh g) as [counts [Hc [Hsh [Hwfc Hget]]]] ]
  end.
  - intros i Hi.
    destruct (sweep_samples_ok data Sw Ch Ns i Hshape Hwf Hi) as [samples [Hs Hlen]].
    exists samples. split; [assumption |]. split; [assumption |].
    cbn beta iota.
    rewrite (traverse_ext _
               (fun jk => x <- np.get data [i; fst jk; snd jk] ;;
                          Ok (s_greater x up))).
    + rewrite traverse_bind_map. fold (sweep_samples data i Ch Ns). rewrite Hs.
      cbn [bind]. unfold count_above. now rewrite filter_id_map.
    + intros jk _. apply (get_map1 (fun x => s_greater x up) data).
  - intros idx Hin. invert_bounds.
    destruct (Hg x H2) as [samples [_ [_ Hv]]]. cbn beta iota in Hv.
    eexists. exact Hv.
  - rewrite Hc. cbn [bind].
    exists (np.map1 (fun c => 80 <? c) counts).
    split; [reflexivity |]. split; [exact Hsh |]. split; [now apply wf_map1 |].
    intros i Hi. destruct (Hg i Hi) as [samples [Hs [Hlen Hv]]].
    exists samples. split; [assumption |]. split; [assumption |].
    assert (E : np.get (np.map1 (fun c => 80 <? c) counts) [i]
                = Ok (80 <? count_above up samples)).
    { rewrite get_map1, Hget by solve_bounds. cbn beta iota in Hv |- *.
      now rewrite Hv. }
    cbn zeta. split; [exact E |].
    split; intros Hn; rewrite E, Hn; reflexivity.
Qed.

End ArtifactDetector.

(** ** Passthrough below three dimensions *)

Section Passthrough.

Context {T : Type} {ST : Scalar T}.

(** C6 (amended). For every input array with fewer than 3 dimensions,
    Variation, Amplitude, Energy and DetectArtifacts return the input
    unchanged. *)
Theorem passthrough_below_3d
    (data : ndarray T) (v : Variation) (a : Amplitude) (e : Energy) (file : File T) :
  ndim data < 3 ->
  Variation_call v data = Ok data /\
  Amplitude_call a data = Ok data /\
  Energy_call e data = Ok data /\
  DetectArtifacts_call data file = Ok (Data data).
Proof.
  intros H. apply Nat.ltb_lt in H.
  unfold Variation_call, Amplitude_call, Energy_call, DetectArtifacts_call.
  rewrite H. repeat split.
Qed.

End Passthrough.

(** ** The shutter *)

Lemma slice_stop_le (n : nat) (stop : Z) : np.slice_stop n stop <= n.
Proof.
  unfold np.slice_stop. destruct (Z.ltb_spec stop 0); lia.
Qed.

Lemma slice_stop_nonneg (n i : nat) (d : Z) :
  (0 <= d)%Z -> np.slice_stop n (Z.of_nat i + d) = Nat.min (i + Z.to_nat d) n.
Proof.
  intros Hd. unfold np.slice_stop. destruct (Z.ltb_spec (Z.of_nat i + d) 0); lia.
Qed.

Lemma length_set_slice {A : Type} (l : list A) (start : nat) (stop : Z) (v : A) :
  length (np.set_slice l start stop v) = length l.
Proof.
  unfold np.set_slice. pose proof (slice_stop_le (length l) stop) as He.
  destruct (Nat.ltb_spec start (np.slice_stop (length l) stop)); [| reflexivity].
  rewrite !length_app, length_firstn, repeat_length, length_skipn. lia.
Qed.

Lemma nth_set_slice {A : Type} (l : list A) (start : nat) (stop : Z) (v d : A) (j : nat) :
  j < length l ->
  nth j (np.set_slice l start stop v) d =
  if (start <=? j) && (j <? np.slice_stop (length l) stop) then v else nth j l d.
Proof.
  intros Hj. unfold np.set_slice.
  pose proof (slice_stop_le (length l) stop) as He.
  set (e := np.slice_stop (length l) stop) in *.
  destruct (Nat.ltb_spec start e) as [Hse | Hes].
  - destruct (Nat.leb_spec start j) as [Hsj | Hjs]; cbn [andb].
    + rewrite app_nth2 by (rewrite length_firstn; lia).
      rewrite length_firstn, Nat.min_l by lia.
      destruct (Nat.ltb_spec j e) as [Hje | Hej].
      * rewrite app_nth1 by (rewrite repeat_length; lia). apply nth_repeat_lt. lia.
      * rewrite app_nth2 by (rewrite repeat_length; lia).
        rewrite repeat_length, nth_skipn. f_equal. lia.
    + rewrite app_nth1 by (rewrite length_firstn; lia). rewrite nth_firstn.
      now rewrite (proj2 (Nat.ltb_lt j start)) by lia.
  - destruct (Nat.leb_spec start j); destruct (Nat.ltb_spec j e); cbn [andb];
      try reflexivity; lia.
Qed.

(** The loop leaves the length alone, and flags [j] exactly when [j] was
    flagged or lies in the slice written from a flagged index between 1 and
    the loop's starting index. *)
Lemma Shutter_loop_spec (delay : Z) (i : nat) (mask : list bool) :
  i < length mask \/ i = 0 ->
  length (Shutter_loop delay i mask) = length mask /\
  forall j, j < length mask ->
    (nth j (Shutter_loop delay i mask) false = true <->
     nth j mask false = true \/
     exists i', 1 <= i' <= i /\ nth i' mask false = true /\
                i' <= j < np.slice_stop (length mask) (Z.of_nat i' + delay)).
Proof.
  revert mask. induction i as [|i IH]; intros mask Hi.
  - cbn [Shutter_loop]. split; [reflexivity |]. intros j Hj. split.
    + now left.
    + intros [H | [i' [Hi' _]]]; [assumption | lia].
  - cbn [Shutter_loop].
    set (mask' := if nth (S i) mask false
                  then np.set_slice mask (S i) (Z.of_nat (S i) + delay) true
                  else mask).
    assert (Hlen : length mask' = length mask).
    { subst mask'. destruct (nth (S i) mask false); [apply length_set_slice | reflexivity]. }
    assert (Hnth : forall j, j < length mask ->
              nth j mask' false =
              nth j mask false ||
              (nth (S i) mask false && (S i <=? j) &&
               (j <? np.slice_stop (length mask) (Z.of_nat (S i) + delay)))).
    { intros j Hj. subst mask'. destruct (nth (S i) mask false); cbn [andb].
      - rewrite nth_set_slice by assumption.
        destruct ((S i <=? j) && (j <? _)); [now rewrite orb_true_r | now rewrite orb_false_r].
      - now rewrite orb_false_r. }
    destruct (IH mask') as [IHlen IHnth]; [lia |].
    split; [congruence |].
    intros j Hj. rewrite IHnth by lia. rewrite Hlen, Hnth by assumption.
    rewrite orb_true_iff, !andb_true_iff, Nat.leb_le, Nat.ltb_lt.
    split.
    + intros [[H | [[H1 H2] H3]] | [i' [Hi' [Hf Hr]]]].
      * now left.
      * right. exists (S i). repeat split; try assumption; lia.
      * right. exists i'. rewrite Hnth in Hf by lia.
        replace (S i <=? i') with false in Hf by (symmetry; apply Nat.leb_gt; lia).
        rewrite andb_false_r, orb_false_r in Hf. cbn [andb] in Hf.
        repeat split; try assumption; lia.
    + intros [H | [i' [Hi' [Hf Hr]]]].
      * now left; left.
      * destruct (Nat.eq_dec i' (S i)) as [-> | Hne].
        -- left; right. repeat split; try assumption; lia.
        -- right. exists i'. rewrite Hnth by lia. rewrite Hf. cbn [orb].
           repeat split; try assumption; lia.
Qed.

(** Boolean indexing picks the rows at the flagged positions, in order. *)
Lemma filter_seq_shift (f : nat -> bool) (s n : nat) :
  filter f (seq (S s) n) = map S (filter (fun j => f (S j)) (seq s n)).
Proof.
  revert s. induction n as [|n IH]; intros s; cbn [seq filter map]; [reflexivity |].
  rewrite IH. now destruct (f (S s)).
Qed.

Lemma bool_index_rows {R : Type} (data : list R) (mask : list bool) :
  length data = length mask ->
  map Some (map fst (filter snd (combine data mask))) =
  map (nth_error data) (filter (fun j => nth j mask false) (seq 0 (length mask))).
Proof.
  revert mask. induction data as [|x data IH]; intros [|b mask] Hlen;
    try discriminate; [reflexivity |].
  cbn [length seq combine]. cbn [filter snd nth].
  injection Hlen as Hlen. specialize (IH mask Hlen).
  rewrite filter_seq_shift. rewrite map_map in IH.
  destruct b; cbn [map fst nth_error]; rewrite !map_map; cbn [nth_error];
    now rewrite IH.
Qed.

Section ShutterTransformer.

Context {T : Type} {ST : Scalar T} {R : Type}.

(** On a 1-dimensional mask with one entry per row of the dataset, and with
    [d] the delay the call computes, the call returns: the mutated mask is
    the loop's result and the outcome the rows it flags. *)
Lemma Shutter_call_1d (self : Shutter T R) (mask : ndarray bool) (file : File T)
    (n : nat) (d : Z) :
  shape mask = [n] -> wf mask -> length (Shutter_data self) = n ->
  ms_to_idx file (Shutter_delay_ms self) = Ok d ->
  let expanded := Shutter_loop d (n - 1) (buf mask) in
  length expanded = n /\
  Shutter_call self mask file =
  (mk_ndarray [n] expanded,
   Ok (map fst (filter snd (combine (Shutter_data self) expanded)))).
Proof.
  intros Hshape Hwf Hdata Hd expanded.
  assert (Hn : length (buf mask) = n).
  { unfold wf in Hwf. rewrite Hwf, Hshape. cbn. lia. }
  assert (Hlen : length expanded = n).
  { subst expanded. rewrite <- Hn at 2. apply Shutter_loop_spec. lia. }
  split; [assumption |].
  unfold Shutter_call, ndim, np.len. rewrite Hshape, Hd. cbn [length Nat.ltb Nat.leb].
  fold expanded. unfold np.bool_index. cbn [buf].
  now rewrite Hdata, Hlen, Nat.eqb_refl.
Qed.

(** When the delay cannot be computed the call raises what [int()] raises,
    and the mask is not touched. *)
Lemma Shutter_call_no_delay (self : Shutter T R) (mask : ndarray bool) (file : File T)
    (e : exn) :
  ndim mask <= 1 -> ms_to_idx file (Shutter_delay_ms self) = Raise e ->
  Shutter_call self mask file = (mask, Raise e).
Proof.
  intros Hdim He. unfold Shutter_call.
  rewrite (proj2 (Nat.ltb_ge 1 (ndim mask))) by lia. now rewrite He.
Qed.

(** C1 (amended). For every 1-dimensional boolean mask whose entry 0 is
    not flagged, and every computed delay d >= 0, the expanded mask flags
    index j exactly when j was flagged or some flagged index i has
    i <= j < i + d (entries i up to, not including, i + d, bounded by the
    length); the call returns the rows of the dataset at the flagged
    indices of the expanded mask, in their original order. *)
Theorem Shutter_expand_select
    (self : Shutter T R) (mask : ndarray bool) (file : File T) (n : nat) (d : Z) :
  shape mask = [n] -> wf mask -> length (Shutter_data self) = n ->
  ms_to_idx file (Shutter_delay_ms self) = Ok d -> (0 <= d)%Z ->
  nth 0 (buf mask) false = false ->
  exists expanded rows,
    Shutter_call self mask file = (mk_ndarray [n] expanded, Ok rows) /\
    length expanded = n /\
    (forall j, j < n ->
       (nth j expanded false = true <->
        nth j (buf mask) false = true \/
        exists i, nth i (buf mask) false = true /\ i <= j < i + Z.to_nat d)) /\
    map Some rows =
    map (nth_error (Shutter_data self))
      (filter (fun j => nth j expanded false) (seq 0 n)).
Proof.
  intros Hshape Hwf Hdata Hms Hd H0.
  destruct (Shutter_call_1d self mask file n d Hshape Hwf Hdata Hms) as [Hlen Hcall].
  set (expanded := Shutter_loop d (n - 1) (buf mask)) in *.
  assert (Hn : length (buf mask) = n).
  { unfold wf in Hwf. rewrite Hwf, Hshape. cbn. lia. }
  exists expanded, (map fst (filter snd (combine (Shutter_data self) expanded))).
  split; [assumption |]. split; [assumption |]. split.
  - intros j Hj.
    destruct (Shutter_loop_spec d (n - 1) (buf mask)) as [_ Hspec]; [lia |].
    fold expanded in Hspec. rewrite Hspec by lia. rewrite Hn.
    split.
    + intros [H | [i [Hi [Hf Hr]]]]; [now left | right; exists i].
      rewrite slice_stop_nonneg in Hr by assumption.
      split; [assumption | lia].
    + intros [H | [i [Hf Hr]]]; [now left | right; exists i].
      assert (i <> 0) by (intros ->; congruence).
      rewrite slice_stop_nonneg by assumption.
      repeat split; try assumption; lia.
  - replace (seq 0 n) with (seq 0 (length expanded)) by now rewrite Hlen.
    apply bool_index_rows. congruence.
Qed.

(** The guard of [Shutter.__call__] fires on every mask of more than one
    dimension, and, when the delay is computed, on no other. *)
Lemma Shutter_guard (self : Shutter T R) (mask : ndarray bool) (file : File T) :
  (1 < ndim mask ->
   Shutter_call self mask file = (mask, Raise (ValueError "mask must be a 1dim array."))) /\
  (forall d, ms_to_idx file (Shutter_delay_ms self) = Ok d ->
     (snd (Shutter_call self mask file) = Raise (ValueError "mask must be a 1dim array.")
      <-> 1 < ndim mask)).
Proof.
  unfold Shutter_call. destruct (Nat.ltb_spec 1 (ndim mask)) as [H | H]; cbn [snd].
  - split; [reflexivity |]. now split.
  - split; [lia |]. intros d ->. split; [| lia]. unfold np.len.
    destruct (shape mask); cbn [snd]; [discriminate |].
    unfold np.bool_index. now destruct (_ =? _).
Qed.

(** C7. A mask of no dimension is not 1-dimensional, yet the guard lets it
    through: the delay is computed, and the call then fails at [len(mask)]
    with a TypeError, not with the guard's ValueError (if [int()] raises on
    the delay, the call fails with that before it reaches [len(mask)]). *)
Theorem Shutter_0dim_mask (self : Shutter T R) (flag : bool) (file : File T) :
  ndim (mk_ndarray [] [flag]) = 0 /\
  Shutter_call self (mk_ndarray [] [flag]) file =
  (mk_ndarray [] [flag],
   match ms_to_idx file (Shutter_delay_ms self) with
   | Ok _ => Raise (TypeError "len() of unsized object")
   | Raise e => Raise e
   end).
Proof.
  split; [reflexivity |]. unfold Shutter_call. cbn [ndim shape length Nat.ltb Nat.leb].
  now destruct (ms_to_idx file (Shutter_delay_ms self)).
Qed.

(** C8 (amended). A bin size outside [1, samples] makes window extraction,
    and with it each statistic transformer, fail with the array library's
    ValueError before any window is returned. A negative [delay_ms] is not
    rejected: whenever the delay is computed, whatever its sign, the shutter
    returns a selection on a 1-dimensional mask that has one entry per row
    of the dataset; the call only fails on the delay when [int()] does, and
    then with what [int()] raises, the mask untouched. *)
Theorem invalid_parameters
    (data : ndarray T) (Sw Ch Ns : nat) (b : Z)
    (self : Shutter T R) (mask : ndarray bool) (file : File T) (n : nat) :
  (shape data = [Sw; Ch; Ns] -> (b < 1 \/ Z.of_nat Ns < b)%Z ->
   exists msg,
     _apply_window data b = Raise (ValueError msg) /\
     Variation_call (mk_Variation b) data = Raise (ValueError msg) /\
     Amplitude_call (mk_Amplitude b) data = Raise (ValueError msg) /\
     Energy_call (mk_Energy b) data = Raise (ValueError msg)) /\
  (shape mask = [n] -> wf mask -> length (Shutter_data self) = n ->
   (forall d, ms_to_idx file (Shutter_delay_ms self) = Ok d ->
      exists rows, snd (Shutter_call self mask file) = Ok rows) /\
   (forall e, ms_to_idx file (Shutter_delay_ms self) = Raise e ->
      Shutter_call self mask file = (mask, Raise e))).
Proof.
  split.
  - intros Hshape Hb.
    assert (Hw : exists msg, _apply_window data b = Raise (ValueError msg)).
    { destruct (Z.ltb_spec b 0) as [Hneg | Hnn].
      - eexists. now apply (apply_window_negative data Sw Ch Ns).
      - destruct (Z.ltb_spec (Z.of_nat Ns) b) as [Hbig | Hfit].
        + eexists. now apply (apply_window_too_large data Sw Ch Ns).
        + eexists. apply (apply_window_empty data Sw Ch Ns); try assumption; [lia |].
          replace b with 0%Z by lia. cbn. lia. }
    destruct Hw as [msg Hw]. exists msg. split; [assumption |].
    unfold Variation_call, Amplitude_call, Energy_call, ndim. rewrite Hshape.
    cbn [length Nat.ltb Nat.leb Variation_bin_size Amplitude_bin_size Energy_bin_size].
    rewrite Hw. repeat split.
  - intros Hshape Hwf Hdata. split.
    + intros d Hd.
      destruct (Shutter_call_1d self mask file n d Hshape Hwf Hdata Hd) as [_ Hcall].
      rewrite Hcall. now eexists.
    + intros e He. apply Shutter_call_no_delay; [| assumption].
      unfold ndim. rewrite Hshape. cbn. lia.
Qed.

End ShutterTransformer.

(** ** The delay on floats *)

Lemma leb_0_nonneg (x : float) : (0 <=? x)%float = true -> SF_nonneg (Prim2SF x).
Proof.
  rewrite leb_spec. change (Prim2SF 0) with (S754_zero false).
  destruct (Prim2SF x) as [s | [] | | [] m e]; cbn; try reflexivity; discriminate.
Qed.

Lemma binary_round_aux_sign (s : bool) (m e : Z) (l : location) :
  match binary_round_aux prec emax s m e l with
  | S754_zero s' => s' = s
  | S754_finite s' _ _ => s' = s
  | S754_infinity s' => s' = s
  | S754_nan => True
  end.
Proof.
  unfold binary_round_aux.
  destruct (shr_fexp prec emax m e l) as [mrs' e'].
  destruct (shr_fexp prec emax _ e' loc_Exact) as [mrs'' e''].
  destruct (shr_m mrs''); [reflexivity | | exact I].
  now destruct (e'' <=? emax - prec)%Z.
Qed.

Lemma SFmul_nonneg (x y : spec_float) :
  SF_nonneg x -> SF_nonneg y -> SF_nonneg (SF64mul x y).
Proof.
  destruct x as [sx | sx | | sx mx ex], y as [sy | sy | | sy my ey]; cbn [SF_nonneg];
    intros Hx Hy; subst; cbn; try exact I; try reflexivity.
  pose proof (binary_round_aux_sign false (Z.pos (mx * my)) (ex + ey) loc_Exact) as H.
  unfold SF64mul, SFmul. cbn [xorb].
  now destruct (binary_round_aux prec emax false (Z.pos (mx * my)) (ex + ey) loc_Exact).
Qed.

Lemma mul_nonneg (x y : float) :
  SF_nonneg (Prim2SF x) -> SF_nonneg (Prim2SF y) -> SF_nonneg (Prim2SF (x * y)%float).
Proof. rewrite mul_spec. apply SFmul_nonneg. Qed.

Lemma finite_value_positive (m : positive) (e : Z) : (0 < finite_value false m e)%Q.
Proof. unfold finite_value. destruct e; reflexivity. Qed.

Lemma float_value_nonneg (x : float) (q : Q) :
  SF_nonneg (Prim2SF x) -> float_value x = Some q -> (0 <= q)%Q.
Proof.
  unfold float_value. destruct (Prim2SF x) as [s | s | | s m e]; cbn [SF_nonneg];
    intros Hs Hq; try discriminate; injection Hq as <-.
  - apply Qle_refl.
  - subst s. apply Qlt_le_weak, finite_value_positive.
Qed.

(** [int()] on a float truncates its exact value; a float without a value
    makes it raise. *)
Lemma float_int_value (x : float) (q : Q) :
  float_value x = Some q -> float_int x = Ok (py_int q).
Proof.
  unfold float_value, float_int. destruct (Prim2SF x); intros H; try discriminate;
    now injection H as <-.
Qed.

Lemma float_int_no_value (x : float) :
  float_value x = None ->
  float_int x = Raise (OverflowError "cannot convert float infinity to integer") \/
  float_int x = Raise (ValueError "cannot convert float NaN to integer").
Proof.
  unfold float_value, float_int. destruct (Prim2SF x); intros H; try discriminate;
    [now left | now right].
Qed.

Lemma py_int_nonneg (x : Q) : (0 <= x)%Q -> py_int x = Qfloor x.
Proof.
  intros Hx. destruct x as [num den]. unfold Qle in Hx. cbn in Hx.
  unfold py_int. cbn [Qnum Qden Qfloor]. apply Z.quot_div_nonneg; lia.
Qed.

(** C5 (amended). For non-negative [delay_ms] and [sampling_rate] whose
    product, computed in floating point as (delay_ms * sampling_rate) * 1000,
    is finite, the delay in index units is the floor of that computed
    product. *)
Theorem ms_to_idx_floor (file : File float) (delay_ms : float) (q : Q) :
  (0 <=? delay_ms)%float = true -> (0 <=? sampling_rate file)%float = true ->
  float_value (delay_ms * sampling_rate file * 1000)%float = Some q ->
  (0 <= q)%Q /\ ms_to_idx file delay_ms = Ok (Qfloor q).
Proof.
  intros Hd Hs Hq.
  assert (H0 : (0 <= q)%Q).
  { apply (float_value_nonneg _ _ (mul_nonneg _ _
             (mul_nonneg _ _ (leb_0_nonneg _ Hd) (leb_0_nonneg _ Hs))
             (leb_0_nonneg 1000 eq_refl)) Hq). }
  split; [exact H0 |].
  unfold ms_to_idx. cbn [s_int s_multiply s_1000 Scalar_float].
  now rewrite (float_int_value _ _ Hq), py_int_nonneg.
Qed.

(** * The order of the floats and the rounding of a product *)

Lemma py_int_opp (x : Q) : py_int (- x) = (- py_int x)%Z.
Proof.
  destruct x as [num den]. unfold py_int. cbn [Qopp Qnum Qden].
  apply Z.quot_opp_l. discriminate.
Qed.

Section FloatRounding.

Local Open Scope Z_scope.

(** ** Rounding, step by step *)



Lemma shr_1_nonneg (a : shr_record) :
  0 <= shr_m a ->
  shr_1 a = Build_shr_record (Z.div2 (shr_m a)) (Z.odd (shr_m a)) (shr_r a || shr_s a).
Proof.
  destruct a as [m r s]. cbn [shr_m shr_r shr_s]. intros Hm.
  destruct m as [|[p|p|]|p]; try reflexivity. lia.
Qed.

Lemma shr_1_le (a b : shr_record) : shr_le a b -> shr_le (shr_1 a) (shr_1 b).
Proof.
  intros [Ha Hab].
  assert (Hb : 0 <= shr_m b) by lia.
  rewrite (shr_1_nonneg a Ha), (shr_1_nonneg b Hb). unfold shr_le, loc_rank.
  cbn [shr_m shr_r shr_s].
  pose proof (Z.div2_odd (shr_m a)) as Ea. pose proof (Z.div2_odd (shr_m b)) as Eb.
  unfold loc_rank in Hab.
  destruct (Z.odd (shr_m a)), (Z.odd (shr_m b)), (shr_r a), (shr_s a), (shr_r b), (shr_s b);
    cbn [Z.b2z orb] in *; lia.
Qed.


Lemma iter_pos_nat {A : Type} (f : A -> A) (p : positive) (x : A) :
  iter_pos f p x = Nat.iter (Pos.to_nat p) f x.
Proof.
  revert x. induction p as [p IH | p IH |]; intros x; cbn [iter_pos].
  - rewrite !IH, Pos2Nat.inj_xI. cbn [Nat.iter].
    rewrite <- Nat.iter_succ_r, <- Nat.iter_add. f_equal. lia.
  - rewrite !IH, Pos2Nat.inj_xO, <- Nat.iter_add. f_equal. lia.
  - reflexivity.
Qed.

Lemma shr_shift_n (a : shr_record) (e n : Z) :
  0 <= n -> shr a e n = (shift_n (Z.to_nat n) a, e + n).
Proof.
  intros Hn. unfold shr, shift_n. destruct n as [|p|p]; [| | lia].
  - cbn. now rewrite Z.add_0_r.
  - now rewrite iter_pos_nat.
Qed.

Lemma shift_n_le (k : nat) (a b : shr_record) :
  shr_le a b -> shr_le (shift_n k a) (shift_n k b).
Proof.
  intros H. induction k as [|k IH]; [exact H |].
  change (shr_le (shr_1 (shift_n k a)) (shr_1 (shift_n k b))).
  now apply shr_1_le.
Qed.

Lemma shift_n_m (k : nat) (a : shr_record) :
  0 <= shr_m a -> shr_m (shift_n k a) = shr_m a / 2 ^ Z.of_nat k.
Proof.
  intros Ha. induction k as [|k IH].
  - cbn. now rewrite Z.div_1_r.
  - change (shift_n (S k) a) with (shr_1 (shift_n k a)).
    assert (0 <= shr_m (shift_n k a)).
    { rewrite IH. apply Z.div_pos; [assumption |]. apply Z.pow_pos_nonneg; lia. }
    rewrite shr_1_nonneg by assumption. cbn [shr_m].
    rewrite IH, Z.div2_div, Z.div_div by (try apply Z.pow_pos_nonneg; lia).
    f_equal. rewrite Nat2Z.inj_succ, Z.pow_succ_r by lia. lia.
Qed.

Lemma shift_n_add (k j : nat) (a : shr_record) :
  shift_n (k + j) a = shift_n k (shift_n j a).
Proof. apply Nat.iter_add. Qed.

(** A mantissa with [j] zeros added comes back after [j] shifts. *)
Lemma shift_n_pow2 (j : nat) (m : Z) :
  0 <= m ->
  shift_n j (Build_shr_record (m * 2 ^ Z.of_nat j) false false)
  = Build_shr_record m false false.
Proof.
  intros Hm. induction j as [|j IH].
  - cbn. now rewrite Z.mul_1_r.
  - unfold shift_n. rewrite Nat.iter_succ_r. fold (shift_n j).
    rewrite Nat2Z.inj_succ, Z.pow_succ_r by lia.
    replace (m * (2 * 2 ^ Z.of_nat j)) with (2 * (m * 2 ^ Z.of_nat j)) by lia.
    set (x := m * 2 ^ Z.of_nat j) in *.
    assert (Hx : 0 <= x).
    { apply Z.mul_nonneg_nonneg; [assumption |]. apply Z.pow_nonneg. lia. }
    rewrite shr_1_nonneg by (cbn [shr_m]; lia). cbn [shr_m shr_r shr_s orb].
    replace (Z.div2 (2 * x)) with x by (rewrite Z.div2_div, Z.mul_comm, Z.div_mul; lia).
    replace (Z.odd (2 * x)) with false
      by (rewrite Z.odd_mul; reflexivity).
    exact IH.
Qed.

(** Rounding to nearest, ties to even, keeps the order. *)
Lemma round_nearest_even_le (a b : shr_record) :
  shr_le a b ->
  round_nearest_even (shr_m a) (loc_of_shr_record a)
  <= round_nearest_even (shr_m b) (loc_of_shr_record b).
Proof.
  intros [Ha Hab]. destruct a as [m r s], b as [m' r' s']. unfold loc_rank in Hab.
  cbn [shr_m shr_r shr_s] in *.
  destruct r, s, r', s'; cbn [loc_of_shr_record round_nearest_even];
    try (destruct (Z.even m) eqn:E); try (destruct (Z.even m') eqn:E'); try lia.
  all: destruct Hab as [Hlt | [-> Hr]]; try lia; congruence.
Qed.

Lemma round_nearest_even_bounds (a : shr_record) :
  shr_m a <= round_nearest_even (shr_m a) (loc_of_shr_record a) <= shr_m a + 1.
Proof.
  destruct a as [m [] []]; cbn [shr_m loc_of_shr_record round_nearest_even];
    try destruct (Z.even m); lia.
Qed.

(** ** The rounded product *)

Lemma digits2_pos_log2 (p : positive) : Z.pos (digits2_pos p) = Z.log2 (Z.pos p) + 1.
Proof.
  assert (H : forall q, Z.pos (digits2_pos q) = Z.pos (Pos.size q)).
  { induction q as [q IH | q IH |]; cbn [digits2_pos Pos.size]; lia. }
  destruct p as [p | p |]; cbn [digits2_pos Z.log2]; rewrite ?Pos2Z.inj_succ, ?H; lia.
Qed.

Lemma Zdigits2_bounds (M : Z) :
  0 < M -> 0 < Zdigits2 M /\ 2 ^ (Zdigits2 M - 1) <= M < 2 ^ Zdigits2 M.
Proof.
  intros HM. destruct M as [|p|p]; try lia. cbn [Zdigits2].
  rewrite digits2_pos_log2. pose proof (Z.log2_nonneg (Z.pos p)).
  pose proof (Z.log2_spec (Z.pos p) HM) as Hs.
  replace (Z.log2 (Z.pos p) + 1 - 1) with (Z.log2 (Z.pos p)) by lia.
  replace (Z.log2 (Z.pos p) + 1) with (Z.succ (Z.log2 (Z.pos p))) by lia.
  split; [lia | exact Hs].
Qed.

Lemma Zdigits2_le (M M' : Z) : 0 < M <= M' -> Zdigits2 M <= Zdigits2 M'.
Proof.
  intros H. destruct M as [|p|p], M' as [|p'|p']; try lia. cbn [Zdigits2].
  rewrite !digits2_pos_log2. pose proof (Z.log2_le_mono (Z.pos p) (Z.pos p')). lia.
Qed.

Lemma Zdigits2_mul_pow2 (M : Z) (j : nat) :
  0 < M -> Zdigits2 (M * 2 ^ Z.of_nat j) = Zdigits2 M + Z.of_nat j.
Proof.
  intros HM.
  assert (Hp : 0 < M * 2 ^ Z.of_nat j).
  { apply Z.mul_pos_pos; [assumption |]. apply Z.pow_pos_nonneg; lia. }
  destruct M as [|p|p]; try lia.
  destruct (Z.pos p * 2 ^ Z.of_nat j) as [|q|q] eqn:E; try lia. cbn [Zdigits2].
  rewrite !digits2_pos_log2, <- E, <- Z.shiftl_mul_pow2 by lia.
  rewrite Z.log2_shiftl by lia. lia.
Qed.




Lemma round_exponent_bounds (M E : Z) :
  emin <= round_exponent M E /\ Zdigits2 M + E - prec <= round_exponent M E /\
  (emin < round_exponent M E -> round_exponent M E = Zdigits2 M + E - prec).
Proof. unfold round_exponent, fexp. lia. Qed.

Lemma round_mantissa_bounds (M E : Z) :
  0 < M -> E <= round_exponent M E ->
  0 <= round_mantissa M E <= 2 ^ 53 /\
  (emin < round_exponent M E -> 2 ^ 52 <= round_mantissa M E).
Proof.
  intros HM Hn.
  destruct (round_exponent_bounds M E) as [H1 [H2 H3]].
  destruct (Zdigits2_bounds M HM) as [Hd0 [Hdl Hdu]].
  set (e1 := round_exponent M E) in *. set (d := Zdigits2 M) in *.
  unfold round_mantissa. fold e1.
  set (a := shift_n (Z.to_nat (e1 - E)) (Build_shr_record M false false)).
  pose proof (round_nearest_even_bounds a) as Hr.
  assert (Hm : shr_m a = M / 2 ^ (e1 - E)).
  { unfold a. rewrite shift_n_m by (cbn; lia). cbn [shr_m]. now rewrite Z2Nat.id by lia. }
  assert (Hpow : 0 < 2 ^ (e1 - E)) by (apply Z.pow_pos_nonneg; lia).
  assert (Hlo : 0 <= shr_m a) by (rewrite Hm; apply Z.div_pos; lia).
  assert (Hhi : shr_m a < 2 ^ 53).
  { rewrite Hm. apply Z.div_lt_upper_bound; [assumption |].
    rewrite <- Z.pow_add_r by lia.
    eapply Z.lt_le_trans; [exact Hdu |]. apply Z.pow_le_mono_r; unfold prec in *; lia. }
  split; [lia |]. intros Hnorm. specialize (H3 Hnorm).
  assert (2 ^ 52 <= shr_m a); [| lia].
  rewrite Hm. apply Z.div_le_lower_bound; [assumption |].
  rewrite <- Z.pow_add_r by lia.
  replace (e1 - E + 52) with (d - 1) by (unfold prec in *; lia). exact Hdl.
Qed.




Lemma shr_nonpos (a : shr_record) (e n : Z) : n <= 0 -> shr a e n = (a, e).
Proof. intros Hn. destruct n; [reflexivity | lia | reflexivity]. Qed.

(** What the multiplication's rounding returns for [+/- M * 2^E]. *)
Lemma binary_round_aux_key (s : bool) (M : positive) (E : Z) :
  E <= round_exponent (Z.pos M) E ->
  in_format (binary_round_aux prec emax s (Z.pos M) E loc_Exact) /\
  float_key (binary_round_aux prec emax s (Z.pos M) E loc_Exact)
  = (if s then -1 else 1) * Z.min (round_key (Z.pos M) E) key_infinity.
Proof.
  intros Hn.
  destruct (round_exponent_bounds (Z.pos M) E) as [H1 [H2 H3]].
  destruct (round_mantissa_bounds (Z.pos M) E) as [Hm Hnorm]; [lia | assumption |].
  unfold round_key, key_infinity.
  unfold binary_round_aux, shr_fexp. fold (round_exponent (Z.pos M) E).
  cbn [shr_record_of_loc].
  rewrite shr_shift_n by lia.
  replace (E + (round_exponent (Z.pos M) E - E)) with (round_exponent (Z.pos M) E) by lia.
  fold (round_mantissa (Z.pos M) E).
  set (e1 := round_exponent (Z.pos M) E) in *. set (m2 := round_mantissa (Z.pos M) E) in *.
  unfold in_format, float_key, fexp, key_infinity.
  destruct (Z.eq_dec m2 0) as [Hz | Hnz].
  - rewrite Hz. cbn [Zdigits2]. rewrite shr_nonpos by (unfold emin, prec, emax in *; lia).
    cbn [shr_m]. split; [exact I |]. destruct s; unfold emin, prec, emax in *; lia.
  - destruct (Z.eq_dec m2 (2 ^ 53)) as [Hc | Hnc].
    + rewrite Hc. change (Zdigits2 (2 ^ 53)) with 54.
      replace (Z.max (54 + e1 - prec) emin - e1) with 1
        by (unfold emin, prec, emax in *; lia).
      assert (Hs : shr_1 (Build_shr_record (2 ^ 53) false false)
                   = Build_shr_record (2 ^ 52) false false) by reflexivity.
      cbn [shr iter_pos]. rewrite Hs. cbn [shr_m].
      change (2 ^ 52) with (Z.pos (2 ^ 52)) at 1 2 3.
      cbv iota.
      destruct (Z.leb_spec (e1 + 1) (emax - prec)) as [Hfit | Hover].
      * split; [unfold emin, prec, emax in *; cbn; lia |].
        destruct s; unfold emin, prec, emax in *; lia.
      * split; [exact I |]. destruct s; unfold emin, prec, emax in *; lia.
    + destruct m2 as [|p|p] eqn:Ep; try lia.
      destruct (Zdigits2_bounds (Z.pos p)) as [Hd0 [Hdl Hdu]]; [lia |].
      assert (Hd : Zdigits2 (Z.pos p) <= 53).
      { assert (Zdigits2 (Z.pos p) - 1 < 53); [| lia].
        apply (Z.pow_lt_mono_r_iff 2); lia. }
      rewrite shr_nonpos by (unfold emin, prec, emax in *; lia).
      cbn [shr_m].
      destruct (Z.leb_spec e1 (emax - prec)) as [Hfit | Hover].
      * split; [unfold emin, prec, emax in *; lia |].
        destruct s; unfold emin, prec, emax in *; lia.
      * split; [exact I |]. destruct s; unfold emin, prec, emax in *; lia.
Qed.

Lemma round_exponent_le (M M' E : Z) :
  0 < M <= M' -> round_exponent M E <= round_exponent M' E.
Proof.
  intros H. pose proof (Zdigits2_le M M' H). unfold round_exponent, fexp. lia.
Qed.

(** The rounded product grows with the number rounded. *)
Lemma round_key_le (M M' E : Z) :
  0 < M <= M' -> E <= round_exponent M E -> round_key M E <= round_key M' E.
Proof.
  intros HM Hn. pose proof (round_exponent_le M M' E HM) as He.
  destruct (round_mantissa_bounds M E) as [Hm _]; [lia | assumption |].
  destruct (round_mantissa_bounds M' E) as [Hm' Hnorm']; [lia | lia |].
  destruct (round_exponent_bounds M E) as [H1 _].
  unfold round_key.
  destruct (Z.eq_dec (round_exponent M E) (round_exponent M' E)) as [Heq | Hne].
  - rewrite <- Heq. apply Z.add_le_mono_l.
    unfold round_mantissa. rewrite <- Heq.
    apply round_nearest_even_le, shift_n_le.
    unfold shr_le, loc_rank. cbn [shr_m shr_r shr_s]. lia.
  - assert (Hlt : round_exponent M E < round_exponent M' E) by lia.
    specialize (Hnorm' ltac:(lia)). lia.
Qed.

(** The rounded product does not change when the mantissa takes [j] zeros
    from the exponent. *)
Lemma round_key_scale (M E : Z) (j : nat) :
  0 < M -> E <= round_exponent M E ->
  round_key (M * 2 ^ Z.of_nat j) (E - Z.of_nat j) = round_key M E.
Proof.
  intros HM Hn.
  assert (He : round_exponent (M * 2 ^ Z.of_nat j) (E - Z.of_nat j) = round_exponent M E).
  { unfold round_exponent. rewrite Zdigits2_mul_pow2 by assumption. f_equal. lia. }
  unfold round_key, round_mantissa. rewrite He.
  replace (Z.to_nat (round_exponent M E - (E - Z.of_nat j)))
    with (Z.to_nat (round_exponent M E - E) + j)%nat by lia.
  now rewrite shift_n_add, shift_n_pow2 by lia.
Qed.

(** ** The order of the floats *)

Lemma valid_in_format (x : spec_float) :
  valid_binary x = true -> x <> S754_nan -> in_format x.
Proof.
  destruct x as [s | s | | s m e]; cbn [SpecFloat.valid_binary in_format]; try easy.
  intros Hb _. unfold bounded, canonical_mantissa in Hb.
  apply andb_true_iff in Hb as [Hc He]. apply Z.eqb_eq in Hc. apply Z.leb_le in He.
  destruct (Zdigits2_bounds (Z.pos m)) as [Hd0 [Hdl Hdu]]; [lia |].
  cbn [Zdigits2] in *. set (d := Z.pos (digits2_pos m)) in *.
  unfold fexp in Hc.
  assert (Hd : d <= 53) by (unfold emin, prec, emax in *; lia).
  split; [unfold emin, prec, emax in *; lia |]. split.
  - eapply Z.lt_le_trans; [exact Hdu |]. apply Z.pow_le_mono_r; lia.
  - intros Hnorm. assert (d = 53) by (unfold emin, prec, emax in *; lia).
    replace 52 with (d - 1) by lia. exact Hdl.
Qed.

Lemma Prim2SF_in_format (x : float) : Prim2SF x <> S754_nan -> in_format (Prim2SF x).
Proof. apply valid_in_format, Prim2SF_valid. Qed.


Lemma key_lt_exponent (m m' : positive) (e e' : Z) :
  in_format (S754_finite false m e) -> in_format (S754_finite false m' e') ->
  e < e' -> (e - emin) * 2 ^ 52 + Z.pos m < (e' - emin) * 2 ^ 52 + Z.pos m'.
Proof.
  cbn [in_format]. unfold emin, prec, emax.
  change (2 ^ 52) with 4503599627370496. change (2 ^ 53) with 9007199254740992.
  intros [He [Hm Hn]] [He' [Hm' Hn']] Hlt. specialize (Hn' ltac:(lia)). lia.
Qed.

Lemma finite_key_bounds (s : bool) (m : positive) (e : Z) :
  in_format (S754_finite s m e) ->
  0 < (e - emin) * 2 ^ 52 + Z.pos m < key_infinity.
Proof.
  cbn [in_format]. unfold emin, prec, emax, key_infinity.
  change (2 ^ 52) with 4503599627370496. change (2 ^ 53) with 9007199254740992.
  intros [He [Hm Hn]]. lia.
Qed.

Lemma SFcompare_finite (m m' : positive) (e e' : Z) :
  in_format (S754_finite false m e) -> in_format (S754_finite false m' e') ->
  SFcompare (S754_finite false m e) (S754_finite false m' e')
  = Some (Z.compare ((e - emin) * 2 ^ 52 + Z.pos m) ((e' - emin) * 2 ^ 52 + Z.pos m')).
Proof.
  intros H H'. cbn [SFcompare]. f_equal.
  change (Pos.compare_cont Eq m m') with (Z.compare (Z.pos m) (Z.pos m')).
  destruct (Z.compare_spec e e') as [-> | Hlt | Hgt].
  - symmetry. destruct (Z.compare_spec (Z.pos m) (Z.pos m')) as [E | E | E].
    + apply Z.compare_eq_iff. lia.
    + apply Z.compare_lt_iff. lia.
    + apply Z.compare_gt_iff. lia.
  - symmetry. apply Z.compare_lt_iff. now apply key_lt_exponent.
  - symmetry. apply Z.compare_gt_iff. now apply key_lt_exponent.
Qed.

Lemma SFcompare_finite_neg (m m' : positive) (e e' : Z) :
  SFcompare (S754_finite true m e) (S754_finite true m' e')
  = SFcompare (S754_finite false m' e') (S754_finite false m e).
Proof.
  cbn [SFcompare]. f_equal.
  rewrite (Z.compare_antisym e e'). 
  change (Pos.compare_cont Eq m m') with (Pos.compare m m').
  change (Pos.compare_cont Eq m' m) with (Pos.compare m' m).
  rewrite (Pos.compare_antisym m m').
  destruct (e ?= e'); cbn [CompOpp]; reflexivity.
Qed.

(** On floats in format, [<=] is the order of the keys. *)
Lemma SFleb_key (x y : spec_float) :
  in_format x -> in_format y ->
  (SFleb x y = true <-> float_key x <= float_key y).
Proof.
  intros Hx Hy. unfold SFleb.
  destruct x as [sx | sx | | sx mx ex]; [| | contradiction |];
    (destruct y as [sy | sy | | sy my ey]; [| | contradiction |]);
    try pose proof (finite_key_bounds sx mx ex Hx) as Hkx;
    try pose proof (finite_key_bounds sy my ey Hy) as Hky;
    cbn [float_key];
    try set (kx := (ex - emin) * 2 ^ 52 + Z.pos mx) in *;
    try set (ky := (ey - emin) * 2 ^ 52 + Z.pos my) in *.
  9: {
    destruct sx, sy.
    + rewrite SFcompare_finite_neg, (SFcompare_finite my mx ey ex Hy Hx).
      fold kx ky. destruct (Z.compare_spec ky kx); split; try (discriminate || reflexivity); lia.
    + cbn [SFcompare]. split; [lia | reflexivity].
    + cbn [SFcompare]. split; [discriminate | lia].
    + rewrite (SFcompare_finite mx my ex ey Hx Hy).
      fold kx ky. destruct (Z.compare_spec kx ky); split; try (discriminate || reflexivity); lia. }
  all: cbn [SFcompare]; unfold key_infinity in *;
    repeat match goal with s : bool |- _ => destruct s end;
    split; try (discriminate || reflexivity); lia.
Qed.

(** ** Multiplication by a positive float *)


Lemma Zdigits2_ge_53 (M : Z) : 2 ^ 52 <= M -> 53 <= Zdigits2 M.
Proof.
  intros HM. destruct (Zdigits2_bounds M) as [Hd0 [_ Hdu]]; [lia |].
  assert (52 < Zdigits2 M); [| lia].
  apply (Z.pow_lt_mono_r_iff 2); lia.
Qed.

Lemma mul_exponent_ok (sm sc : bool) (m mc : positive) (e ec : Z) :
  in_format (S754_finite sm m e) -> in_format (S754_finite sc mc ec) ->
  e + ec <= round_exponent (Z.pos (m * mc)) (e + ec).
Proof.
  cbn [in_format]. intros [He [Hm Hn]] [Hec [Hmc Hnc]].
  destruct (round_exponent_bounds (Z.pos (m * mc)) (e + ec)) as [H1 [H2 _]].
  destruct (Z_lt_le_dec emin e) as [Hnorm | Hsub].
  - specialize (Hn Hnorm).
    pose proof (Zdigits2_ge_53 (Z.pos (m * mc))) as Hd.
    rewrite Pos2Z.inj_mul in *. unfold prec in *.
    assert (2 ^ 52 <= Z.pos m * Z.pos mc) by nia. lia.
  - destruct (Z_lt_le_dec emin ec) as [Hnormc | Hsubc].
    + specialize (Hnc Hnormc).
      pose proof (Zdigits2_ge_53 (Z.pos (m * mc))) as Hd.
      rewrite Pos2Z.inj_mul in *. unfold prec in *.
      assert (2 ^ 52 <= Z.pos m * Z.pos mc) by nia. lia.
    + unfold emin, prec, emax in *. lia.
Qed.

Lemma mul_key_bounds (sm sc : bool) (m mc : positive) (e ec : Z) :
  in_format (S754_finite sm m e) -> in_format (S754_finite sc mc ec) ->
  0 <= mul_key mc ec m e <= key_infinity.
Proof.
  intros Hx Hc. pose proof (mul_exponent_ok sm sc m mc e ec Hx Hc) as Hn.
  destruct (round_mantissa_bounds (Z.pos (m * mc)) (e + ec)) as [Hm _]; [lia | assumption |].
  destruct (round_exponent_bounds (Z.pos (m * mc)) (e + ec)) as [H1 _].
  unfold mul_key, round_key, key_infinity. unfold emin, prec, emax in *. lia.
Qed.

(** A larger magnitude gives a larger product. *)
Lemma mul_key_le (s s' sc : bool) (m m' mc : positive) (e e' ec : Z) :
  in_format (S754_finite s m e) -> in_format (S754_finite s' m' e') ->
  in_format (S754_finite sc mc ec) ->
  (e - emin) * 2 ^ 52 + Z.pos m <= (e' - emin) * 2 ^ 52 + Z.pos m' ->
  mul_key mc ec m e <= mul_key mc ec m' e'.
Proof.
  intros Hx Hy Hc Hk.
  assert (Hee : e <= e').
  { destruct (Z_lt_le_dec e' e) as [Hlt |]; [| assumption].
    pose proof (key_lt_exponent m' m e' e Hy Hx Hlt). lia. }
  pose proof (mul_exponent_ok s sc m mc e ec Hx Hc) as Hn.
  pose proof (mul_exponent_ok s' sc m' mc e' ec Hy Hc) as Hn'.
  set (j := Z.to_nat (e' - e)).
  assert (Hj : Z.of_nat j = e' - e) by (unfold j; lia).
  assert (Hval : Z.pos m <= Z.pos m' * 2 ^ Z.of_nat j).
  { destruct (Z.eq_dec e e') as [-> | Hne].
    - replace (Z.of_nat j) with 0 by lia. lia.
    - cbn [in_format] in Hx, Hy. destruct Hx as [He [Hm _]]. destruct Hy as [_ [_ Hn2]].
      specialize (Hn2 ltac:(lia)).
      assert (2 ^ 1 <= 2 ^ Z.of_nat j) by (apply Z.pow_le_mono_r; lia).
      change (2 ^ 1) with 2 in *. change (2 ^ 53) with 9007199254740992 in *.
      change (2 ^ 52) with 4503599627370496 in *. nia. }
  unfold mul_key. apply Z.min_le_compat_r.
  rewrite <- (round_key_scale (Z.pos (m' * mc)) (e' + ec) j) by (lia || assumption).
  replace (e' + ec - Z.of_nat j) with (e + ec) by lia.
  apply round_key_le; [| assumption].
  rewrite !Pos2Z.inj_mul. split; [lia |].
  assert (0 < 2 ^ Z.of_nat j) by (apply Z.pow_pos_nonneg; lia). nia.
Qed.

(** The product of a float in format and a positive finite float. *)
Lemma SFmul_key (x : spec_float) (mc : positive) (ec : Z) :
  in_format x -> in_format (S754_finite false mc ec) ->
  in_format (SF64mul x (S754_finite false mc ec)) /\
  float_key (SF64mul x (S754_finite false mc ec))
  = match x with
    | S754_finite s m e => (if s then -1 else 1) * mul_key mc ec m e
    | _ => float_key x
    end.
Proof.
  intros Hx Hc. destruct x as [s | s | | s m e]; [| | contradiction |].
  - cbn. now split.
  - cbn. rewrite xorb_false_r. now split.
  - unfold SF64mul, SFmul. rewrite xorb_false_r.
    apply binary_round_aux_key. now apply (mul_exponent_ok s false).
Qed.

Lemma SFmul_mono (x y : spec_float) (mc : positive) (ec : Z) :
  in_format x -> in_format y -> in_format (S754_finite false mc ec) ->
  float_key x <= float_key y ->
  float_key (SF64mul x (S754_finite false mc ec))
  <= float_key (SF64mul y (S754_finite false mc ec)).
Proof.
  intros Hx Hy Hc Hk.
  rewrite (proj2 (SFmul_key x mc ec Hx Hc)), (proj2 (SFmul_key y mc ec Hy Hc)).
  destruct x as [sx | sx | | sx mx ex]; [| | contradiction |];
    (destruct y as [sy | sy | | sy my ey]; [| | contradiction |]);
    try pose proof (finite_key_bounds sx mx ex Hx) as Hkx;
    try pose proof (finite_key_bounds sy my ey Hy) as Hky;
    try pose proof (mul_key_bounds sx false mx mc ex ec Hx Hc) as Hmx;
    try pose proof (mul_key_bounds sy false my mc ey ec Hy Hc) as Hmy;
    try pose proof (mul_key_le sx sy false mx my mc ex ey ec Hx Hy Hc) as Hxy;
    try pose proof (mul_key_le sy sx false my mx mc ey ex ec Hy Hx Hc) as Hyx;
    cbn [float_key] in *;
    try set (kx := (ex - emin) * 2 ^ 52 + Z.pos mx) in *;
    try set (ky := (ey - emin) * 2 ^ 52 + Z.pos my) in *;
    try set (px := mul_key mc ec mx ex) in *;
    try set (py := mul_key mc ec my ey) in *;
    unfold key_infinity in *;
    repeat match goal with s : bool |- _ => destruct s end; lia.
Qed.

(** Multiplying two floats by the same positive finite float keeps their
    order. *)
Lemma mul_leb_mono (a b c : float) (mc : positive) (ec : Z) :
  Prim2SF c = S754_finite false mc ec ->
  (a <=? b)%float = true -> (a * c <=? b * c)%float = true.
Proof.
  intros Ec Hab. rewrite leb_spec in *. rewrite !mul_spec, Ec.
  assert (Ha : Prim2SF a <> S754_nan).
  { intros E. rewrite E in Hab. discriminate. }
  assert (Hb : Prim2SF b <> S754_nan).
  { intros E. rewrite E in Hab. now destruct (Prim2SF a). }
  pose proof (Prim2SF_in_format a Ha) as Fa. pose proof (Prim2SF_in_format b Hb) as Fb.
  assert (Fc : in_format (S754_finite false mc ec)).
  { rewrite <- Ec. apply Prim2SF_in_format. rewrite Ec. discriminate. }
  apply SFleb_key; try (now apply SFmul_key).
  apply SFmul_mono; try assumption. now apply SFleb_key.
Qed.

(** ** Truncation of floats *)

Lemma py_int_finite_value (s : bool) (m : positive) (e : Z) :
  py_int (finite_value s m e) = (if s then -1 else 1) * Z.shiftl (Z.pos m) e.
Proof.
  assert (H : py_int (finite_value false m e) = Z.shiftl (Z.pos m) e).
  { unfold finite_value, py_int. destruct e as [|p|p]; cbn [Qnum Qden].
    - now rewrite Z.quot_1_r.
    - rewrite Z.quot_1_r, Z.shiftl_mul_pow2, Pos2Z.inj_mul, Pos2Z.inj_pow by lia.
      reflexivity.
    - rewrite Z.quot_div_nonneg by lia.
      change (Z.neg p) with (- Z.pos p). rewrite Z.shiftl_opp_r, Z.shiftr_div_pow2 by lia.
      now rewrite Pos2Z.inj_pow. }
  destruct s; [| rewrite H; lia].
  change (finite_value true m e) with (Qopp (finite_value false m e)).
  rewrite py_int_opp, H. lia.
Qed.

Lemma shiftl_nonneg_le (a b e : Z) : 0 <= a <= b -> Z.shiftl a e <= Z.shiftl b e.
Proof.
  intros H. destruct (Z_lt_le_dec e 0) as [Hneg | Hpos].
  - replace e with (- - e) by lia. rewrite !Z.shiftl_opp_r, !Z.shiftr_div_pow2 by lia.
    apply Z.div_le_mono; [apply Z.pow_pos_nonneg |]; lia.
  - rewrite !Z.shiftl_mul_pow2 by lia.
    apply Z.mul_le_mono_nonneg_r; [apply Z.pow_nonneg |]; lia.
Qed.

(** A larger magnitude has a larger integer part. *)
Lemma shiftl_key_le (s s' : bool) (m m' : positive) (e e' : Z) :
  in_format (S754_finite s m e) -> in_format (S754_finite s' m' e') ->
  (e - emin) * 2 ^ 52 + Z.pos m <= (e' - emin) * 2 ^ 52 + Z.pos m' ->
  Z.shiftl (Z.pos m) e <= Z.shiftl (Z.pos m') e'.
Proof.
  intros Hx Hy Hk.
  assert (Hee : e <= e').
  { destruct (Z_lt_le_dec e' e) as [Hlt |]; [| assumption].
    pose proof (key_lt_exponent m' m e' e Hy Hx Hlt). lia. }
  assert (Hval : Z.pos m <= Z.shiftl (Z.pos m') (e' - e)).
  { rewrite Z.shiftl_mul_pow2 by lia.
    destruct (Z.eq_dec e e') as [-> | Hne].
    - rewrite Z.sub_diag. lia.
    - cbn [in_format] in Hx, Hy. destruct Hx as [He [Hm _]]. destruct Hy as [_ [_ Hn2]].
      specialize (Hn2 ltac:(lia)).
      assert (2 ^ 1 <= 2 ^ (e' - e)) by (apply Z.pow_le_mono_r; lia).
      change (2 ^ 1) with 2 in *. change (2 ^ 53) with 9007199254740992 in *.
      change (2 ^ 52) with 4503599627370496 in *. nia. }
  replace (Z.shiftl (Z.pos m') e') with (Z.shiftl (Z.shiftl (Z.pos m') (e' - e)) e)
    by (rewrite Z.shiftl_shiftl by lia; f_equal; lia).
  apply shiftl_nonneg_le. lia.
Qed.

(** [int()] keeps the order of the floats. *)
Lemma float_int_mono (x y : float) (i j : Z) :
  (x <=? y)%float = true -> float_int x = Ok i -> float_int y = Ok j -> i <= j.
Proof.
  rewrite leb_spec. unfold float_int. intros Hxy Hi Hj.
  assert (Fx : in_format (Prim2SF x)).
  { apply Prim2SF_in_format. intros E. rewrite E in Hi. discriminate. }
  assert (Fy : in_format (Prim2SF y)).
  { apply Prim2SF_in_format. intros E. rewrite E in Hj. discriminate. }
  apply (SFleb_key _ _ Fx Fy) in Hxy.
  destruct (Prim2SF x) as [sx | sx | | sx mx ex]; try discriminate;
    (destruct (Prim2SF y) as [sy | sy | | sy my ey]; try discriminate);
    injection Hi as <-; injection Hj as <-;
    rewrite ?py_int_finite_value;
    try pose proof (finite_key_bounds sx mx ex Fx) as Hkx;
    try pose proof (finite_key_bounds sy my ey Fy) as Hky;
    try pose proof (shiftl_key_le sx sy mx my ex ey Fx Fy) as Hle;
    try pose proof (shiftl_key_le sy sx my mx ey ex Fy Fx) as Hge;
    try pose proof (Z.shiftl_nonneg (Z.pos mx) ex) as Hx0;
    try pose proof (Z.shiftl_nonneg (Z.pos my) ey) as Hy0;
    cbn [float_key] in Hxy;
    try set (kx := (ex - emin) * 2 ^ 52 + Z.pos mx) in *;
    try set (ky := (ey - emin) * 2 ^ 52 + Z.pos my) in *;
    try set (tx := Z.shiftl (Z.pos mx) ex) in *;
    try set (ty := Z.shiftl (Z.pos my) ey) in *;
    repeat match goal with s : bool |- _ => destruct s end; lia.
Qed.

(** ** The delay grows with delay_ms *)

Lemma float_int_mul_1000 (p : float) (i : Z) :
  float_int (p * 1000)%float = Ok i ->
  exists s m e, Prim2SF p = S754_zero s /\ i = 0 \/ Prim2SF p = S754_finite s m e.
Proof.
  unfold float_int. rewrite mul_spec.
  change (Prim2SF 1000) with (S754_finite false 8796093022208000 (-43)).
  destruct (Prim2SF p) as [s | s | | s m e]; cbn [SF64mul SFmul]; intros H;
    try discriminate.
  - injection H as <-. exists s, 1%positive, 0. now left.
  - exists s, m, e. now right.
Qed.

(** At a sampling rate that is zero the delay is 0, at an infinite one
    there is none. *)
Lemma ms_to_idx_rate_zero (file : File float) (delay_ms : float) (s : bool) (i : Z) :
  Prim2SF (sampling_rate file) = S754_zero s -> ms_to_idx file delay_ms = Ok i -> i = 0.
Proof.
  intros Es. unfold ms_to_idx. cbn [s_int s_multiply s_1000 Scalar_float].
  unfold float_int. rewrite !mul_spec, Es.
  change (Prim2SF 1000) with (S754_finite false 8796093022208000 (-43)).
  destruct (Prim2SF delay_ms) as [sd | sd | | sd md ed]; cbn [SF64mul SFmul]; intros H;
    try discriminate; now injection H as <-.
Qed.

Lemma ms_to_idx_rate_infinite (file : File float) (delay_ms : float) (s : bool) (i : Z) :
  Prim2SF (sampling_rate file) = S754_infinity s -> ms_to_idx file delay_ms <> Ok i.
Proof.
  intros Es. unfold ms_to_idx. cbn [s_int s_multiply s_1000 Scalar_float].
  unfold float_int. rewrite !mul_spec, Es.
  change (Prim2SF 1000) with (S754_finite false 8796093022208000 (-43)).
  destruct (Prim2SF delay_ms) as [sd | sd | | sd md ed]; cbn [SF64mul SFmul]; discriminate.
Qed.

(** With a sampling rate that is not below zero, the delay on floats never
    shrinks when delay_ms grows. *)
Lemma ms_to_idx_float_mono (file : File float) (d1 d2 : float) (i1 i2 : Z) :
  (0 <=? sampling_rate file)%float = true -> (d1 <=? d2)%float = true ->
  ms_to_idx file d1 = Ok i1 -> ms_to_idx file d2 = Ok i2 -> i1 <= i2.
Proof.
  intros Hs Hd H1 H2.
  destruct (Prim2SF (sampling_rate file)) as [s | s | | s m e] eqn:Es.
  - rewrite (ms_to_idx_rate_zero file d1 s i1 Es H1).
    rewrite (ms_to_idx_rate_zero file d2 s i2 Es H2). lia.
  - now destruct (ms_to_idx_rate_infinite file d1 s i1 Es).
  - rewrite leb_spec, Es in Hs. discriminate.
  - destruct s.
    { rewrite leb_spec, Es in Hs. discriminate. }
    unfold ms_to_idx in H1, H2. cbn [s_int s_multiply s_1000 Scalar_float] in H1, H2.
    apply (float_int_mono _ _ i1 i2 (mul_leb_mono _ _ 1000 8796093022208000 (-43) eq_refl
             (mul_leb_mono d1 d2 (sampling_rate file) m e Es Hd)) H1 H2).
Qed.

(** A float between zero and one that [int()] converts is converted too. *)
Lemma float_int_below (x y : float) (j : Z) :
  (0 <=? x)%float = true -> (x <=? y)%float = true -> float_int y = Ok j ->
  exists i, float_int x = Ok i.
Proof.
  rewrite !leb_spec. change (Prim2SF 0) with (S754_zero false). unfold float_int.
  destruct (Prim2SF x) as [sx | [] | | sx mx ex]; intros H0 Hxy Hj;
    try discriminate; try (eexists; reflexivity).
  destruct (Prim2SF y) as [sy | sy | | [] my ey]; discriminate.
Qed.

Lemma float_int_nonneg (x : float) (i : Z) :
  SF_nonneg (Prim2SF x) -> float_int x = Ok i -> 0 <= i.
Proof.
  unfold float_int. destruct (Prim2SF x) as [s | s | | s m e]; cbn [SF_nonneg];
    intros Hs Hi; try discriminate; injection Hi as <-; [lia |].
  subst s. rewrite py_int_finite_value. pose proof (Z.shiftl_nonneg (Z.pos m) e). lia.
Qed.

(** With a sampling rate and a delay_ms that are not below zero, the delay
    is not below zero. *)
Lemma ms_to_idx_float_nonneg (file : File float) (delay_ms : float) (i : Z) :
  (0 <=? sampling_rate file)%float = true -> (0 <=? delay_ms)%float = true ->
  ms_to_idx file delay_ms = Ok i -> 0 <= i.
Proof.
  intros Hs Hd. unfold ms_to_idx. cbn [s_int s_multiply s_1000 Scalar_float].
  apply float_int_nonneg. apply mul_nonneg; [| reflexivity].
  apply mul_nonneg; now apply leb_0_nonneg.
Qed.

(** When the delay of a delay_ms is computed, so is the delay of every
    shorter delay_ms that is not below zero. *)
Lemma ms_to_idx_float_below (file : File float) (d1 d2 : float) (i2 : Z) :
  (0 <=? sampling_rate file)%float = true ->
  (0 <=? d1)%float = true -> (d1 <=? d2)%float = true ->
  ms_to_idx file d2 = Ok i2 -> exists i1, ms_to_idx file d1 = Ok i1.
Proof.
  intros Hs H0 Hd H2.
  destruct (Prim2SF (sampling_rate file)) as [s | s | | s m e] eqn:Es.
  - revert H0 Hd H2. unfold ms_to_idx. cbn [s_int s_multiply s_1000 Scalar_float].
    unfold float_int. rewrite !leb_spec, !mul_spec, Es.
    change (Prim2SF 0) with (S754_zero false).
    change (Prim2SF 1000) with (S754_finite false 8796093022208000 (-43)).
    destruct (Prim2SF d1) as [s1 | [] | | s1 m1 e1]; cbn [SF64mul SFmul]; intros H0 Hd H2;
      try discriminate; try (eexists; reflexivity).
    destruct (Prim2SF d2) as [s2 | s2 | | s2 m2 e2]; discriminate.
  - now destruct (ms_to_idx_rate_infinite file d2 s i2 Es).
  - rewrite leb_spec, Es in Hs. discriminate.
  - destruct s.
    { rewrite leb_spec, Es in Hs. discriminate. }
    unfold ms_to_idx in *. cbn [s_int s_multiply s_1000 Scalar_float] in *.
    apply (float_int_below _ (d2 * sampling_rate file * 1000)%float i2); [| | exact H2].
    + pose proof (mul_leb_mono _ _ 1000 8796093022208000 (-43) eq_refl
                    (mul_leb_mono 0 d1 (sampling_rate file) m e Es H0)) as H.
      rewrite leb_spec in H |- *. rewrite (mul_spec (0 * sampling_rate file) 1000) in H.
      rewrite (mul_spec 0 (sampling_rate file)), Es in H. exact H.
    + exact (mul_leb_mono _ _ 1000 8796093022208000 (-43) eq_refl
               (mul_leb_mono d1 d2 (sampling_rate file) m e Es Hd)).
Qed.

End FloatRounding.

(** * The statements on sample inputs *)

(** ** Windows and statistics *)

Lemma apply_window_windows_witness :
  shape recording_2x1x4 = [2; 1; 4] /\ wf recording_2x1x4 /\
  1 <= 2 /\ 1 <= 1 /\ (1 <= 2 <= Z.of_nat 4)%Z /\
  exists w,
    _apply_window recording_2x1x4 2 = Ok w /\
    shape w = [4 - Z.to_nat 2 + 1; 2; 1; Z.to_nat 2] /\
    wf w /\
    forall k i j t, k < 4 - Z.to_nat 2 + 1 -> i < 2 -> j < 1 -> t < Z.to_nat 2 ->
      exists x, np.get w [k; i; j; t] = Ok x /\
                np.get recording_2x1x4 [i; j; k + t] = Ok x.
Proof.
  assert (H1 : shape recording_2x1x4 = [2; 1; 4]) by reflexivity.
  assert (H2 : wf recording_2x1x4) by reflexivity.
  assert (H3 : 1 <= 2) by lia.
  assert (H4 : 1 <= 1) by lia.
  assert (H5 : (1 <= 2 <= Z.of_nat 4)%Z) by lia.
  repeat (split; [assumption |]).
  exact (apply_window_windows recording_2x1x4 2 1 4 2 H1 H2 H3 H4 H5).
Defined.

(** Without sweeps the extraction raises: the reshape cannot infer the
    number of windows of an empty array. *)
Lemma apply_window_no_sweeps_counterexample :
  shape recording_0x1x2 = [0; 1; 2] /\ wf recording_0x1x2 /\
  (1 <= 1 <= Z.of_nat 2)%Z /\
  _apply_window recording_0x1x2 1 = Raise (ValueError "cannot reshape array") /\
  ~ exists w, _apply_window recording_0x1x2 1 = Ok w.
Proof.
  assert (E : _apply_window recording_0x1x2 1 = Raise (ValueError "cannot reshape array"))
    by reflexivity.
  repeat split; try reflexivity; try lia; try exact E.
  intros [w Hw]. rewrite E in Hw. discriminate.
Qed.

Example apply_window_2x1x4 : _apply_window recording_2x1x4 2 = Ok windows_2x1x4.
Proof. reflexivity. Qed.

Lemma statistics_reduce_windows_witness :
  shape recording_2x1x4 = [2; 1; 4] /\ wf recording_2x1x4 /\
  1 <= 2 /\ 1 <= 1 /\ (1 <= 2 <= Z.of_nat 4)%Z /\
  exists w var amp en,
    _apply_window recording_2x1x4 2 = Ok w /\
    Variation_call (mk_Variation 2) recording_2x1x4 = Ok var /\
    Amplitude_call (mk_Amplitude 2) recording_2x1x4 = Ok amp /\
    Energy_call (mk_Energy 2) recording_2x1x4 = Ok en /\
    (shape var = [4 - Z.to_nat 2 + 1; 2; 1] /\ wf var) /\
    (shape amp = [4 - Z.to_nat 2 + 1; 2; 1] /\ wf amp) /\
    (shape en = [4 - Z.to_nat 2 + 1; 2; 1] /\ wf en) /\
    forall k i j, k < 4 - Z.to_nat 2 + 1 -> i < 2 -> j < 1 ->
      exists window,
        np.lane w 3 (Z.to_nat 2) [k; i; j] = Ok window /\
        window_samples recording_2x1x4 i j k (Z.to_nat 2) = Ok window /\
        length window = Z.to_nat 2 /\
        np.get var [k; i; j] = peak_to_peak_abs window /\
        np.get amp [k; i; j] = max_abs window /\
        np.get en [k; i; j] = Ok (sum_squares window).
Proof.
  assert (H1 : shape recording_2x1x4 = [2; 1; 4]) by reflexivity.
  assert (H2 : wf recording_2x1x4) by reflexivity.
  assert (H3 : 1 <= 2) by lia.
  assert (H4 : 1 <= 1) by lia.
  assert (H5 : (1 <= 2 <= Z.of_nat 4)%Z) by lia.
  repeat (split; [assumption |]).
  exact (statistics_reduce_windows recording_2x1x4 2 1 4 2 H1 H2 H3 H4 H5).
Defined.

(** A 3-dimensional recording without sweeps, with a bin size that fits its
    samples: the three transformers raise, as the extraction step does. *)
Lemma statistics_no_sweeps_counterexample :
  shape recording_0x1x2 = [0; 1; 2] /\ wf recording_0x1x2 /\
  (1 <= 1 <= Z.of_nat 2)%Z /\
  Variation_call (mk_Variation 1) recording_0x1x2
  = Raise (ValueError "cannot reshape array") /\
  Amplitude_call (mk_Amplitude 1) recording_0x1x2
  = Raise (ValueError "cannot reshape array") /\
  Energy_call (mk_Energy 1) recording_0x1x2
  = Raise (ValueError "cannot reshape array") /\
  ~ (exists var, Variation_call (mk_Variation 1) recording_0x1x2 = Ok var) /\
  ~ (exists amp, Amplitude_call (mk_Amplitude 1) recording_0x1x2 = Ok amp) /\
  ~ (exists en, Energy_call (mk_Energy 1) recording_0x1x2 = Ok en).
Proof.
  repeat split; try reflexivity; try lia; intros [x Hx]; discriminate.
Qed.

Example statistics_2x1x4 :
  Variation_call (mk_Variation 2) recording_2x1x4
  = Ok (mk_ndarray [3; 2; 1] (map inject_Z [1; 1; 1; 1; 1; 1]%Z)) /\
  Amplitude_call (mk_Amplitude 2) recording_2x1x4
  = Ok (mk_ndarray [3; 2; 1] (map inject_Z [2; 6; 3; 7; 4; 8]%Z)) /\
  Energy_call (mk_Energy 2) recording_2x1x4
  = Ok (mk_ndarray [3; 2; 1] (map inject_Z [5; 61; 13; 85; 25; 113]%Z)).
Proof. repeat split; vm_compute; reflexivity. Qed.

(** ** Raw *)

Lemma Raw_relayout_roundtrip_witness :
  shape recording_2x1x4 = [2; 1; 4] /\ wf recording_2x1x4 /\
  exists out,
    Raw_call recording_2x1x4 = Ok out /\
    shape out = [4; 2; 1] /\
    wf out /\
    (forall i j k, i < 2 -> j < 1 -> k < 4 ->
       exists x, np.get out [k; i; j] = Ok x /\ np.get recording_2x1x4 [i; j; k] = Ok x) /\
    np.moveaxis out 0 2 = Ok recording_2x1x4.
Proof.
  assert (H1 : shape recording_2x1x4 = [2; 1; 4]) by reflexivity.
  assert (H2 : wf recording_2x1x4) by reflexivity.
  repeat (split; [assumption |]).
  exact (Raw_relayout_roundtrip recording_2x1x4 2 1 4 H1 H2).
Defined.

Lemma Raw_fails_below_3d_witness :
  ndim table_2x2 < 3 /\
  Raw_call table_2x2 = Raise (AxisError "source: axis is out of bounds for array") /\
  Raw_call table_2x2 <> Ok table_2x2 /\
  Variation_call (mk_Variation 2) table_2x2 = Ok table_2x2 /\
  Amplitude_call (mk_Amplitude 2) table_2x2 = Ok table_2x2 /\
  Energy_call (mk_Energy 2) table_2x2 = Ok table_2x2 /\
  DetectArtifacts_call table_2x2 file_10V = Ok (Data table_2x2).
Proof.
  assert (H : ndim table_2x2 < 3) by (cbn; lia).
  split; [assumption |].
  exact (Raw_fails_below_3d table_2x2 (mk_Variation 2) (mk_Amplitude 2) (mk_Energy 2)
           file_10V H).
Defined.

(** ** Artifact detection *)

Lemma DetectArtifacts_threshold_witness :
  shape sweeps_81_80 = [2; 3; 30] /\ wf sweeps_81_80 /\
  exists m,
    DetectArtifacts_call sweeps_81_80 file_10V_float = Ok (Mask m) /\
    shape m = [2] /\
    wf m /\
    forall i, i < 2 ->
      exists samples,
        sweep_samples sweeps_81_80 i 3 30 = Ok samples /\
        length samples = 3 * 30 /\
        let n := count_above
                   (s_multiply (convert file_10V_float (max_volt file_10V_float)) s_098)
                   samples in
        np.get m [i] = Ok (80 <? n) /\
        (n = 81 -> np.get m [i] = Ok true) /\
        (n = 80 -> np.get m [i] = Ok false).
Proof.
  assert (H1 : shape sweeps_81_80 = [2; 3; 30]) by reflexivity.
  assert (H2 : wf sweeps_81_80) by reflexivity.
  repeat (split; [assumption |]).
  exact (DetectArtifacts_threshold sweeps_81_80 file_10V_float 2 3 30 H1 H2).
Defined.

(** With [max_volt = 10] and the identity conversion the bound is the float
    next to 9.8; the sweep with 81 samples of 9.9 is flagged, the sweep with
    80 is not. *)
Example DetectArtifacts_81_80 :
  s_multiply (convert file_10V_float (max_volt file_10V_float)) s_098
  = 0x1.399999999999ap+3%float /\
  (exists s0 s1,
     sweep_samples sweeps_81_80 0 3 30 = Ok s0 /\
     sweep_samples sweeps_81_80 1 3 30 = Ok s1 /\
     count_above 0x1.399999999999ap+3%float s0 = 81 /\
     count_above 0x1.399999999999ap+3%float s1 = 80) /\
  DetectArtifacts_call sweeps_81_80 file_10V_float
  = Ok (Mask (mk_ndarray [2] [true; false])).
Proof.
  split; [vm_compute; reflexivity |]. split; [| vm_compute; reflexivity].
  do 2 eexists. split; [vm_compute; reflexivity |].
  split; [vm_compute; reflexivity |]. split; vm_compute; reflexivity.
Qed.

(** ** Passthrough *)

Lemma passthrough_below_3d_witness :
  ndim table_2x2 < 3 /\
  Variation_call (mk_Variation 2) table_2x2 = Ok table_2x2 /\
  Amplitude_call (mk_Amplitude 2) table_2x2 = Ok table_2x2 /\
  Energy_call (mk_Energy 2) table_2x2 = Ok table_2x2 /\
  DetectArtifacts_call table_2x2 file_10V = Ok (Data table_2x2).
Proof.
  assert (H : ndim table_2x2 < 3) by (cbn; lia).
  split; [assumption |].
  exact (passthrough_below_3d table_2x2 (mk_Variation 2) (mk_Amplitude 2) (mk_Energy 2)
           file_10V H).
Defined.

(** A 4-dimensional array is not 3-dimensional and is not passed through:
    the statistic transformers raise, the detector returns a mask. *)
Lemma passthrough_4d_counterexample :
  ndim array_1x1x1x1 <> 3 /\
  Variation_call (mk_Variation 1) array_1x1x1x1 <> Ok array_1x1x1x1 /\
  Amplitude_call (mk_Amplitude 1) array_1x1x1x1 <> Ok array_1x1x1x1 /\
  Energy_call (mk_Energy 1) array_1x1x1x1 <> Ok array_1x1x1x1 /\
  DetectArtifacts_call array_1x1x1x1 file_10V <> Ok (Data array_1x1x1x1) /\
  Variation_call (mk_Variation 1) array_1x1x1x1
  = Raise (ValueError
      "Since axis is `None`, must provide window_shape for all dimensions of `x`") /\
  DetectArtifacts_call array_1x1x1x1 file_10V = Ok (Mask (mk_ndarray [1; 1] [false])).
Proof.
  repeat split; try discriminate; reflexivity.
Qed.

(** ** The shutter *)

Lemma Shutter_expand_select_witness :
  let self := mk_Shutter six_rows ms_0_003 in
  shape mask_at_2 = [6] /\ wf mask_at_2 /\ length (Shutter_data self) = 6 /\
  ms_to_idx file_10V_float (Shutter_delay_ms self) = Ok 3%Z /\ (0 <= 3)%Z /\
  nth 0 (buf mask_at_2) false = false /\
  exists expanded rows,
    Shutter_call self mask_at_2 file_10V_float = (mk_ndarray [6] expanded, Ok rows) /\
    length expanded = 6 /\
    (forall j, j < 6 ->
       (nth j expanded false = true <->
        nth j (buf mask_at_2) false = true \/
        exists i, nth i (buf mask_at_2) false = true /\ i <= j < i + Z.to_nat 3)) /\
    map Some rows =
    map (nth_error (Shutter_data self))
      (filter (fun j => nth j expanded false) (seq 0 6)).
Proof.
  intros self.
  assert (H1 : shape mask_at_2 = [6]) by reflexivity.
  assert (H2 : wf mask_at_2) by reflexivity.
  assert (H3 : length (Shutter_data self) = 6) by reflexivity.
  assert (H4 : ms_to_idx file_10V_float (Shutter_delay_ms self) = Ok 3%Z)
    by (vm_compute; reflexivity).
  assert (H5 : (0 <= 3)%Z) by lia.
  assert (H6 : nth 0 (buf mask_at_2) false = false) by reflexivity.
  repeat (split; [assumption |]).
  exact (Shutter_expand_select self mask_at_2 file_10V_float 6 3 H1 H2 H3 H4 H5 H6).
Defined.

(** A delay of 3 indices flags entries 2, 3 and 4 and selects those rows. *)
Example Shutter_delay_3 :
  ms_to_idx file_10V_float ms_0_003 = Ok 3%Z /\
  Shutter_call (mk_Shutter six_rows ms_0_003) mask_at_2 file_10V_float
  = (mk_ndarray [6] [false; false; true; true; true; false], Ok [2; 3; 4]).
Proof. split; vm_compute; reflexivity. Qed.

(** A delay of 2 indices flags entries 2 and 3 only, and an entry flagged at
    index 0 is not expanded. *)
Lemma Shutter_delay_2_counterexample :
  ms_to_idx file_10V_float ms_0_002 = Ok 2%Z /\
  Shutter_call (mk_Shutter six_rows ms_0_002) mask_at_2 file_10V_float
  = (mk_ndarray [6] [false; false; true; true; false; false], Ok [2; 3]) /\
  Shutter_call (mk_Shutter six_rows ms_0_002) mask_at_2 file_10V_float
  <> (mk_ndarray [6] [false; false; true; true; true; false], Ok [2; 3; 4]) /\
  Shutter_call (mk_Shutter three_rows ms_0_002) mask_at_0 file_10V_float
  = (mk_ndarray [3] [true; false; false], Ok [0]) /\
  Shutter_call (mk_Shutter three_rows ms_0_002) mask_at_0 file_10V_float
  <> (mk_ndarray [3] [true; true; true], Ok [0; 1; 2]).
Proof.
  assert (E2 : Shutter_call (mk_Shutter six_rows ms_0_002) mask_at_2 file_10V_float
               = (mk_ndarray [6] [false; false; true; true; false; false], Ok [2; 3]))
    by (vm_compute; reflexivity).
  assert (E0 : Shutter_call (mk_Shutter three_rows ms_0_002) mask_at_0 file_10V_float
               = (mk_ndarray [3] [true; false; false], Ok [0]))
    by (vm_compute; reflexivity).
  split; [vm_compute; reflexivity |].
  split; [exact E2 |]. split; [rewrite E2; discriminate |].
  split; [exact E0 |]. rewrite E0. discriminate.
Qed.

(** The float product 0.002 * 1.0 * 1000 is 2.0, kept as mantissa over a
    power of two. *)
Lemma ms_to_idx_floor_witness :
  let q := (4503599627370496 # 2251799813685248)%Q in
  (0 <=? ms_0_002)%float = true /\
  (0 <=? sampling_rate file_10V_float)%float = true /\
  float_value (ms_0_002 * sampling_rate file_10V_float * 1000)%float = Some q /\
  (0 <= q)%Q /\ ms_to_idx file_10V_float ms_0_002 = Ok (Qfloor q).
Proof.
  intros q.
  assert (H1 : (0 <=? ms_0_002)%float = true) by reflexivity.
  assert (H2 : (0 <=? sampling_rate file_10V_float)%float = true) by reflexivity.
  assert (H3 : float_value (ms_0_002 * sampling_rate file_10V_float * 1000)%float
               = Some q) by (vm_compute; reflexivity).
  repeat (split; [assumption |]).
  exact (ms_to_idx_floor file_10V_float ms_0_002 q H1 H2 H3).
Defined.

(** Two ways the delay is not the floor of delay_ms * sampling_rate * 1000.
    With [delay_ms = 2 ** 1023] at 1024 samples per second, both positive,
    the product is infinite and [int()] raises. With [delay_ms = 0.009] at 1
    sample per second the float product is 9.0 and the delay 9, although the
    float 0.009 lies below 9/1000 and the exact product has floor 8. *)
Lemma ms_to_idx_overflow_counterexample :
  ((0 <=? ms_2_pow_1023)%float = true /\
   (0 <=? sampling_rate file_1024Hz)%float = true /\
   float_value (ms_2_pow_1023 * sampling_rate file_1024Hz * 1000)%float = None /\
   ms_to_idx file_1024Hz ms_2_pow_1023
   = Raise (OverflowError "cannot convert float infinity to integer") /\
   ~ (exists d, ms_to_idx file_1024Hz ms_2_pow_1023 = Ok d)) /\
  (ms_to_idx file_10V_float ms_0_009 = Ok 9%Z /\
   exists q r,
     float_value ms_0_009 = Some q /\
     float_value (sampling_rate file_10V_float) = Some r /\
     Qfloor (q * r * 1000)%Q = 8%Z).
Proof.
  assert (E : ms_to_idx file_1024Hz ms_2_pow_1023
              = Raise (OverflowError "cannot convert float infinity to integer"))
    by (vm_compute; reflexivity).
  split.
  - split; [reflexivity |]. split; [reflexivity |].
    split; [vm_compute; reflexivity |]. split; [exact E |].
    intros [d Hd]. rewrite E in Hd. discriminate.
  - split; [vm_compute; reflexivity |].
    do 2 eexists. split; [vm_compute; reflexivity |].
    split; [vm_compute; reflexivity |]. vm_compute; reflexivity.
Qed.

(** Truncation and floor part ways below zero. *)
Example ms_to_idx_negative :
  ms_to_idx file_10V_float ms_minus_0_0015 = Ok (-1)%Z /\
  exists q,
    float_value (ms_minus_0_0015 * sampling_rate file_10V_float * 1000)%float = Some q /\
    (q == -3 # 2)%Q /\
    Qfloor q = (-2)%Z.
Proof.
  split; [vm_compute; reflexivity |]. eexists.
  split; [vm_compute; reflexivity |]. split; vm_compute; reflexivity.
Qed.

Example Shutter_0dim_mask_guard :
  Shutter_call (mk_Shutter three_rows ms_0_002) (mk_ndarray [] [true]) file_10V_float
  = (mk_ndarray [] [true], Raise (TypeError "len() of unsized object")) /\
  snd (Shutter_call (mk_Shutter three_rows ms_0_002) (mk_ndarray [] [true]) file_10V_float)
  <> Raise (ValueError "mask must be a 1dim array.") /\
  Shutter_call (mk_Shutter three_rows ms_2_pow_1023) (mk_ndarray [] [true]) file_1024Hz
  = (mk_ndarray [] [true],
     Raise (OverflowError "cannot convert float infinity to integer")).
Proof.
  assert (E : Shutter_call (mk_Shutter three_rows ms_0_002) (mk_ndarray [] [true])
                file_10V_float
              = (mk_ndarray [] [true], Raise (TypeError "len() of unsized object")))
    by (vm_compute; reflexivity).
  split; [exact E |]. split; [rewrite E; discriminate | vm_compute; reflexivity].
Qed.

Lemma invalid_parameters_witness :
  let self := mk_Shutter six_rows ms_minus_0_003 in
  (shape sweep_1x1x2 = [1; 1; 2] /\ (0 < 1 \/ Z.of_nat 2 < 0)%Z /\
   exists msg,
     _apply_window sweep_1x1x2 0 = Raise (ValueError msg) /\
     Variation_call (mk_Variation 0) sweep_1x1x2 = Raise (ValueError msg) /\
     Amplitude_call (mk_Amplitude 0) sweep_1x1x2 = Raise (ValueError msg) /\
     Energy_call (mk_Energy 0) sweep_1x1x2 = Raise (ValueError msg)) /\
  (shape mask_at_1 = [6] /\ wf mask_at_1 /\ length (Shutter_data self) = 6 /\
   ms_to_idx file_10V_float (Shutter_delay_ms self) = Ok (-3)%Z /\
   exists rows, snd (Shutter_call self mask_at_1 file_10V_float) = Ok rows).
Proof.
  intros self.
  assert (H1 : shape sweep_1x1x2 = [1; 1; 2]) by reflexivity.
  assert (H2 : (0 < 1 \/ Z.of_nat 2 < 0)%Z) by (left; lia).
  assert (H3 : shape mask_at_1 = [6]) by reflexivity.
  assert (H4 : wf mask_at_1) by reflexivity.
  assert (H5 : length (Shutter_data self) = 6) by reflexivity.
  assert (H6 : ms_to_idx file_10V_float (Shutter_delay_ms self) = Ok (-3)%Z)
    by (vm_compute; reflexivity).
  split.
  - repeat (split; [assumption |]).
    exact (proj1 (invalid_parameters sweep_1x1x2 1 1 2 0 self mask_at_1
                    file_10V_float 6) H1 H2).
  - repeat (split; [assumption |]).
    exact (proj1 (proj2 (invalid_parameters sweep_1x1x2 1 1 2 0 self mask_at_1
                           file_10V_float 6) H3 H4 H5) (-3)%Z H6).
Defined.

(** A negative [delay_ms] raises nothing: the negative delay is taken as a
    slice end counted from the end of the mask, and rows are returned. *)
Lemma Shutter_negative_delay_counterexample :
  (ms_minus_0_003 <? 0)%float = true /\
  ms_to_idx file_10V_float ms_minus_0_003 = Ok (-3)%Z /\
  Shutter_call (mk_Shutter six_rows ms_minus_0_003) mask_at_1 file_10V_float
  = (mk_ndarray [6] [false; true; true; true; false; false], Ok [1; 2; 3]).
Proof.
  repeat split; vm_compute; reflexivity.
Qed.

(** * Further properties of the transformers *)

(** ** Window extraction *)

(** X1. Window extraction returns windows exactly on 3-dimensional arrays
    with at least one sweep and one channel and a bin size between 1 and the
    number of samples; on every other input it raises. *)
Theorem apply_window_succeeds_iff {A : Type} (data : ndarray A) (b : Z) :
  wf data ->
  ((exists w, _apply_window data b = Ok w) <->
   exists Sw Ch Ns,
     shape data = [Sw; Ch; Ns] /\ 1 <= Sw /\ 1 <= Ch /\ (1 <= b <= Z.of_nat Ns)%Z).
Proof.
  intros Hwf. split.
  - intros [w Hw].
    destruct (shape data) as [|s0 [|s1 [|s2 [|s3 rest]]]] eqn:E.
    + unfold _apply_window, np.shape_at in Hw. rewrite E in Hw. discriminate.
    + unfold _apply_window, np.shape_at in Hw. rewrite E in Hw. discriminate.
    + unfold _apply_window, np.shape_at, np.sliding_window_view, ndim in Hw.
      rewrite E in Hw. cbn [nth_error bind length Nat.eqb negb] in Hw.
      destruct (existsb _ _) in Hw; discriminate.
    + destruct (Z.ltb_spec b 0) as [Hneg | Hnn].
      { rewrite (apply_window_negative data s0 s1 s2 b E Hneg) in Hw. discriminate. }
      destruct (Z.ltb_spec (Z.of_nat s2) b) as [Hbig | Hfit].
      { rewrite (apply_window_too_large data s0 s1 s2 b E Hbig) in Hw. discriminate. }
      destruct (Nat.eq_dec (s0 * s1 * Z.to_nat b) 0) as [Hz | Hnz].
      { rewrite (apply_window_empty data s0 s1 s2 b E) in Hw by (lia || assumption).
        discriminate. }
      exists s0, s1, s2. repeat split; lia.
    + unfold _apply_window, np.shape_at, np.sliding_window_view, ndim in Hw.
      rewrite E in Hw. cbn [nth_error bind length Nat.eqb negb] in Hw.
      destruct (existsb _ _) in Hw; discriminate.
  - intros [Sw [Ch [Ns [E [HS [HC Hb]]]]]].
    destruct (apply_window_ok data Sw Ch Ns b E Hwf) as [w [Hw _]]; try lia.
    now exists w.
Qed.

Lemma apply_window_succeeds_iff_witness :
  wf recording_2x1x4 /\
  ((exists w, _apply_window recording_2x1x4 2 = Ok w) <->
   exists Sw Ch Ns,
     shape recording_2x1x4 = [Sw; Ch; Ns] /\ 1 <= Sw /\ 1 <= Ch /\
     (1 <= 2 <= Z.of_nat Ns)%Z).
Proof.
  assert (H : wf recording_2x1x4) by reflexivity.
  split; [assumption |]. exact (apply_window_succeeds_iff recording_2x1x4 2 H).
Defined.

(** X2. The windows slide by one sample: window k + 1 is window k moved one
    sample on, so consecutive windows share all but one sample. *)
Theorem windows_stride_one {A : Type} (data : ndarray A) (Sw Ch Ns : nat) (b : Z) :
  shape data = [Sw; Ch; Ns] -> wf data ->
  1 <= Sw -> 1 <= Ch -> (1 <= b <= Z.of_nat Ns)%Z ->
  exists w,
    _apply_window data b = Ok w /\
    forall k i j t, k + 1 < Ns - Z.to_nat b + 1 -> i < Sw -> j < Ch -> t + 1 < Z.to_nat b ->
      exists x, np.get w [k + 1; i; j; t] = Ok x /\ np.get w [k; i; j; t + 1] = Ok x.
Proof.
  intros Hshape Hwf HS HC Hb.
  destruct (apply_window_ok data Sw Ch Ns b Hshape Hwf) as [w [Hw [Hsh [Hwfw Hget]]]];
    try lia.
  exists w. split; [assumption |]. intros k i j t Hk Hi Hj Ht.
  destruct (get_in_bounds data [i; j; k + 1 + t] Hwf) as [x Hx].
  { rewrite Hshape. solve_bounds. }
  exists x. rewrite !Hget by lia. split; [assumption |].
  now replace (k + (t + 1)) with (k + 1 + t) by lia.
Qed.

Lemma windows_stride_one_witness :
  shape recording_2x1x4 = [2; 1; 4] /\ wf recording_2x1x4 /\
  1 <= 2 /\ 1 <= 1 /\ (1 <= 2 <= Z.of_nat 4)%Z /\
  exists w,
    _apply_window recording_2x1x4 2 = Ok w /\
    forall k i j t, k + 1 < 4 - Z.to_nat 2 + 1 -> i < 2 -> j < 1 -> t + 1 < Z.to_nat 2 ->
      exists x, np.get w [k + 1; i; j; t] = Ok x /\ np.get w [k; i; j; t + 1] = Ok x.
Proof.
  assert (H1 : shape recording_2x1x4 = [2; 1; 4]) by reflexivity.
  assert (H2 : wf recording_2x1x4) by reflexivity.
  assert (H3 : 1 <= 2) by lia.
  assert (H4 : 1 <= 1) by lia.
  assert (H5 : (1 <= 2 <= Z.of_nat 4)%Z) by lia.
  repeat (split; [assumption |]).
  exact (windows_stride_one recording_2x1x4 2 1 4 2 H1 H2 H3 H4 H5).
Defined.

Section StatisticsFurther.

Context {T : Type} {ST : Scalar T}.

(** X3. On every array of more than 3 dimensions the three statistic
    transformers raise numpy's ValueError, whatever the bin size: the
    3-entry window shape does not fit the array. *)
Theorem statistics_reject_above_3d
    (data : ndarray T) (v : Variation) (a : Amplitude) (e : Energy) :
  3 < ndim data ->
  (exists msg, Variation_call v data = Raise (ValueError msg)) /\
  (exists msg, Amplitude_call a data = Raise (ValueError msg)) /\
  (exists msg, Energy_call e data = Raise (ValueError msg)).
Proof.
  intros H.
  assert (Hw : forall b, exists msg, _apply_window data b = Raise (ValueError msg)).
  { intros b. unfold ndim in H.
    destruct (shape data) as [|s0 [|s1 [|s2 [|s3 rest]]]] eqn:E;
      cbn [length] in H; try lia.
    unfold _apply_window, np.shape_at, np.sliding_window_view, ndim. rewrite E.
    cbn [nth_error bind length Nat.eqb negb].
    destruct (existsb _ _); now eexists. }
  unfold Variation_call, Amplitude_call, Energy_call.
  rewrite (proj2 (Nat.ltb_ge (ndim data) 3)) by lia.
  destruct (Hw (Variation_bin_size v)) as [m1 ->].
  destruct (Hw (Amplitude_bin_size a)) as [m2 ->].
  destruct (Hw (Energy_bin_size e)) as [m3 ->].
  repeat split; now eexists.
Qed.

(** The three transformers entry by entry, on a recording with sweeps and
    channels and a bin size that fits. *)
Lemma statistics_entries (data : ndarray T) (Sw Ch Ns : nat) (b : Z) :
  shape data = [Sw; Ch; Ns] -> wf data ->
  1 <= Sw -> 1 <= Ch -> (1 <= b <= Z.of_nat Ns)%Z ->
  exists var amp en,
    Variation_call (mk_Variation b) data = Ok var /\
    Amplitude_call (mk_Amplitude b) data = Ok amp /\
    Energy_call (mk_Energy b) data = Ok en /\
    (shape var = [Ns - Z.to_nat b + 1; Sw; Ch] /\ wf var) /\
    (shape amp = [Ns - Z.to_nat b + 1; Sw; Ch] /\ wf amp) /\
    (shape en = [Ns - Z.to_nat b + 1; Sw; Ch] /\ wf en) /\
    forall k i j, k < Ns - Z.to_nat b + 1 -> i < Sw -> j < Ch ->
      exists x window,
        window_samples data i j k (Z.to_nat b) = Ok (x :: window) /\
        S (length window) = Z.to_nat b /\
        np.get var [k; i; j] =
          Ok (s_subtract (fold_left s_maximum (map s_abs window) (s_abs x))
                         (fold_left s_minimum (map s_abs window) (s_abs x))) /\
        np.get amp [k; i; j] = Ok (fold_left s_maximum (map s_abs window) (s_abs x)) /\
        np.get en [k; i; j] = Ok (np.add_reduce s_add s_zero (map s_square (x :: window))).
Proof.
  intros Hshape Hwf HS HC Hb.
  destruct (apply_window_ok data Sw Ch Ns b Hshape Hwf) as [w [Hw [Hsh [Hwfw Hget]]]];
    try lia.
  set (B := Z.to_nat b) in *. set (W := Ns - B + 1) in *.
  assert (HB : 0 < B) by (subst B; lia).
  pose (aw := np.map1 s_abs w). pose (sw := np.map1 s_square w).
  assert (Haw : shape aw = [W; Sw; Ch; B]) by exact Hsh.
  assert (Hsw : shape sw = [W; Sw; Ch; B]) by exact Hsh.
  assert (Hwfa : wf aw) by now apply wf_map1.
  assert (Hwfs : wf sw) by now apply wf_map1.
  destruct (reduce_axis_last aw W Sw Ch B Haw Hwfa s_maximum HB)
    as [mx [Hmx [Hshx [Hwfx Hgx]]]].
  destruct (reduce_axis_last aw W Sw Ch B Haw Hwfa s_minimum HB)
    as [mn [Hmn [Hshn [Hwfn Hgn]]]].
  destruct (sum_axis_last sw W Sw Ch B Hsw Hwfs s_add s_zero)
    as [en [Hen [Hshe [Hwfe Hge]]]].
  destruct (map2_spec s_subtract mx mn) as [var [Hvar [Hshv [Hwfv Hgv]]]];
    try congruence.
  exists var, mx, en.
  unfold Variation_call, Amplitude_call, Energy_call, ndim. rewrite Hshape.
  cbn [length Nat.ltb Nat.leb Variation_bin_size Amplitude_bin_size Energy_bin_size].
  rewrite Hw. cbn [bind]. fold aw sw. rewrite Hmx, Hmn, Hen. cbn [bind].
  repeat split; try assumption; try congruence.
  intros k i j Hk Hi Hj.
  destruct (lane_last w W Sw Ch B Hsh Hwfw k i j Hk Hi Hj) as [window [Hl Hlen]].
  specialize (Hgx k i j Hk Hi Hj). specialize (Hgn k i j Hk Hi Hj).
  specialize (Hge k i j Hk Hi Hj).
  unfold aw in Hgx, Hgn. unfold sw in Hge. rewrite lane_map1, Hl in Hgx, Hgn, Hge.
  cbn [bind] in Hgx, Hgn, Hge.
  destruct window as [|x0 window]; [cbn in Hlen; lia |].
  exists x0, window. cbn [map np.reduce1 bind] in *.
  split.
  { rewrite <- Hl. symmetry. now apply (lane_window_samples data w Sw Ch Ns B). }
  repeat split; try assumption.
  now apply Hgv.
Qed.

End StatisticsFurther.

Lemma statistics_reject_above_3d_witness :
  3 < ndim array_1x1x1x1 /\
  (exists msg, Variation_call (mk_Variation 1) array_1x1x1x1 = Raise (ValueError msg)) /\
  (exists msg, Amplitude_call (mk_Amplitude 1) array_1x1x1x1 = Raise (ValueError msg)) /\
  (exists msg, Energy_call (mk_Energy 1) array_1x1x1x1 = Raise (ValueError msg)).
Proof.
  assert (H : 3 < ndim array_1x1x1x1) by (cbn; lia).
  split; [assumption |].
  exact (statistics_reject_above_3d array_1x1x1x1 (mk_Variation 1) (mk_Amplitude 1)
           (mk_Energy 1) H).
Defined.

Section BinSizeOne.

Context {T : Type} {ST : Scalar T}.

(** X4. With bin size 1 every window is one sample, and Amplitude returns
    the absolute values of the recording in Raw's layout: Amplitude(1) is
    abs after Raw. *)
Theorem Amplitude_bin_1_abs_Raw (data : ndarray T) (Sw Ch Ns : nat) :
  shape data = [Sw; Ch; Ns] -> wf data -> 1 <= Sw -> 1 <= Ch -> 1 <= Ns ->
  exists out,
    Raw_call data = Ok out /\
    Amplitude_call (mk_Amplitude 1) data = Ok (np.map1 s_abs out).
Proof.
  intros Hshape Hwf HS HC HN.
  destruct (moveaxis_2_0 Sw Ch Ns data Hshape Hwf) as [out [Hout [Hsho [Hwfo Hgeto]]]].
  destruct (statistics_entries data Sw Ch Ns 1 Hshape Hwf HS HC)
    as [var [amp [en [_ [Hamp [_ [_ [[Hsha Hwfa] [_ Hent]]]]]]]]]; [lia |].
  change (Z.to_nat 1) with 1 in *.
  exists out. split; [exact Hout |]. rewrite Hamp. f_equal.
  apply ndarray_ext; try assumption.
  - now apply wf_map1.
  - rewrite Hsha. cbn [np.map1 shape]. rewrite Hsho. f_equal. lia.
  - intros idx Hin. rewrite Hsha in Hin. invert_bounds.
    match goal with
    | Hk : ?k < Ns - 1 + 1, Hi : ?i < Sw, Hj : ?j < Ch |- _ =>
        destruct (Hent k i j Hk Hi Hj) as [s [window [Hws [Hlen [_ [Ha _]]]]]];
        rewrite Ha, get_map1, (Hgeto i j k) by lia
    end.
    destruct window; [| cbn in Hlen; lia].
    unfold window_samples in Hws. cbn [seq traverse] in Hws.
    rewrite Nat.add_0_r in Hws.
    destruct (np.get data _) as [y|]; cbn [bind] in Hws |- *; [| discriminate].
    now injection Hws as ->.
Qed.

End BinSizeOne.

Lemma Amplitude_bin_1_abs_Raw_witness :
  shape recording_2x1x4 = [2; 1; 4] /\ wf recording_2x1x4 /\
  1 <= 2 /\ 1 <= 1 /\ 1 <= 4 /\
  exists out,
    Raw_call recording_2x1x4 = Ok out /\
    Amplitude_call (mk_Amplitude 1) recording_2x1x4 = Ok (np.map1 s_abs out).
Proof.
  assert (H1 : shape recording_2x1x4 = [2; 1; 4]) by reflexivity.
  assert (H2 : wf recording_2x1x4) by reflexivity.
  assert (H3 : 1 <= 2) by lia.
  assert (H4 : 1 <= 1) by lia.
  assert (H5 : 1 <= 4) by lia.
  repeat (split; [assumption |]).
  exact (Amplitude_bin_1_abs_Raw recording_2x1x4 2 1 4 H1 H2 H3 H4 H5).
Defined.

(** ** Rational samples *)

Lemma fold_maximum_ge (l : list Q) (x : Q) :
  (x <= fold_left (s_maximum (T := Q)) l x)%Q.
Proof.
  revert x. induction l as [|a l IH]; intros x; cbn [fold_left].
  - apply Qle_refl.
  - eapply Qle_trans; [| apply IH]. cbn.
    destruct (Qle_bool x a) eqn:E; [now apply Qle_bool_iff | apply Qle_refl].
Qed.

Lemma fold_minimum_le (l : list Q) (x : Q) :
  (fold_left (s_minimum (T := Q)) l x <= x)%Q.
Proof.
  revert x. induction l as [|a l IH]; intros x; cbn [fold_left].
  - apply Qle_refl.
  - eapply Qle_trans; [apply IH |]. cbn.
    destruct (Qle_bool a x) eqn:E; [now apply Qle_bool_iff | apply Qle_refl].
Qed.

Lemma fold_minimum_abs_nonneg (l : list Q) (x : Q) :
  (0 <= x)%Q -> (0 <= fold_left (s_minimum (T := Q)) (map Qabs l) x)%Q.
Proof.
  revert x. induction l as [|a l IH]; intros x Hx; cbn [fold_left map].
  - assumption.
  - apply IH. cbn. destruct (Qle_bool (Qabs a) x); [apply Qabs_nonneg | assumption].
Qed.

Lemma sum_squares_nonneg (l : list Q) :
  (0 <= np.add_reduce Qplus 0 (map (fun x => x * x)%Q l))%Q.
Proof.
  apply (add_reduce_closed Qplus 0%Q (fun q => (0 <= q)%Q)).
  - apply Qle_refl.
  - intros x y Hx Hy. lra.
  - apply Forall_forall. intros q Hq. apply in_map_iff in Hq as [x [<- _]]. nra.
Qed.

(** X5. On rational samples every entry of Variation lies between 0 and
    the entry of Amplitude at the same place, and every entry of Energy is
    at least 0. *)
Theorem rational_statistics_bounds (data : ndarray Q) (Sw Ch Ns : nat) (b : Z) :
  shape data = [Sw; Ch; Ns] -> wf data ->
  1 <= Sw -> 1 <= Ch -> (1 <= b <= Z.of_nat Ns)%Z ->
  exists var amp en,
    Variation_call (mk_Variation b) data = Ok var /\
    Amplitude_call (mk_Amplitude b) data = Ok amp /\
    Energy_call (mk_Energy b) data = Ok en /\
    forall k i j, k < Ns - Z.to_nat b + 1 -> i < Sw -> j < Ch ->
      exists v a e,
        np.get var [k; i; j] = Ok v /\
        np.get amp [k; i; j] = Ok a /\
        np.get en [k; i; j] = Ok e /\
        (0 <= v)%Q /\ (v <= a)%Q /\ (0 <= e)%Q.
Proof.
  intros Hshape Hwf HS HC Hb.
  destruct (statistics_entries data Sw Ch Ns b Hshape Hwf HS HC Hb)
    as [var [amp [en [Hvar [Hamp [Hen [_ [_ [_ Hent]]]]]]]]].
  exists var, amp, en. repeat (split; [assumption |]).
  intros k i j Hk Hi Hj.
  destruct (Hent k i j Hk Hi Hj) as [x [window [_ [_ [Hv [Ha He]]]]]].
  do 3 eexists. split; [exact Hv |]. split; [exact Ha |]. split; [exact He |].
  pose proof (fold_maximum_ge (map s_abs window) (s_abs x)) as Hmx.
  pose proof (fold_minimum_le (map s_abs window) (s_abs x)) as Hmn.
  pose proof (fold_minimum_abs_nonneg window (Qabs x) (Qabs_nonneg x)) as Hmn0.
  pose proof (sum_squares_nonneg (x :: window)) as Hsq.
  cbn [s_abs s_subtract s_add s_square s_zero Scalar_Q] in *.
  set (mx := fold_left _ _ _) in *. set (mn := fold_left s_minimum _ _) in *.
  repeat split; [lra | lra | exact Hsq].
Qed.

Lemma rational_statistics_bounds_witness :
  shape recording_2x1x4 = [2; 1; 4] /\ wf recording_2x1x4 /\
  1 <= 2 /\ 1 <= 1 /\ (1 <= 2 <= Z.of_nat 4)%Z /\
  exists var amp en,
    Variation_call (mk_Variation 2) recording_2x1x4 = Ok var /\
    Amplitude_call (mk_Amplitude 2) recording_2x1x4 = Ok amp /\
    Energy_call (mk_Energy 2) recording_2x1x4 = Ok en /\
    forall k i j, k < 4 - Z.to_nat 2 + 1 -> i < 2 -> j < 1 ->
      exists v a e,
        np.get var [k; i; j] = Ok v /\
        np.get amp [k; i; j] = Ok a /\
        np.get en [k; i; j] = Ok e /\
        (0 <= v)%Q /\ (v <= a)%Q /\ (0 <= e)%Q.
Proof.
  assert (H1 : shape recording_2x1x4 = [2; 1; 4]) by reflexivity.
  assert (H2 : wf recording_2x1x4) by reflexivity.
  assert (H3 : 1 <= 2) by lia.
  assert (H4 : 1 <= 1) by lia.
  assert (H5 : (1 <= 2 <= Z.of_nat 4)%Z) by lia.
  repeat (split; [assumption |]).
  exact (rational_statistics_bounds recording_2x1x4 2 1 4 2 H1 H2 H3 H4 H5).
Defined.

(** ** Raw beyond three dimensions, and Raw repeated *)

Lemma filter_ne_2_seq (m s : nat) :
  3 <= s -> filter (fun n => negb (n =? 2)) (seq s m) = seq s m.
Proof.
  intros Hs. apply forallb_filter_id. apply forallb_forall.
  intros x Hx. apply in_seq in Hx. apply negb_true_iff, Nat.eqb_neq. lia.
Qed.

Lemma index_of_seq (m s t : nat) : t < m -> np.index_of (s + t) (seq s m) = t.
Proof.
  revert s t. induction m as [|m IH]; intros s t Ht; [lia |].
  cbn [seq np.index_of]. destruct t as [|t].
  - now rewrite Nat.add_0_r, Nat.eqb_refl.
  - rewrite (proj2 (Nat.eqb_neq (s + S t) s)) by lia.
    f_equal. replace (s + S t) with (S s + t) by lia. apply IH. lia.
Qed.

Lemma map_nth_seq {X : Type} (pre rest : list X) (d : X) :
  map (fun ax => nth ax (pre ++ rest) d) (seq (length pre) (length rest)) = rest.
Proof.
  revert pre. induction rest as [|x rest IH]; intros pre; cbn [length seq map].
  - reflexivity.
  - f_equal.
    + now rewrite app_nth2, Nat.sub_diag by lia.
    + specialize (IH (pre ++ [x])). rewrite <- app_assoc, length_app in IH.
      cbn [length app] in IH. now rewrite Nat.add_1_r in IH.
Qed.

Lemma map_nth_seq_3 {X : Type} (a b c : X) (rest : list X) (d : X) :
  map (fun ax => nth ax (a :: b :: c :: rest) d) (seq 3 (length rest)) = rest.
Proof. exact (map_nth_seq [a; b; c] rest d). Qed.

Lemma moveaxis_2_0_index (k i j : nat) (r : list nat) :
  map (fun ax => nth (np.index_of ax (2 :: 0 :: 1 :: seq 3 (length r))) (k :: i :: j :: r) 0)
      (seq 3 (length r)) = r.
Proof.
  transitivity (map (fun ax => nth ax (k :: i :: j :: r) 0) (seq 3 (length r)));
    [| apply map_nth_seq_3].
  apply map_ext_in. intros ax Hax. apply in_seq in Hax. f_equal.
  destruct ax as [|[|[|n]]]; try lia.
  cbn [np.index_of Nat.eqb]. do 3 f_equal.
  apply (index_of_seq (length r) 3 n). lia.
Qed.

Lemma moveaxis_2_0_nd {A : Type} (data : ndarray A) (s0 s1 s2 : nat) (rest : list nat) :
  shape data = s0 :: s1 :: s2 :: rest -> wf data ->
  exists out,
    np.moveaxis data 2 0 = Ok out /\ shape out = s2 :: s0 :: s1 :: rest /\ wf out /\
    forall i j k r, i < s0 -> j < s1 -> k < s2 -> in_bounds rest r ->
      np.get out (k :: i :: j :: r) = np.get data (i :: j :: k :: r).
Proof.
  intros Hshape Hwf. unfold np.moveaxis, np.transpose, ndim. rewrite Hshape.
  cbn [length Nat.leb seq filter Nat.eqb negb]. rewrite filter_ne_2_seq by lia.
  cbn [firstn skipn app].
  assert (Hsh0 : map (fun ax => nth ax (s0 :: s1 :: s2 :: rest) 0)
                   (2 :: 0 :: 1 :: seq 3 (length rest)) = s2 :: s0 :: s1 :: rest).
  { cbn [map]. now rewrite map_nth_seq_3. }
  rewrite Hsh0.
  assert (Hf : forall i j k r, in_bounds rest r ->
            map (fun ax => nth (np.index_of ax (2 :: 0 :: 1 :: seq 3 (length rest)))
                             (k :: i :: j :: r) 0)
                (0 :: 1 :: 2 :: seq 3 (length rest)) = i :: j :: k :: r).
  { intros i j k r Hr. cbn [map].
    rewrite <- (Forall2_length_eq _ _ _ Hr), moveaxis_2_0_index.
    reflexivity. }
  match goal with |- context [np.build ?sh ?g] =>
    destruct (build_spec sh g) as [out [Hout [Hsh [Hwfo Hget]]]] end.
  - intros idx Hin. invert_bounds.
    match goal with Hr : Forall2 lt _ rest |- _ => rewrite (Hf _ _ _ _ Hr) end.
    apply get_in_bounds; [assumption |]. rewrite Hshape.
    unfold in_bounds. repeat (constructor; [lia |]). assumption.
  - exists out. repeat split; try assumption.
    intros i j k r Hi Hj Hk Hr. rewrite Hget.
    + now rewrite (Hf _ _ _ _ Hr).
    + unfold in_bounds. repeat (constructor; [lia |]). assumption.
Qed.

Section RawFurther.

Context {T : Type} {ST : Scalar T}.

(** X6. On every array of 3 or more dimensions Raw moves axis 2 to the
    front and leaves the order of all other axes alone: the result has shape
    (s2, s0, s1, rest...) and its entry at (k, i, j, r...) is the input's
    entry at (i, j, k, r...). *)
Theorem Raw_moves_axis_2_nd (data : ndarray T) (s0 s1 s2 : nat) (rest : list nat) :
  shape data = s0 :: s1 :: s2 :: rest -> wf data ->
  exists out,
    Raw_call data = Ok out /\ shape out = s2 :: s0 :: s1 :: rest /\ wf out /\
    forall i j k r, i < s0 -> j < s1 -> k < s2 -> in_bounds rest r ->
      exists x, np.get out (k :: i :: j :: r) = Ok x /\
                np.get data (i :: j :: k :: r) = Ok x.
Proof.
  intros Hshape Hwf.
  destruct (moveaxis_2_0_nd data s0 s1 s2 rest Hshape Hwf) as [out [Hout [Hsh [Hwfo Hget]]]].
  exists out. repeat split; try assumption.
  intros i j k r Hi Hj Hk Hr.
  destruct (get_in_bounds data (i :: j :: k :: r) Hwf) as [x Hx].
  - rewrite Hshape. unfold in_bounds. repeat (constructor; [lia |]). assumption.
  - exists x. split; [| assumption]. now rewrite Hget.
Qed.

(** X7. On a 3-dimensional array Raw is a rotation of the three axes:
    applied three times in a row it gives the array back. *)
Theorem Raw_three_times (data : ndarray T) (Sw Ch Ns : nat) :
  shape data = [Sw; Ch; Ns] -> wf data ->
  exists once twice,
    Raw_call data = Ok once /\ shape once = [Ns; Sw; Ch] /\
    Raw_call once = Ok twice /\ shape twice = [Ch; Ns; Sw] /\
    Raw_call twice = Ok data.
Proof.
  intros Hshape Hwf. unfold Raw_call.
  destruct (moveaxis_2_0 Sw Ch Ns data Hshape Hwf) as [o1 [H1 [Hs1 [Hw1 Hg1]]]].
  destruct (moveaxis_2_0 Ns Sw Ch o1 Hs1 Hw1) as [o2 [H2 [Hs2 [Hw2 Hg2]]]].
  destruct (moveaxis_2_0 Ch Ns Sw o2 Hs2 Hw2) as [o3 [H3 [Hs3 [Hw3 Hg3]]]].
  exists o1, o2. repeat split; try assumption.
  rewrite H3. f_equal. apply ndarray_ext; try assumption; [congruence |].
  intros idx Hin. rewrite Hs3 in Hin. invert_bounds.
  rewrite Hg3, Hg2, Hg1 by assumption. reflexivity.
Qed.

End RawFurther.

Lemma Raw_moves_axis_2_nd_witness :
  shape array_2x1x2x2 = 2 :: 1 :: 2 :: [2] /\ wf array_2x1x2x2 /\
  exists out,
    Raw_call array_2x1x2x2 = Ok out /\ shape out = 2 :: 2 :: 1 :: [2] /\ wf out /\
    forall i j k r, i < 2 -> j < 1 -> k < 2 -> in_bounds [2] r ->
      exists x, np.get out (k :: i :: j :: r) = Ok x /\
                np.get array_2x1x2x2 (i :: j :: k :: r) = Ok x.
Proof.
  assert (H1 : shape array_2x1x2x2 = 2 :: 1 :: 2 :: [2]) by reflexivity.
  assert (H2 : wf array_2x1x2x2) by reflexivity.
  repeat (split; [assumption |]).
  exact (Raw_moves_axis_2_nd array_2x1x2x2 2 1 2 [2] H1 H2).
Defined.

Example Raw_2x1x2x2 :
  Raw_call array_2x1x2x2
  = Ok (mk_ndarray [2; 2; 1; 2] (map inject_Z [1; 2; 5; 6; 3; 4; 7; 8]%Z)).
Proof. reflexivity. Qed.

Lemma Raw_three_times_witness :
  shape recording_2x1x4 = [2; 1; 4] /\ wf recording_2x1x4 /\
  exists once twice,
    Raw_call recording_2x1x4 = Ok once /\ shape once = [4; 2; 1] /\
    Raw_call once = Ok twice /\ shape twice = [1; 4; 2] /\
    Raw_call twice = Ok recording_2x1x4.
Proof.
  assert (H1 : shape recording_2x1x4 = [2; 1; 4]) by reflexivity.
  assert (H2 : wf recording_2x1x4) by reflexivity.
  repeat (split; [assumption |]).
  exact (Raw_three_times recording_2x1x4 2 1 4 H1 H2).
Defined.

(** ** Further properties of artifact detection *)

Lemma get_1d {A : Type} (m : ndarray A) (n i : nat) :
  shape m = [n] -> i < n ->
  np.get m [i] =
  match nth_error (buf m) i with
  | Some x => Ok x
  | None => Raise (IndexError "index out of bounds")
  end.
Proof.
  intros Hsh Hi. unfold np.get. rewrite Hsh. cbn [offset size fold_right].
  rewrite (proj2 (Nat.ltb_lt i n) Hi). cbn [option_map].
  now replace (i * 1 + 0) with i by lia.
Qed.

Section DetectFurther.

Context {T : Type} {ST : Scalar T}.

(** The detector on an array of 3 or more dimensions: one mask entry per
    index of the axes other than 1 and 2. *)
Lemma DetectArtifacts_nd
    (data : ndarray T) (file : File T) (s0 s1 s2 : nat) (rest : list nat) :
  shape data = s0 :: s1 :: s2 :: rest -> wf data ->
  exists m,
    DetectArtifacts_call data file = Ok (Mask m) /\
    shape m = s0 :: rest /\ wf m /\
    forall i r, i < s0 -> in_bounds rest r ->
      exists samples,
        traverse (fun jk => np.get data (i :: fst jk :: snd jk :: r))
          (list_prod (seq 0 s1) (seq 0 s2)) = Ok samples /\
        length samples = s1 * s2 /\
        np.get m (i :: r) =
        Ok (80 <? count_above (s_multiply (convert file (max_volt file)) s_098) samples).
Proof.
  intros Hshape Hwf. unfold DetectArtifacts_call, ndim. rewrite Hshape.
  cbn [length Nat.ltb Nat.leb].
  set (up := s_multiply (convert file (max_volt file)) s_098).
  unfold np.sum_axis_1_2. cbn [np.map1 shape]. rewrite Hshape.
  match goal with |- context [np.build ?sh ?g] =>
    assert (Hg : forall i r, i < s0 -> in_bounds rest r ->
              exists samples,
                traverse (fun jk => np.get data (i :: fst jk :: snd jk :: r))
                  (list_prod (seq 0 s1) (seq 0 s2)) = Ok samples /\
                length samples = s1 * s2 /\
                g (i :: r) = Ok (count_above up samples));
    [| destruct (build_spec sh g) as [counts [Hc [Hsh [Hwfc Hget]]]] ]
  end.
  - intros i r Hi Hr.
    destruct (traverse_ok (fun jk => np.get data (i :: fst jk :: snd jk :: r))
                (list_prod (seq 0 s1) (seq 0 s2))) as [samples [Hs _]].
    { intros [j k] Hin. apply in_prod_iff in Hin as [Hj Hk].
      apply in_seq in Hj. apply in_seq in Hk. cbn [fst snd].
      apply get_in_bounds; [assumption |]. rewrite Hshape.
      unfold in_bounds. repeat (constructor; [lia |]). assumption. }
    exists samples. split; [assumption |]. split.
    { now rewrite (traverse_length _ _ _ Hs), length_prod, !length_seq. }
    cbn beta iota.
    rewrite (traverse_ext _
               (fun jk => x <- np.get data (i :: fst jk :: snd jk :: r) ;;
                          Ok (s_greater x up))).
    + rewrite traverse_bind_map, Hs. cbn [bind]. unfold count_above.
      now rewrite filter_id_map.
    + intros jk _. apply (get_map1 (fun x => s_greater x up) data).
  - intros idx Hin. invert_bounds.
    match goal with
    | Hi : ?i < s0, Hr : Forall2 lt ?r rest |- _ =>
        destruct (Hg i r Hi Hr) as [samples [_ [_ Hv]]]
    end.
    cbn beta iota in Hv. eexists. exact Hv.
  - rewrite Hc. cbn [bind].
    exists (np.map1 (fun c => 80 <? c) counts).
    split; [reflexivity |]. split; [exact Hsh |]. split; [now apply wf_map1 |].
    intros i r Hi Hr. destruct (Hg i r Hi Hr) as [samples [Hs [Hlen Hv]]].
    exists samples. split; [assumption |]. split; [assumption |].
    rewrite get_map1, Hget by (unfold in_bounds; constructor; assumption).
    cbn beta iota in Hv |- *. now rewrite Hv.
Qed.

(** X8. A sweep that holds at most 80 samples over all its channels can
    never be flagged: when channels * samples <= 80 the detector's mask is
    False throughout, whatever the voltages. *)
Theorem DetectArtifacts_short_sweeps
    (data : ndarray T) (file : File T) (s0 s1 s2 : nat) (rest : list nat) :
  shape data = s0 :: s1 :: s2 :: rest -> wf data -> s1 * s2 <= 80 ->
  exists m,
    DetectArtifacts_call data file = Ok (Mask m) /\
    shape m = s0 :: rest /\
    forall i r, i < s0 -> in_bounds rest r -> np.get m (i :: r) = Ok false.
Proof.
  intros Hshape Hwf Hsmall.
  destruct (DetectArtifacts_nd data file s0 s1 s2 rest Hshape Hwf)
    as [m [Hm [Hsh [_ Hent]]]].
  exists m. repeat split; try assumption.
  intros i r Hi Hr. destruct (Hent i r Hi Hr) as [samples [_ [Hlen ->]]].
  f_equal. apply Nat.ltb_ge. unfold count_above.
  pose proof (filter_length_le
                (fun x => s_greater x (s_multiply (convert file (max_volt file)) s_098))
                samples).
  lia.
Qed.

(** X9. On an array of more than 3 dimensions the detector still answers:
    it counts over axes 1 and 2 and returns a mask of 2 or more dimensions,
    which the shutter then rejects with its ValueError, leaving the mask
    untouched. *)
Theorem DetectArtifacts_above_3d_then_Shutter
    {R : Type} (data : ndarray T) (file : File T) (self : Shutter T R)
    (s0 s1 s2 s3 : nat) (rest : list nat) :
  shape data = s0 :: s1 :: s2 :: s3 :: rest -> wf data ->
  exists m,
    DetectArtifacts_call data file = Ok (Mask m) /\
    shape m = s0 :: s3 :: rest /\
    Shutter_call self m file = (m, Raise (ValueError "mask must be a 1dim array.")).
Proof.
  intros Hshape Hwf.
  destruct (DetectArtifacts_nd data file s0 s1 s2 (s3 :: rest) Hshape Hwf)
    as [m [Hm [Hsh _]]].
  exists m. repeat split; try assumption.
  unfold Shutter_call, ndim. now rewrite Hsh.
Qed.

End DetectFurther.

Lemma DetectArtifacts_short_sweeps_witness :
  shape recording_2x1x4 = 2 :: 1 :: 4 :: [] /\ wf recording_2x1x4 /\ 1 * 4 <= 80 /\
  exists m,
    DetectArtifacts_call recording_2x1x4 file_10V = Ok (Mask m) /\
    shape m = 2 :: [] /\
    forall i r, i < 2 -> in_bounds [] r -> np.get m (i :: r) = Ok false.
Proof.
  assert (H1 : shape recording_2x1x4 = 2 :: 1 :: 4 :: []) by reflexivity.
  assert (H2 : wf recording_2x1x4) by reflexivity.
  assert (H3 : 1 * 4 <= 80) by (cbn; lia).
  repeat (split; [assumption |]).
  exact (DetectArtifacts_short_sweeps recording_2x1x4 file_10V 2 1 4 [] H1 H2 H3).
Defined.

Lemma DetectArtifacts_above_3d_then_Shutter_witness :
  let self := mk_Shutter six_rows (3 # 1000)%Q in
  shape array_2x1x2x2 = 2 :: 1 :: 2 :: 2 :: [] /\ wf array_2x1x2x2 /\
  exists m,
    DetectArtifacts_call array_2x1x2x2 file_10V = Ok (Mask m) /\
    shape m = 2 :: 2 :: [] /\
    Shutter_call self m file_10V = (m, Raise (ValueError "mask must be a 1dim array.")).
Proof.
  intros self.
  assert (H1 : shape array_2x1x2x2 = 2 :: 1 :: 2 :: 2 :: []) by reflexivity.
  assert (H2 : wf array_2x1x2x2) by reflexivity.
  repeat (split; [assumption |]).
  exact (DetectArtifacts_above_3d_then_Shutter array_2x1x2x2 file_10V self 2 1 2 2 []
           H1 H2).
Defined.

(** ** The delay in index units *)

Lemma py_int_nonpos (x : Q) : (x <= 0)%Q -> py_int x = (- Qfloor (- x))%Z.
Proof.
  intros Hx. rewrite <- (py_int_nonneg (- x)) by lra.
  rewrite py_int_opp. lia.
Qed.

Lemma py_int_mono (x y : Q) : (x <= y)%Q -> (py_int x <= py_int y)%Z.
Proof.
  intros Hxy. destruct (Qlt_le_dec x 0) as [Hx | Hx]; destruct (Qlt_le_dec y 0) as [Hy | Hy].
  - rewrite !py_int_nonpos by lra.
    assert (Qfloor (- y) <= Qfloor (- x))%Z by (apply Qfloor_resp_le; lra). lia.
  - rewrite (py_int_nonpos x), (py_int_nonneg y) by lra.
    assert (0 <= Qfloor (- x))%Z by (change 0%Z with (Qfloor 0); apply Qfloor_resp_le; lra).
    assert (0 <= Qfloor y)%Z by (change 0%Z with (Qfloor 0); apply Qfloor_resp_le; lra).
    lia.
  - lra.
  - rewrite !py_int_nonneg by lra. now apply Qfloor_resp_le.
Qed.

(** Truncation goes toward zero and misses its argument by less than one. *)
Lemma py_int_toward_zero (x : Q) :
  ((0 <= x)%Q -> (0 <= py_int x)%Z /\ (inject_Z (py_int x) <= x < inject_Z (py_int x) + 1)%Q) /\
  ((x <= 0)%Q -> (py_int x <= 0)%Z /\ (inject_Z (py_int x) - 1 < x <= inject_Z (py_int x))%Q).
Proof.
  split; intros Hx.
  - rewrite py_int_nonneg by assumption.
    pose proof (Qfloor_le x) as Hl. pose proof (Qlt_floor x) as Hu.
    rewrite inject_Z_plus in Hu. change (inject_Z 1) with 1%Q in Hu.
    assert (0 <= Qfloor x)%Z by (change 0%Z with (Qfloor 0); now apply Qfloor_resp_le).
    repeat split; [assumption | lra | lra].
  - rewrite py_int_nonpos by assumption.
    pose proof (Qfloor_le (- x)) as Hl. pose proof (Qlt_floor (- x)) as Hu.
    rewrite inject_Z_plus in Hu. change (inject_Z 1) with 1%Q in Hu.
    rewrite inject_Z_opp.
    assert (0 <= Qfloor (- x))%Z by (change 0%Z with (Qfloor 0); apply Qfloor_resp_le; lra).
    repeat split; [lia | lra | lra].
Qed.

(** X10. On floats the delay is the computed product
    (delay_ms * sampling_rate) * 1000 rounded toward zero: when the computed
    product is finite and not below zero the delay is the largest integer not
    above it, when it is not above zero the smallest integer not below it;
    either way it misses the computed product by less than one index. When
    the computed product is infinite or NaN, [int()] raises. *)
Theorem ms_to_idx_toward_zero (file : File float) (delay_ms : float) :
  match float_value (delay_ms * sampling_rate file * 1000)%float with
  | Some x =>
      exists d,
        ms_to_idx file delay_ms = Ok d /\
        ((0 <= x)%Q -> (0 <= d)%Z /\ (inject_Z d <= x < inject_Z d + 1)%Q) /\
        ((x <= 0)%Q -> (d <= 0)%Z /\ (inject_Z d - 1 < x <= inject_Z d)%Q)
  | None =>
      ms_to_idx file delay_ms
      = Raise (OverflowError "cannot convert float infinity to integer") \/
      ms_to_idx file delay_ms
      = Raise (ValueError "cannot convert float NaN to integer")
  end.
Proof.
  unfold ms_to_idx. cbn [s_int s_multiply s_1000 Scalar_float].
  destruct (float_value (delay_ms * sampling_rate file * 1000)%float) as [x|] eqn:E.
  - exists (py_int x). split; [now apply float_int_value |]. apply py_int_toward_zero.
  - now apply float_int_no_value.
Qed.

(** On exact numbers (Python ints and Fractions, where the product is not
    rounded) and with a non-negative sampling rate, the delay is always
    computed and never shrinks when delay_ms grows. *)
Lemma ms_to_idx_monotone_exact (file : File Q) (d1 d2 : Q) :
  (0 <= sampling_rate file)%Q -> (d1 <= d2)%Q ->
  exists i1 i2,
    ms_to_idx file d1 = Ok i1 /\ ms_to_idx file d2 = Ok i2 /\ (i1 <= i2)%Z.
Proof.
  intros Hs Hd. do 2 eexists. split; [reflexivity |]. split; [reflexivity |].
  apply py_int_mono. cbn [s_multiply s_1000 Scalar_Q].
  apply Qmult_le_compat_r; [| discriminate].
  now apply Qmult_le_compat_r.
Qed.

(** X11. On floats, with a sampling rate that is not below zero, the delay
    never shrinks when delay_ms grows: of two delays that are computed (the
    two roundings of the product and the truncation of [int()] included),
    the one of the larger delay_ms is not the smaller. *)
Theorem ms_to_idx_monotone (file : File float) (d1 d2 : float) (i1 i2 : Z) :
  (0 <=? sampling_rate file)%float = true -> (d1 <=? d2)%float = true ->
  ms_to_idx file d1 = Ok i1 -> ms_to_idx file d2 = Ok i2 -> (i1 <= i2)%Z.
Proof. apply ms_to_idx_float_mono. Qed.

Example ms_to_idx_float_cases :
  ms_to_idx file_10V_float ms_0_003 = Ok 3%Z /\
  ms_to_idx file_10V_float ms_0_0005 = Ok 0%Z /\
  ms_to_idx file_10V_float ms_minus_0_0015 = Ok (-1)%Z /\
  ms_to_idx file_1024Hz ms_2_pow_1023
  = Raise (OverflowError "cannot convert float infinity to integer") /\
  ms_to_idx file_1024Hz (ms_2_pow_1023 * ms_2_pow_1023 * 0)%float
  = Raise (ValueError "cannot convert float NaN to integer").
Proof. repeat split; vm_compute; reflexivity. Qed.

Lemma ms_to_idx_monotone_witness :
  (0 <=? sampling_rate file_10V_float)%float = true /\
  (ms_0_002 <=? ms_0_003)%float = true /\
  ms_to_idx file_10V_float ms_0_002 = Ok 2%Z /\
  ms_to_idx file_10V_float ms_0_003 = Ok 3%Z /\ (2 <= 3)%Z.
Proof.
  assert (H1 : (0 <=? sampling_rate file_10V_float)%float = true)
    by (vm_compute; reflexivity).
  assert (H2 : (ms_0_002 <=? ms_0_003)%float = true) by (vm_compute; reflexivity).
  assert (H3 : ms_to_idx file_10V_float ms_0_002 = Ok 2%Z) by (vm_compute; reflexivity).
  assert (H4 : ms_to_idx file_10V_float ms_0_003 = Ok 3%Z) by (vm_compute; reflexivity).
  repeat (split; [assumption |]).
  exact (ms_to_idx_monotone file_10V_float ms_0_002 ms_0_003 2 3 H1 H2 H3 H4).
Defined.

(** ** Further properties of the shutter *)

Lemma set_slice_empty {A : Type} (l : list A) (start : nat) (stop : Z) (v : A) :
  np.slice_stop (length l) stop <= start -> np.set_slice l start stop v = l.
Proof.
  intros H. unfold np.set_slice. now rewrite (proj2 (Nat.ltb_ge _ _) H).
Qed.

(** A delay of -1, 0 or 1 index: the slice written from a flagged index
    holds at most that index, and the loop changes nothing. *)
Lemma Shutter_loop_short (delay : Z) (i : nat) (mask : list bool) :
  (-1 <= delay <= 1)%Z -> i < length mask \/ i = 0 ->
  Shutter_loop delay i mask = mask.
Proof.
  intros Hd Hi. destruct (Shutter_loop_spec delay i mask Hi) as [Hlen Hspec].
  apply (nth_ext _ _ false false); [assumption |].
  intros j Hj. rewrite Hlen in Hj. specialize (Hspec j Hj).
  destruct (nth j (Shutter_loop delay i mask) false) eqn:E1,
           (nth j mask false) eqn:E2; try reflexivity.
  - destruct (proj1 Hspec eq_refl) as [H | [i' [Hi' [Hf Hr]]]]; [discriminate |].
    unfold np.slice_stop in Hr.
    destruct (Z.ltb_spec (Z.of_nat i' + delay) 0) as [Hneg | Hnn]; [lia |].
    assert (j = i') by lia. subst j. congruence.
  - apply Hspec. now left.
Qed.

Lemma Shutter_loop_unflagged (delay : Z) (i : nat) (mask : list bool) :
  (forall j, 1 <= j -> nth j mask false = false) -> Shutter_loop delay i mask = mask.
Proof.
  intros H. induction i as [|i IH]; cbn [Shutter_loop]; [reflexivity |].
  rewrite (H (S i)) by lia. exact IH.
Qed.

Lemma bool_index_In {R : Type} (data : list R) (mask : list bool) (j : nat) (r : R) :
  nth j mask false = true -> nth_error data j = Some r ->
  In r (map fst (filter snd (combine data mask))).
Proof.
  revert mask j. induction data as [|x data IH]; intros mask j Hm Hd.
  - destruct j; discriminate.
  - destruct mask as [|b mask]; [destruct j; discriminate |].
    destruct j as [|j]; cbn in Hm, Hd.
    + subst b. injection Hd as ->. cbn. now left.
    + cbn [combine filter snd]. destruct b; cbn [map fst]; [right |]; eapply IH; eassumption.
Qed.

Lemma length_bool_index_le {R : Type} (data : list R) (mask : list bool) :
  length (map fst (filter snd (combine data mask))) <= length mask.
Proof.
  rewrite length_map.
  pose proof (filter_length_le snd (combine data mask)) as H.
  rewrite length_combine in H. lia.
Qed.

Lemma Shutter_loop_keeps (delay : Z) (i j : nat) (mask : list bool) :
  i < length mask \/ i = 0 ->
  nth j mask false = true -> nth j (Shutter_loop delay i mask) false = true.
Proof.
  intros Hi Hj.
  assert (j < length mask).
  { destruct (Nat.lt_ge_cases j (length mask)) as [H | H]; [assumption |].
    rewrite nth_overflow in Hj by assumption. discriminate. }
  destruct (Shutter_loop_spec delay i mask Hi) as [_ Hspec].
  apply Hspec; [assumption | now left].
Qed.

Lemma bool_index_In_inv {R : Type} (data : list R) (mask : list bool) (r : R) :
  In r (map fst (filter snd (combine data mask))) ->
  exists j, nth j mask false = true /\ nth_error data j = Some r.
Proof.
  revert mask. induction data as [|x data IH]; intros mask Hin; [contradiction |].
  destruct mask as [|b mask]; [contradiction |].
  cbn [combine filter snd] in Hin. destruct b; cbn [map fst] in Hin.
  - destruct Hin as [-> | Hin]; [now exists 0 |].
    destruct (IH mask Hin) as [j Hj]. now exists (S j).
  - destruct (IH mask Hin) as [j Hj]. now exists (S j).
Qed.

(** The loop flags more when the delay is longer. *)
Lemma Shutter_loop_longer (d1 d2 : Z) (n j : nat) (mask : list bool) :
  (0 <= d1 <= d2)%Z -> length mask = n ->
  nth j (Shutter_loop d1 (n - 1) mask) false = true ->
  nth j (Shutter_loop d2 (n - 1) mask) false = true.
Proof.
  intros Hd Hn Hj.
  destruct (Shutter_loop_spec d1 (n - 1) mask) as [Hl1 Hs1]; [lia |].
  destruct (Shutter_loop_spec d2 (n - 1) mask) as [Hl2 Hs2]; [lia |].
  assert (Hjn : j < n).
  { destruct (Nat.lt_ge_cases j n) as [H | H]; [assumption |].
    rewrite nth_overflow in Hj by lia. discriminate. }
  apply Hs2; [lia |].
  apply Hs1 in Hj; [| lia]. destruct Hj as [H | [i [Hi [Hf Hr]]]]; [now left |].
  right. exists i. rewrite slice_stop_nonneg in Hr |- * by lia.
  repeat split; try assumption; lia.
Qed.

Section ShutterFurther.

Context {T : Type} {ST : Scalar T} {R : Type}.

(** When the loop leaves the buffer as it is, the call returns the caller's
    mask unchanged and the rows it flags. *)
Lemma Shutter_call_unchanged (self : Shutter T R) (mask : ndarray bool) (file : File T)
    (n : nat) (d : Z) :
  shape mask = [n] -> wf mask -> length (Shutter_data self) = n ->
  ms_to_idx file (Shutter_delay_ms self) = Ok d ->
  Shutter_loop d (n - 1) (buf mask) = buf mask ->
  exists rows,
    Shutter_call self mask file = (mask, Ok rows) /\
    map Some rows =
    map (nth_error (Shutter_data self))
      (filter (fun j => nth j (buf mask) false) (seq 0 n)).
Proof.
  intros Hshape Hwf Hdata Hd Hloop.
  destruct (Shutter_call_1d self mask file n d Hshape Hwf Hdata Hd) as [Hlen Hcall].
  rewrite Hloop in Hcall, Hlen.
  exists (map fst (filter snd (combine (Shutter_data self) (buf mask)))). split.
  - rewrite Hcall. f_equal. destruct mask as [sh b]. cbn [shape buf] in *. now subst sh.
  - replace (seq 0 n) with (seq 0 (length (buf mask))) by now rewrite Hlen.
    apply bool_index_rows. congruence.
Qed.

(** X12. The expansion only ever adds flags: for every computed delay,
    negative ones included, each entry flagged before the call is flagged
    after it, the mask keeps its length, and every row of the dataset at a
    flagged entry is among the rows returned. *)
Theorem Shutter_keeps_flags
    (self : Shutter T R) (mask : ndarray bool) (file : File T) (n : nat) (d : Z) :
  shape mask = [n] -> wf mask -> length (Shutter_data self) = n ->
  ms_to_idx file (Shutter_delay_ms self) = Ok d ->
  exists expanded rows,
    Shutter_call self mask file = (mk_ndarray [n] expanded, Ok rows) /\
    length expanded = n /\
    length rows <= n /\
    (forall j, nth j (buf mask) false = true -> nth j expanded false = true) /\
    (forall j r, nth j (buf mask) false = true ->
       nth_error (Shutter_data self) j = Some r -> In r rows).
Proof.
  intros Hshape Hwf Hdata Hd.
  destruct (Shutter_call_1d self mask file n d Hshape Hwf Hdata Hd) as [Hlen Hcall].
  set (expanded := Shutter_loop d (n - 1) (buf mask)) in *.
  assert (Hn : length (buf mask) = n).
  { unfold wf in Hwf. rewrite Hwf, Hshape. cbn. lia. }
  assert (Hkeep : forall j, nth j (buf mask) false = true -> nth j expanded false = true).
  { intros j Hj. apply Shutter_loop_keeps; [lia | assumption]. }
  exists expanded, (map fst (filter snd (combine (Shutter_data self) expanded))).
  repeat split; try assumption.
  - pose proof (length_bool_index_le (Shutter_data self) expanded) as Hle.
    now rewrite Hlen in Hle.
  - intros j r Hj Hr. eapply bool_index_In; [apply Hkeep |]; eassumption.
Qed.

(** X13. A computed delay of -1, 0 or 1 index does nothing: the mask comes
    back unchanged and the call returns exactly the rows at its flagged
    entries, in order. *)
Theorem Shutter_delay_at_most_one_index
    (self : Shutter T R) (mask : ndarray bool) (file : File T) (n : nat) (d : Z) :
  shape mask = [n] -> wf mask -> length (Shutter_data self) = n ->
  ms_to_idx file (Shutter_delay_ms self) = Ok d -> (-1 <= d <= 1)%Z ->
  exists rows,
    Shutter_call self mask file = (mask, Ok rows) /\
    map Some rows =
    map (nth_error (Shutter_data self))
      (filter (fun j => nth j (buf mask) false) (seq 0 n)).
Proof.
  intros Hshape Hwf Hdata Hd Hsmall.
  apply (Shutter_call_unchanged self mask file n d); try assumption.
  apply Shutter_loop_short; [assumption |].
  unfold wf in Hwf. rewrite Hwf, Hshape. cbn. lia.
Qed.

(** X14. A flag at index 0 is never expanded: when no entry from index 1
    on is flagged, the mask comes back unchanged for every computed delay,
    and at most row 0 is returned. *)
Theorem Shutter_index_0_not_expanded
    (self : Shutter T R) (mask : ndarray bool) (file : File T) (n : nat) (d : Z) :
  shape mask = [n] -> wf mask -> length (Shutter_data self) = n ->
  ms_to_idx file (Shutter_delay_ms self) = Ok d ->
  (forall j, 1 <= j -> nth j (buf mask) false = false) ->
  exists rows,
    Shutter_call self mask file = (mask, Ok rows) /\
    map Some rows =
    map (nth_error (Shutter_data self))
      (filter (fun j => nth j (buf mask) false) (seq 0 n)) /\
    length rows <= 1.
Proof.
  intros Hshape Hwf Hdata Hd H0.
  destruct (Shutter_call_unchanged self mask file n d Hshape Hwf Hdata Hd)
    as [rows [Hc Hr]].
  { now apply Shutter_loop_unflagged. }
  exists rows. repeat split; try assumption.
  rewrite <- (length_map Some), Hr, length_map.
  destruct n as [|n]; [cbn; lia |]. cbn [seq filter].
  replace (filter _ (seq 1 n)) with (@nil nat).
  - destruct (nth 0 (buf mask) false); cbn; lia.
  - symmetry. rewrite <- (filter_ext_in (fun _ => false)).
    + clear. induction (seq 1 n); cbn; auto.
    + intros j Hj. apply in_seq in Hj. symmetry. apply H0. lia.
Qed.

(** X15. When the dataset does not have one row per mask entry the call
    raises IndexError, but only after the expansion: the caller's mask is
    left exactly as a call that succeeds with the same delay leaves it. *)
Theorem Shutter_wrong_row_count
    (self other : Shutter T R) (mask : ndarray bool) (file : File T) (n : nat) (d : Z) :
  shape mask = [n] -> wf mask ->
  length (Shutter_data self) <> n ->
  length (Shutter_data other) = n ->
  Shutter_delay_ms other = Shutter_delay_ms self ->
  ms_to_idx file (Shutter_delay_ms self) = Ok d ->
  snd (Shutter_call self mask file)
  = Raise (IndexError "boolean index did not match indexed array along axis 0") /\
  (exists rows, snd (Shutter_call other mask file) = Ok rows) /\
  fst (Shutter_call self mask file) = fst (Shutter_call other mask file).
Proof.
  intros Hshape Hwf Hself Hother Hdm Hd.
  assert (Hd' : ms_to_idx file (Shutter_delay_ms other) = Ok d) by now rewrite Hdm.
  destruct (Shutter_call_1d other mask file n d Hshape Hwf Hother Hd') as [Hlen Hcall].
  rewrite Hcall. cbn [fst snd].
  unfold Shutter_call, ndim, np.len. rewrite Hshape, Hd.
  cbn [length Nat.ltb Nat.leb fst snd].
  unfold np.bool_index. cbn [buf]. rewrite Hlen.
  rewrite (proj2 (Nat.eqb_neq _ _) Hself).
  repeat split. now eexists.
Qed.

(** X16. A negative delay is read by the slice as an end counted from the
    end of the mask. With d < 0 the computed delay and n the mask's length,
    a flag at index i >= 1 with i < -d flags the entries from i up to, not
    including, i + d + n, and a flag at i >= -d flags nothing more; with
    d <= -n the mask comes back unchanged. *)
Theorem Shutter_negative_delay
    (self : Shutter T R) (mask : ndarray bool) (file : File T) (n : nat) (d : Z) :
  shape mask = [n] -> wf mask -> length (Shutter_data self) = n ->
  ms_to_idx file (Shutter_delay_ms self) = Ok d -> (d < 0)%Z ->
  exists expanded rows,
    Shutter_call self mask file = (mk_ndarray [n] expanded, Ok rows) /\
    length expanded = n /\
    (forall j, j < n ->
       (nth j expanded false = true <->
        nth j (buf mask) false = true \/
        exists i, 1 <= i <= j /\ nth i (buf mask) false = true /\
                  (Z.of_nat i < - d)%Z /\
                  (Z.of_nat j < Z.of_nat i + d + Z.of_nat n)%Z)) /\
    ((d <= - Z.of_nat n)%Z -> expanded = buf mask).
Proof.
  intros Hshape Hwf Hdata Hms Hd.
  destruct (Shutter_call_1d self mask file n d Hshape Hwf Hdata Hms) as [Hlen Hcall].
  set (expanded := Shutter_loop d (n - 1) (buf mask)) in *.
  assert (Hn : length (buf mask) = n).
  { unfold wf in Hwf. rewrite Hwf, Hshape. cbn. lia. }
  assert (Hiff : forall j, j < n ->
            (nth j expanded false = true <->
             nth j (buf mask) false = true \/
             exists i, 1 <= i <= j /\ nth i (buf mask) false = true /\
                       (Z.of_nat i < - d)%Z /\
                       (Z.of_nat j < Z.of_nat i + d + Z.of_nat n)%Z)).
  { intros j Hj.
    destruct (Shutter_loop_spec d (n - 1) (buf mask)) as [_ Hspec]; [lia |].
    fold expanded in Hspec. rewrite Hspec by lia. rewrite Hn.
    split.
    - intros [H | [i [Hi [Hf Hr]]]]; [now left | right; exists i].
      unfold np.slice_stop in Hr.
      destruct (Z.ltb_spec (Z.of_nat i + d) 0); repeat split; try assumption; lia.
    - intros [H | [i [Hi [Hf [Hneg Hr]]]]]; [now left | right; exists i].
      unfold np.slice_stop.
      destruct (Z.ltb_spec (Z.of_nat i + d) 0); repeat split; try assumption; lia. }
  exists expanded, (map fst (filter snd (combine (Shutter_data self) expanded))).
  repeat split; try assumption; try (now apply Hiff).
  intros Hfar. apply (nth_ext _ _ false false); [congruence |].
  intros j Hj. rewrite Hlen in Hj. specialize (Hiff j Hj).
  destruct (nth j expanded false), (nth j (buf mask) false); try reflexivity.
  - destruct (proj1 Hiff eq_refl) as [H | [i [Hi [_ [_ Hr]]]]]; [discriminate | lia].
  - apply Hiff. now left.
Qed.

(** X18. The detector's mask always fits the shutter: for a 3-dimensional
    recording and a dataset with one row per sweep the mask has one entry
    per row; when the delay is computed the shutter raises nothing and every
    row whose sweep the detector flagged is among the rows returned, and
    when [int()] raises on the delay the shutter raises that and leaves the
    detector's mask as it is. *)
Theorem DetectArtifacts_then_Shutter
    (data : ndarray T) (file : File T) (self : Shutter T R) (Sw Ch Ns : nat) :
  shape data = [Sw; Ch; Ns] -> wf data -> length (Shutter_data self) = Sw ->
  exists m,
    DetectArtifacts_call data file = Ok (Mask m) /\
    shape m = [Sw] /\
    (forall d, ms_to_idx file (Shutter_delay_ms self) = Ok d ->
       exists expanded rows,
         Shutter_call self m file = (mk_ndarray [Sw] expanded, Ok rows) /\
         forall i r, i < Sw -> np.get m [i] = Ok true ->
           nth_error (Shutter_data self) i = Some r -> In r rows) /\
    (forall e, ms_to_idx file (Shutter_delay_ms self) = Raise e ->
       Shutter_call self m file = (m, Raise e)).
Proof.
  intros Hshape Hwf Hdata.
  destruct (DetectArtifacts_nd data file Sw Ch Ns [] Hshape Hwf) as [m [Hm [Hsh [Hwfm _]]]].
  exists m. split; [exact Hm |]. split; [exact Hsh |]. split.
  - intros d Hd.
    destruct (Shutter_call_1d self m file Sw d Hsh Hwfm Hdata Hd) as [Hlen Hcall].
    assert (Hn : length (buf m) = Sw).
    { unfold wf in Hwfm. rewrite Hwfm, Hsh. cbn. lia. }
    do 2 eexists. split; [exact Hcall |].
    intros i r Hi Hflag Hr. rewrite (get_1d m Sw i Hsh Hi) in Hflag.
    destruct (nth_error (buf m) i) as [b|] eqn:E; [| discriminate].
    injection Hflag as ->.
    eapply bool_index_In; [| exact Hr].
    apply Shutter_loop_keeps; [lia |]. now apply nth_error_nth.
  - intros e He. apply Shutter_call_no_delay; [| assumption].
    unfold ndim. rewrite Hsh. cbn. lia.
Qed.

End ShutterFurther.

(** On exact numbers, for a non-negative sampling rate and non-negative
    delays, a longer delay_ms flags at least as much: from the same mask, every entry flagged with the shorter delay is flagged with the
    longer one, and every row returned with the shorter delay is returned
    with the longer one. *)
Lemma Shutter_longer_delay_flags_more_exact
    {R : Type} (data : list R) (dm1 dm2 : Q) (mask : ndarray bool) (file : File Q)
    (n : nat) :
  shape mask = [n] -> wf mask -> length data = n ->
  (0 <= sampling_rate file)%Q -> (0 <= dm1)%Q -> (dm1 <= dm2)%Q ->
  exists e1 rows1 e2 rows2,
    Shutter_call (mk_Shutter data dm1) mask file = (mk_ndarray [n] e1, Ok rows1) /\
    Shutter_call (mk_Shutter data dm2) mask file = (mk_ndarray [n] e2, Ok rows2) /\
    (forall j, nth j e1 false = true -> nth j e2 false = true) /\
    incl rows1 rows2.
Proof.
  intros Hshape Hwf Hdata Hs H1 H12.
  set (d1 := py_int (dm1 * sampling_rate file * 1000)%Q).
  set (d2 := py_int (dm2 * sampling_rate file * 1000)%Q).
  assert (E1 : ms_to_idx file dm1 = Ok d1) by reflexivity.
  assert (E2 : ms_to_idx file dm2 = Ok d2) by reflexivity.
  destruct (Shutter_call_1d (mk_Shutter data dm1) mask file n d1 Hshape Hwf Hdata E1)
    as [Hl1 Hc1].
  destruct (Shutter_call_1d (mk_Shutter data dm2) mask file n d2 Hshape Hwf Hdata E2)
    as [Hl2 Hc2].
  cbn [Shutter_data Shutter_delay_ms] in *.
  set (e1 := Shutter_loop d1 (n - 1) (buf mask)) in *.
  set (e2 := Shutter_loop d2 (n - 1) (buf mask)) in *.
  assert (Hn : length (buf mask) = n).
  { unfold wf in Hwf. rewrite Hwf, Hshape. cbn. lia. }
  assert (Hd1 : (0 <= d1)%Z).
  { change 0%Z with (py_int 0). apply py_int_mono.
    repeat apply Qmult_le_0_compat; try assumption. discriminate. }
  assert (Hd12 : (d1 <= d2)%Z).
  { apply py_int_mono. apply Qmult_le_compat_r; [| discriminate].
    now apply Qmult_le_compat_r. }
  assert (Hsub : forall j, nth j e1 false = true -> nth j e2 false = true).
  { intros j. apply (Shutter_loop_longer d1 d2 n j (buf mask)); [lia | assumption]. }
  exists e1, (map fst (filter snd (combine data e1))),
         e2, (map fst (filter snd (combine data e2))).
  repeat split; try assumption.
  intros r Hr. destruct (bool_index_In_inv _ _ _ Hr) as [j [Hj Hdj]].
  eapply bool_index_In; [apply Hsub |]; eassumption.
Qed.

(** X17. On floats, for a sampling rate and delays that are not below zero,
    a longer delay_ms flags at least as much: when the delay of the longer
    one is computed, so is the delay of the shorter one, and from the same
    mask every entry flagged with the shorter delay is flagged with the
    longer one, and every row returned with the shorter delay is returned
    with the longer one. *)
Theorem Shutter_longer_delay_flags_more
    {R : Type} (data : list R) (dm1 dm2 : float) (mask : ndarray bool)
    (file : File float) (n : nat) (d2 : Z) :
  shape mask = [n] -> wf mask -> length data = n ->
  (0 <=? sampling_rate file)%float = true ->
  (0 <=? dm1)%float = true -> (dm1 <=? dm2)%float = true ->
  ms_to_idx file dm2 = Ok d2 ->
  exists e1 rows1 e2 rows2,
    Shutter_call (mk_Shutter data dm1) mask file = (mk_ndarray [n] e1, Ok rows1) /\
    Shutter_call (mk_Shutter data dm2) mask file = (mk_ndarray [n] e2, Ok rows2) /\
    (forall j, nth j e1 false = true -> nth j e2 false = true) /\
    incl rows1 rows2.
Proof.
  intros Hshape Hwf Hdata Hs H1 H12 E2.
  destruct (ms_to_idx_float_below file dm1 dm2 d2 Hs H1 H12 E2) as [d1 E1].
  pose proof (ms_to_idx_float_nonneg file dm1 d1 Hs H1 E1) as Hd1.
  pose proof (ms_to_idx_float_mono file dm1 dm2 d1 d2 Hs H12 E1 E2) as Hd12.
  destruct (Shutter_call_1d (mk_Shutter data dm1) mask file n d1 Hshape Hwf Hdata E1)
    as [Hl1 Hc1].
  destruct (Shutter_call_1d (mk_Shutter data dm2) mask file n d2 Hshape Hwf Hdata E2)
    as [Hl2 Hc2].
  cbn [Shutter_data Shutter_delay_ms] in *.
  set (e1 := Shutter_loop d1 (n - 1) (buf mask)) in *.
  set (e2 := Shutter_loop d2 (n - 1) (buf mask)) in *.
  assert (Hn : length (buf mask) = n).
  { unfold wf in Hwf. rewrite Hwf, Hshape. cbn. lia. }
  assert (Hsub : forall j, nth j e1 false = true -> nth j e2 false = true).
  { intros j. apply (Shutter_loop_longer d1 d2 n j (buf mask)); [lia | assumption]. }
  exists e1, (map fst (filter snd (combine data e1))),
         e2, (map fst (filter snd (combine data e2))).
  repeat split; try assumption.
  intros r Hr. destruct (bool_index_In_inv _ _ _ Hr) as [j [Hj Hdj]].
  eapply bool_index_In; [apply Hsub |]; eassumption.
Qed.

(** ** The further statements on sample inputs *)

Lemma Shutter_keeps_flags_witness :
  let self := mk_Shutter six_rows ms_minus_0_003 in
  shape mask_at_1 = [6] /\ wf mask_at_1 /\ length (Shutter_data self) = 6 /\
  ms_to_idx file_10V_float (Shutter_delay_ms self) = Ok (-3)%Z /\
  exists expanded rows,
    Shutter_call self mask_at_1 file_10V_float = (mk_ndarray [6] expanded, Ok rows) /\
    length expanded = 6 /\
    length rows <= 6 /\
    (forall j, nth j (buf mask_at_1) false = true -> nth j expanded false = true) /\
    (forall j r, nth j (buf mask_at_1) false = true ->
       nth_error (Shutter_data self) j = Some r -> In r rows).
Proof.
  intros self.
  assert (H1 : shape mask_at_1 = [6]) by reflexivity.
  assert (H2 : wf mask_at_1) by reflexivity.
  assert (H3 : length (Shutter_data self) = 6) by reflexivity.
  assert (H4 : ms_to_idx file_10V_float (Shutter_delay_ms self) = Ok (-3)%Z)
    by (vm_compute; reflexivity).
  repeat (split; [assumption |]).
  exact (Shutter_keeps_flags self mask_at_1 file_10V_float 6 (-3) H1 H2 H3 H4).
Defined.

Lemma Shutter_delay_at_most_one_index_witness :
  let self := mk_Shutter six_rows ms_0_0001 in
  shape mask_at_2 = [6] /\ wf mask_at_2 /\ length (Shutter_data self) = 6 /\
  ms_to_idx file_10Hz (Shutter_delay_ms self) = Ok 1%Z /\ (-1 <= 1 <= 1)%Z /\
  exists rows,
    Shutter_call self mask_at_2 file_10Hz = (mask_at_2, Ok rows) /\
    map Some rows =
    map (nth_error (Shutter_data self))
      (filter (fun j => nth j (buf mask_at_2) false) (seq 0 6)).
Proof.
  intros self.
  assert (H1 : shape mask_at_2 = [6]) by reflexivity.
  assert (H2 : wf mask_at_2) by reflexivity.
  assert (H3 : length (Shutter_data self) = 6) by reflexivity.
  assert (H4 : ms_to_idx file_10Hz (Shutter_delay_ms self) = Ok 1%Z)
    by (vm_compute; reflexivity).
  assert (H5 : (-1 <= 1 <= 1)%Z) by lia.
  repeat (split; [assumption |]).
  exact (Shutter_delay_at_most_one_index self mask_at_2 file_10Hz 6 1 H1 H2 H3 H4 H5).
Defined.

(** The float next below 0.0001 at 10 samples per second: the exact product
    is below 1, the float product is 1.0 and the delay 1; the float 0.0005
    at 1 sample per second gives the delay 0. Either way the mask stays. *)
Example Shutter_short_delays :
  (exists q r,
     float_value ms_0_0001 = Some q /\ float_value (sampling_rate file_10Hz) = Some r /\
     (q * r * 1000 < 1)%Q) /\
  ms_to_idx file_10Hz ms_0_0001 = Ok 1%Z /\
  Shutter_call (mk_Shutter six_rows ms_0_0001) mask_at_2 file_10Hz
  = (mask_at_2, Ok [2]) /\
  ms_to_idx file_10V_float ms_0_0005 = Ok 0%Z /\
  Shutter_call (mk_Shutter six_rows ms_0_0005) mask_at_2 file_10V_float
  = (mask_at_2, Ok [2]).
Proof.
  split.
  - do 2 eexists. split; [vm_compute; reflexivity |].
    split; [vm_compute; reflexivity |]. vm_compute; reflexivity.
  - repeat split; vm_compute; reflexivity.
Qed.

Lemma Shutter_index_0_not_expanded_witness :
  let self := mk_Shutter three_rows ms_0_003 in
  shape mask_at_0 = [3] /\ wf mask_at_0 /\ length (Shutter_data self) = 3 /\
  ms_to_idx file_10V_float (Shutter_delay_ms self) = Ok 3%Z /\
  (forall j, 1 <= j -> nth j (buf mask_at_0) false = false) /\
  exists rows,
    Shutter_call self mask_at_0 file_10V_float = (mask_at_0, Ok rows) /\
    map Some rows =
    map (nth_error (Shutter_data self))
      (filter (fun j => nth j (buf mask_at_0) false) (seq 0 3)) /\
    length rows <= 1.
Proof.
  intros self.
  assert (H1 : shape mask_at_0 = [3]) by reflexivity.
  assert (H2 : wf mask_at_0) by reflexivity.
  assert (H3 : length (Shutter_data self) = 3) by reflexivity.
  assert (H4 : ms_to_idx file_10V_float (Shutter_delay_ms self) = Ok 3%Z)
    by (vm_compute; reflexivity).
  assert (H5 : forall j, 1 <= j -> nth j (buf mask_at_0) false = false).
  { intros j Hj. destruct j as [|[|[|[|j]]]]; try reflexivity. lia. }
  repeat (split; [assumption |]).
  exact (Shutter_index_0_not_expanded self mask_at_0 file_10V_float 3 3 H1 H2 H3 H4 H5).
Defined.

Lemma Shutter_wrong_row_count_witness :
  let self := mk_Shutter three_rows ms_0_003 in
  let other := mk_Shutter six_rows ms_0_003 in
  shape mask_at_2 = [6] /\ wf mask_at_2 /\
  length (Shutter_data self) <> 6 /\
  length (Shutter_data other) = 6 /\
  Shutter_delay_ms other = Shutter_delay_ms self /\
  ms_to_idx file_10V_float (Shutter_delay_ms self) = Ok 3%Z /\
  snd (Shutter_call self mask_at_2 file_10V_float)
  = Raise (IndexError "boolean index did not match indexed array along axis 0") /\
  (exists rows, snd (Shutter_call other mask_at_2 file_10V_float) = Ok rows) /\
  fst (Shutter_call self mask_at_2 file_10V_float)
  = fst (Shutter_call other mask_at_2 file_10V_float).
Proof.
  intros self other.
  assert (H1 : shape mask_at_2 = [6]) by reflexivity.
  assert (H2 : wf mask_at_2) by reflexivity.
  assert (H3 : length (Shutter_data self) <> 6) by discriminate.
  assert (H4 : length (Shutter_data other) = 6) by reflexivity.
  assert (H5 : Shutter_delay_ms other = Shutter_delay_ms self) by reflexivity.
  assert (H6 : ms_to_idx file_10V_float (Shutter_delay_ms self) = Ok 3%Z)
    by (vm_compute; reflexivity).
  repeat (split; [assumption |]).
  exact (Shutter_wrong_row_count self other mask_at_2 file_10V_float 6 3
           H1 H2 H3 H4 H5 H6).
Defined.

Example Shutter_wrong_row_count_mask :
  Shutter_call (mk_Shutter three_rows ms_0_003) mask_at_2 file_10V_float
  = (mk_ndarray [6] [false; false; true; true; true; false],
     Raise (IndexError "boolean index did not match indexed array along axis 0")).
Proof. vm_compute; reflexivity. Qed.

Lemma Shutter_negative_delay_witness :
  let self := mk_Shutter six_rows ms_minus_0_003 in
  shape mask_at_1 = [6] /\ wf mask_at_1 /\ length (Shutter_data self) = 6 /\
  ms_to_idx file_10V_float (Shutter_delay_ms self) = Ok (-3)%Z /\ (-3 < 0)%Z /\
  exists expanded rows,
    Shutter_call self mask_at_1 file_10V_float = (mk_ndarray [6] expanded, Ok rows) /\
    length expanded = 6 /\
    (forall j, j < 6 ->
       (nth j expanded false = true <->
        nth j (buf mask_at_1) false = true \/
        exists i, 1 <= i <= j /\ nth i (buf mask_at_1) false = true /\
                  (Z.of_nat i < - -3)%Z /\
                  (Z.of_nat j < Z.of_nat i + -3 + Z.of_nat 6)%Z)) /\
    ((-3 <= - Z.of_nat 6)%Z -> expanded = buf mask_at_1).
Proof.
  intros self.
  assert (H1 : shape mask_at_1 = [6]) by reflexivity.
  assert (H2 : wf mask_at_1) by reflexivity.
  assert (H3 : length (Shutter_data self) = 6) by reflexivity.
  assert (H4 : ms_to_idx file_10V_float (Shutter_delay_ms self) = Ok (-3)%Z)
    by (vm_compute; reflexivity).
  assert (H5 : (-3 < 0)%Z) by lia.
  repeat (split; [assumption |]).
  exact (Shutter_negative_delay self mask_at_1 file_10V_float 6 (-3) H1 H2 H3 H4 H5).
Defined.

Lemma Shutter_longer_delay_flags_more_witness :
  shape mask_at_2 = [6] /\ wf mask_at_2 /\ length six_rows = 6 /\
  (0 <=? sampling_rate file_10V_float)%float = true /\
  (0 <=? ms_0_002)%float = true /\ (ms_0_002 <=? ms_0_003)%float = true /\
  ms_to_idx file_10V_float ms_0_003 = Ok 3%Z /\
  exists e1 rows1 e2 rows2,
    Shutter_call (mk_Shutter six_rows ms_0_002) mask_at_2 file_10V_float
    = (mk_ndarray [6] e1, Ok rows1) /\
    Shutter_call (mk_Shutter six_rows ms_0_003) mask_at_2 file_10V_float
    = (mk_ndarray [6] e2, Ok rows2) /\
    (forall j, nth j e1 false = true -> nth j e2 false = true) /\
    incl rows1 rows2.
Proof.
  assert (H1 : shape mask_at_2 = [6]) by reflexivity.
  assert (H2 : wf mask_at_2) by reflexivity.
  assert (H3 : length six_rows = 6) by reflexivity.
  assert (H4 : (0 <=? sampling_rate file_10V_float)%float = true)
    by (vm_compute; reflexivity).
  assert (H5 : (0 <=? ms_0_002)%float = true) by (vm_compute; reflexivity).
  assert (H6 : (ms_0_002 <=? ms_0_003)%float = true) by (vm_compute; reflexivity).
  assert (H7 : ms_to_idx file_10V_float ms_0_003 = Ok 3%Z) by (vm_compute; reflexivity).
  repeat (split; [assumption |]).
  exact (Shutter_longer_delay_flags_more six_rows ms_0_002 ms_0_003 mask_at_2
           file_10V_float 6 3 H1 H2 H3 H4 H5 H6 H7).
Defined.

Lemma DetectArtifacts_then_Shutter_witness :
  let self := mk_Shutter [0; 1] ms_0_003 in
  shape sweeps_81_80 = [2; 3; 30] /\ wf sweeps_81_80 /\ length (Shutter_data self) = 2 /\
  exists m,
    DetectArtifacts_call sweeps_81_80 file_10V_float = Ok (Mask m) /\
    shape m = [2] /\
    (forall d, ms_to_idx file_10V_float (Shutter_delay_ms self) = Ok d ->
       exists expanded rows,
         Shutter_call self m file_10V_float = (mk_ndarray [2] expanded, Ok rows) /\
         forall i r, i < 2 -> np.get m [i] = Ok true ->
           nth_error (Shutter_data self) i = Some r -> In r rows) /\
    (forall e, ms_to_idx file_10V_float (Shutter_delay_ms self) = Raise e ->
       Shutter_call self m file_10V_float = (m, Raise e)).
Proof.
  intros self.
  assert (H1 : shape sweeps_81_80 = [2; 3; 30]) by reflexivity.
  assert (H2 : wf sweeps_81_80) by reflexivity.
  assert (H3 : length (Shutter_data self) = 2) by reflexivity.
  repeat (split; [assumption |]).
  exact (DetectArtifacts_then_Shutter sweeps_81_80 file_10V_float self 2 3 30 H1 H2 H3).
Defined.

(** ** Operator names and the registry *)

Ltac all_chars c := destruct c as [[] [] [] [] [] [] [] []]; vm_compute; reflexivity.

Lemma lower_char_not_upper (c : ascii) : is_upper (lower_char c) = false.
Proof. all_chars c. Qed.

Lemma lower_char_underscore (c : ascii) :
  Ascii.eqb (lower_char c) "_" = Ascii.eqb c "_".
Proof. all_chars c. Qed.

Lemma upper_not_underscore (c : ascii) : is_upper c && Ascii.eqb c "_" = false.
Proof. all_chars c. Qed.

Lemma not_upper_lower_char (c : ascii) : is_upper c = false -> lower_char c = c.
Proof. unfold lower_char. now intros ->. Qed.

(** A property of every string follows from the empty string, the
    one-character strings and the step over two characters. *)
Lemma string_pair_ind (P : string -> Prop) :
  P EmptyString ->
  (forall c, P (String c EmptyString)) ->
  (forall c1 c2 r, P r -> P (String c2 r) -> P (String c1 (String c2 r))) ->
  forall s, P s.
Proof.
  intros H0 H1 H2 s.
  assert (H : P s /\ forall c, P (String c s)).
  { induction s as [|c2 r [IHr IHc]].
    - split; [exact H0 | exact H1].
    - split; [apply IHc |]. intros c1. apply H2; [exact IHr | apply IHc]. }
  exact (proj1 H).
Qed.

Lemma strip_re_sub_camel (s : string) :
  strip_underscores (re_sub_camel s) = strip_underscores s.
Proof.
  induction s as [| c | c1 c2 r IHr IHc] using string_pair_ind; try reflexivity.
  cbn [re_sub_camel]. destruct (is_lower_or_digit c1 && is_upper c2) eqn:E.
  - apply andb_true_iff in E as [_ Hu].
    pose proof (upper_not_underscore c2) as Hc2. rewrite Hu in Hc2. cbn [andb] in Hc2.
    cbn [strip_underscores]. rewrite Ascii.eqb_refl, Hc2, IHr. reflexivity.
  - change (strip_underscores (String c1 (re_sub_camel (String c2 r)))
            = strip_underscores (String c1 (String c2 r))).
    cbn [strip_underscores]. fold (strip_underscores (String c2 r)).
    cbn [strip_underscores] in IHc |- *. now rewrite IHc.
Qed.

Lemma strip_lower (s : string) :
  strip_underscores (lower s) = lower (strip_underscores s).
Proof.
  induction s as [|c s IH]; cbn [lower strip_underscores]; [reflexivity |].
  rewrite lower_char_underscore. destruct (Ascii.eqb c "_"); cbn [lower]; now rewrite IH.
Qed.

Lemma has_no_upper_lower (s : string) : has_no_upper (lower s) = true.
Proof.
  induction s as [|c s IH]; cbn [lower has_no_upper]; [reflexivity |].
  now rewrite lower_char_not_upper, IH.
Qed.

Lemma re_sub_camel_no_upper (s : string) :
  has_no_upper s = true -> re_sub_camel s = s.
Proof.
  induction s as [| c | c1 c2 r IHr IHc] using string_pair_ind; try reflexivity.
  intros H. cbn [has_no_upper] in H.
  apply andb_true_iff in H as [H1 H2]. apply andb_true_iff in H2 as [H2 H3].
  apply negb_true_iff in H2. cbn [re_sub_camel]. rewrite H2, andb_false_r.
  f_equal. apply IHc. cbn [has_no_upper]. now rewrite H2, H3.
Qed.

Lemma lower_no_upper (s : string) : has_no_upper s = true -> lower s = s.
Proof.
  induction s as [|c s IH]; cbn [lower has_no_upper]; [reflexivity |].
  intros H. apply andb_true_iff in H as [H1 H2]. apply negb_true_iff in H1.
  now rewrite (not_upper_lower_char c H1), IH.
Qed.

(** X19. The operator name derived from an ASCII class name has no
    upper-case letter, differs from the class name only by lower-casing and
    by underscores put in, and is its own derived name: a class named like an
    operator registers under that very name. *)
Theorem operator_name_derived (cls_name : string) :
  is_ascii cls_name ->
  let name := operator_name None cls_name in
  has_no_upper name = true /\
  strip_underscores name = lower (strip_underscores cls_name) /\
  operator_name None name = name.
Proof.
  intros _ name. unfold name, operator_name. split; [apply has_no_upper_lower |]. split.
  - now rewrite strip_lower, strip_re_sub_camel.
  - rewrite (re_sub_camel_no_upper (lower _)) by apply has_no_upper_lower.
    apply lower_no_upper, has_no_upper_lower.
Qed.

Lemma operator_name_derived_witness :
  is_ascii "DetectArtifacts" /\
  let name := operator_name None "DetectArtifacts" in
  has_no_upper name = true /\
  strip_underscores name = lower (strip_underscores "DetectArtifacts") /\
  operator_name None name = name.
Proof.
  assert (H : is_ascii "DetectArtifacts").
  { unfold is_ascii. cbn [list_ascii_of_string]. repeat constructor; vm_compute; lia. }
  split; [assumption |]. exact (operator_name_derived "DetectArtifacts" H).
Defined.

Example operator_names :
  operator_name None "DetectArtifacts" = "detect_artifacts" /\
  operator_name None "HTTPServer2Go" = "httpserver2_go" /\
  operator_name (Some "Detect") "DetectArtifacts" = "Detect" /\
  operator_name (Some "") "Raw" = "raw".
Proof. repeat split; reflexivity. Qed.


Lemma length_dict_set {V : Type} (k : string) (v : V) (d : list (string * V)) :
  length (dict_set k v d) <= S (length d).
Proof.
  induction d as [|[k0 v0] d IH]; cbn [dict_set length]; [lia |].
  destruct (String.eqb k0 k); cbn [length]; lia.
Qed.

Section RegistryFacts.

Variables (Cls : Type) (name_of : Cls -> string).




End RegistryFacts.


(** The module's own six class statements: its exports, each operator bound
    to the factory of its own class, each class bound to its own name, and
    the modules still bound and not exported. *)
Example signal_exports :
  exists g,
    class_statements signal_class signal_class_name signal_classes signal_globals = Some g /\
    dict_get "__all__" g
    = Some (List_of_names
              ["variation"; "amplitude"; "energy"; "raw"; "detect_artifacts"; "shutter"]) /\
    dict_get "detect_artifacts" g = Some (Factory cls_DetectArtifacts) /\
    dict_get "DetectArtifacts" g = Some (Class cls_DetectArtifacts) /\
    dict_get "np" g = Some (Module "numpy") /\
    map fst g
    = ["re"; "abc"; "functools"; "np"; "np_tricks"; "__all__"; "_transformer_factory";
       "Transformer"; "variation"; "Variation"; "amplitude"; "Amplitude"; "energy";
       "Energy"; "raw"; "Raw"; "detect_artifacts"; "DetectArtifacts"; "shutter";
       "Shutter"].
Proof. eexists. split; [vm_compute; reflexivity |]. repeat split. Qed.

(** A subclass registered under the name of something the registration
    reads takes that thing's place, and the model ends there: after
    [operator="re"] the next class without [operator] finds no module under
    [re], and with [operator="__all__"] the list of exports is gone before
    the name can be appended to it. *)
Example registration_under_a_name_read :
  (exists g,
     __init_subclass__ signal_class signal_class_name cls_Raw (Some "re") signal_globals
     = Some g /\
     dict_get "re" g = Some (Factory cls_Raw) /\
     __init_subclass__ signal_class signal_class_name cls_Energy None g = None) /\
  __init_subclass__ signal_class signal_class_name cls_Raw (Some "__all__") signal_globals
  = None.
Proof.
  split; [| vm_compute; reflexivity].
  eexists. split; [vm_compute; reflexivity |]. split; vm_compute; reflexivity.
Qed.
